(** * Bridge inventory: queries, mutations and inspector assignment

    A shallow embedding of [bridge_functions.py].

    Conventions of the embedding.
    - A cleaned bridge record, a Python list read through the index constants
      [ID_INDEX], [NAME_INDEX], ..., [BCIS_INDEX], is a record whose fields
      carry the names of those constants.
    - Python floats are idealised as real numbers: the rounding of each
      arithmetic operation is not modelled, [round(x, 3)] is rounding of the
      real [x] to the nearest multiple of [1/1000], ties to even.
    - A Python exception is a value of [exn]; code that can raise returns a
      [result].
    - The module [constants] is not among the sources.  Its index constants
      fix the order of the fields; its numeric constants are the fields of
      the class [Constants]. *)

From Stdlib Require Import Reals Lra Lia ZArith String Ascii Bool List.
From Stdlib Require Import Zfloor.
Import ListNotations.

Local Open Scope R_scope.

(** ** Exceptions and results *)

Inductive exn : Type :=
| IndexError
| ZeroDivisionError
| ValueError
| TypeError.

Inductive result (A : Type) : Type :=
| Ok (a : A)
| Raise (e : exn).

Arguments Ok {A} a.
Arguments Raise {A} e.

Definition bind {A B : Type} (r : result A) (k : A -> result B) : result B :=
  match r with
  | Ok a => k a
  | Raise e => Raise e
  end.

Notation "x <- r ;; k" := (bind r (fun x => k))
  (at level 61, r at next level, right associativity).

(** A [for] loop whose body can raise: the state is threaded through the
    elements in order and the first exception ends the loop. *)
Fixpoint for_each {A S : Type} (body : S -> A -> result S) (l : list A) (s : S)
  : result S :=
  match l with
  | [] => Ok s
  | a :: l' => s' <- body s a ;; for_each body l' s'
  end.

(** A list comprehension [[x for x in l if cond(x)]] whose condition can
    raise. *)
Fixpoint comprehension {A : Type} (cond : A -> result bool) (l : list A)
  : result (list A) :=
  match l with
  | [] => Ok []
  | a :: l' =>
      c <- cond a ;;
      rest <- comprehension cond l' ;;
      Ok (if c then a :: rest else rest)
  end.

(** ** Python sequences *)

(** [l[i]]: a negative index counts from the end, an index out of range
    raises [IndexError]. *)
Definition py_index {A : Type} (l : list A) (i : Z) : result A :=
  let n := Z.of_nat (length l) in
  let j := (if i <? 0 then i + n else i)%Z in
  if ((j <? 0) || (n <=? j))%Z then Raise IndexError
  else match nth_error l (Z.to_nat j) with
       | Some a => Ok a
       | None => Raise IndexError
       end.

(** The bound of a slice, clamped as Python does: a negative bound counts from
    the end, then the bound is brought into [0 .. n]. *)
Definition clamp (n : nat) (i : Z) : nat :=
  let len := Z.of_nat n in
  let j := (if i <? 0 then i + len else i)%Z in
  Z.to_nat (Z.min len (Z.max 0 j)).

(** [l[lo:hi]]. *)
Definition py_slice {A : Type} (l : list A) (lo hi : Z) : list A :=
  let a := clamp (length l) lo in
  let b := clamp (length l) hi in
  firstn (b - a) (skipn a l).

(** [l[:hi]]. *)
Definition py_slice_to {A : Type} (l : list A) (hi : Z) : list A :=
  firstn (clamp (length l) hi) l.

(** [s[lo:hi]] on a string. *)
Definition str_slice (s : string) (lo hi : Z) : string :=
  string_of_list_ascii (py_slice (list_ascii_of_string s) lo hi).

(** [x in l] for a list of integers. *)
Definition py_in (x : Z) (l : list Z) : bool := existsb (Z.eqb x) l.

(** An integer compared with a list: [==] between an [int] and a [list] is
    always [False]. *)
Definition int_eq_list (x : Z) (l : list Z) : bool := false.

(** [x in ll] for an integer [x] and a list of lists [ll]. *)
Definition py_in_lists (x : Z) (ll : list (list Z)) : bool :=
  existsb (int_eq_list x) ll.

(** ** Numbers *)

Definition Rleb (x y : R) : bool := if Rle_dec x y then true else false.
Definition Rltb (x y : R) : bool := if Rlt_dec x y then true else false.

(** A float that may be [float("inf")]. *)
Inductive ext_float : Type :=
| Finite (x : R)
| Infinity.

(** [d > x] for a possibly infinite [d] and a finite [x]. *)
Definition ext_gtb (d : ext_float) (x : R) : bool :=
  match d with
  | Finite y => Rltb x y
  | Infinity => true
  end.

(** [math.radians]. *)
Definition radians (x : R) : R := x * (PI / 180).

(** Rounding of a real to the nearest integer, ties to even. *)
Definition round_half_even (y : R) : Z :=
  let n := Zfloor y in
  let f := y - IZR n in
  if Rlt_dec f (1 / 2) then n
  else if Rlt_dec (1 / 2) f then (n + 1)%Z
  else if Z.even n then n else (n + 1)%Z.

(** [round(x, ndigits)]. *)
Definition round (x : R) (ndigits : nat) : R :=
  IZR (round_half_even (x * 10 ^ ndigits)) / 10 ^ ndigits.

(** [sum(l)]. *)
Definition sum (l : list R) : R := fold_left Rplus l 0.

(** [x / n] for a number [x] and an integer [n]: division by zero raises. *)
Definition py_div (x : R) (n : Z) : result R :=
  if (n =? 0)%Z then Raise ZeroDivisionError else Ok (x / IZR n).

(** ** Constants *)

(** The numeric constants imported from [constants]. *)
Class Constants : Type := {
  HIGH_PRIORITY_BCI : R;
  MEDIUM_PRIORITY_BCI : R;
  LOW_PRIORITY_BCI : R;
  HIGH_PRIORITY_RADIUS : R;
  MEDIUM_PRIORITY_RADIUS : R;
  LOW_PRIORITY_RADIUS : R;
  EARTH_RADIUS : R
}.

(** Modelled from the spec: the module [constants] is missing from the
    sources and the spec gives no values ("three priority radii, two BCI
    priority-tier thresholds, and the Earth radius constant").  This instance
    is one under which the docstring examples of the source hold; it is used
    only to run the definitions on concrete inputs. *)
Definition reference_constants : Constants := {|
  HIGH_PRIORITY_BCI := 60;
  MEDIUM_PRIORITY_BCI := 70;
  LOW_PRIORITY_BCI := 100;
  HIGH_PRIORITY_RADIUS := 500;
  MEDIUM_PRIORITY_RADIUS := 250;
  LOW_PRIORITY_RADIUS := 100;
  EARTH_RADIUS := 6371
|}.

(** ** Bridge records *)

(** A record list of the collection.  [H] is what the BCI cell holds: the
    history itself in a bridge read as a value, a reference to the list object
    of the history in a record list of the object store. *)
Record bridge_of (H : Type) : Type := {
  ID : Z;
  NAME : string;
  HIGHWAY : string;
  LAT : R;
  LON : R;
  YEAR : string;
  LAST_MAJOR : string;
  LAST_MINOR : string;
  NUM_SPANS : Z;
  SPAN_DETAILS : list R;
  LENGTH : R;
  LAST_INSPECTED : string;
  BCIS : H
}.

Arguments ID {H} _.
Arguments NAME {H} _.
Arguments HIGHWAY {H} _.
Arguments LAT {H} _.
Arguments LON {H} _.
Arguments YEAR {H} _.
Arguments LAST_MAJOR {H} _.
Arguments LAST_MINOR {H} _.
Arguments NUM_SPANS {H} _.
Arguments SPAN_DETAILS {H} _.
Arguments LENGTH {H} _.
Arguments LAST_INSPECTED {H} _.
Arguments BCIS {H} _.

Abbreviation bridge := (bridge_of (list R)).

(** [bridge[LAST_INSPECTED_INDEX] = date]. *)
Definition set_LAST_INSPECTED {H : Type} (b : bridge_of H) (date : string)
  : bridge_of H :=
  {| ID := ID b; NAME := NAME b; HIGHWAY := HIGHWAY b; LAT := LAT b;
     LON := LON b; YEAR := YEAR b; LAST_MAJOR := LAST_MAJOR b;
     LAST_MINOR := LAST_MINOR b; NUM_SPANS := NUM_SPANS b;
     SPAN_DETAILS := SPAN_DETAILS b; LENGTH := LENGTH b;
     LAST_INSPECTED := date; BCIS := BCIS b |}.

(** [bridge[LAST_MAJOR_INDEX] = year]. *)
Definition set_LAST_MAJOR {H : Type} (b : bridge_of H) (year : string)
  : bridge_of H :=
  {| ID := ID b; NAME := NAME b; HIGHWAY := HIGHWAY b; LAT := LAT b;
     LON := LON b; YEAR := YEAR b; LAST_MAJOR := year;
     LAST_MINOR := LAST_MINOR b; NUM_SPANS := NUM_SPANS b;
     SPAN_DETAILS := SPAN_DETAILS b; LENGTH := LENGTH b;
     LAST_INSPECTED := LAST_INSPECTED b; BCIS := BCIS b |}.

(** [bridge[LAST_MINOR_INDEX] = year]. *)
Definition set_LAST_MINOR {H : Type} (b : bridge_of H) (year : string)
  : bridge_of H :=
  {| ID := ID b; NAME := NAME b; HIGHWAY := HIGHWAY b; LAT := LAT b;
     LON := LON b; YEAR := YEAR b; LAST_MAJOR := LAST_MAJOR b;
     LAST_MINOR := year; NUM_SPANS := NUM_SPANS b;
     SPAN_DETAILS := SPAN_DETAILS b; LENGTH := LENGTH b;
     LAST_INSPECTED := LAST_INSPECTED b; BCIS := BCIS b |}.

(** The record with another content of its BCI cell. *)
Definition with_BCIS {H H' : Type} (b : bridge_of H) (bcis : H')
  : bridge_of H' :=
  {| ID := ID b; NAME := NAME b; HIGHWAY := HIGHWAY b; LAT := LAT b;
     LON := LON b; YEAR := YEAR b; LAST_MAJOR := LAST_MAJOR b;
     LAST_MINOR := LAST_MINOR b; NUM_SPANS := NUM_SPANS b;
     SPAN_DETAILS := SPAN_DETAILS b; LENGTH := LENGTH b;
     LAST_INSPECTED := LAST_INSPECTED b; BCIS := bcis |}.

Definition bridge_1 : bridge :=
  {| ID := 1; NAME := "Highway 24 Underpass at Highway 403"; HIGHWAY := "403";
     LAT := 43.167233; LON := -80.275567; YEAR := "1965";
     LAST_MAJOR := "2014"; LAST_MINOR := "2009"; NUM_SPANS := 4;
     SPAN_DETAILS := [12.0; 19.0; 21.0; 12.0]; LENGTH := 65.0;
     LAST_INSPECTED := "04/13/2012";
     BCIS := [72.3; 69.5; 70.0; 70.3; 70.5; 70.7; 72.9] |}.

Definition bridge_2 : bridge :=
  {| ID := 2; NAME := "WEST STREET UNDERPASS"; HIGHWAY := "403";
     LAT := 43.164531; LON := -80.251582; YEAR := "1963";
     LAST_MAJOR := "2014"; LAST_MINOR := "2007"; NUM_SPANS := 4;
     SPAN_DETAILS := [12.2; 18.0; 18.0; 12.2]; LENGTH := 61.0;
     LAST_INSPECTED := "04/13/2012";
     BCIS := [71.5; 68.1; 69.0; 69.4; 69.4; 70.3; 73.3] |}.

Definition bridge_3 : bridge :=
  {| ID := 3; NAME := "STOKES RIVER BRIDGE"; HIGHWAY := "6";
     LAT := 45.036739; LON := -81.33579; YEAR := "1958";
     LAST_MAJOR := "2013"; LAST_MINOR := EmptyString; NUM_SPANS := 1;
     SPAN_DETAILS := [16.0]; LENGTH := 18.4;
     LAST_INSPECTED := "08/28/2013";
     BCIS := [85.1; 67.8; 67.4; 69.2; 70.0; 70.5; 75.1; 90.1] |}.

Definition THREE_BRIDGES : list bridge := [bridge_1; bridge_2; bridge_3].

(** ** Geospatial distance *)

Section Queries.

Context {K : Constants}.

(** The haversine term of two points given in radians.  [math.sqrt] raises on
    a negative argument and [math.asin] outside [-1 .. 1]; on the reals the
    term lies in [0 .. 1] (lemma [haversine_range]), so neither raises and
    the total functions [sqrt] and [asin] stand for them. *)
Definition haversine (lat1 lon1 lat2 lon2 : R) : R :=
  sin ((lat2 - lat1) / 2) ^ 2
  + cos lat1 * cos lat2 * sin ((lon2 - lon1) / 2) ^ 2.

Definition calculate_distance (lat1 lon1 lat2 lon2 : R) : R :=
  let lat1 := radians lat1 in
  let lon1 := radians lon1 in
  let lat2 := radians lat2 in
  let lon2 := radians lon2 in
  round (2 * EARTH_RADIUS * asin (sqrt (haversine lat1 lon1 lat2 lon2))) 3.

Definition get_distance_between (bridge1 bridge2 : bridge) : R :=
  calculate_distance (LAT bridge1) (LON bridge1) (LAT bridge2) (LON bridge2).

(** ** Query engine *)

Fixpoint get_average_bci (bridge_data : list bridge) (bridge_id : Z)
  : result R :=
  match bridge_data with
  | [] => Ok 0
  | bridge :: rest =>
      if (ID bridge =? bridge_id)%Z
      then py_div (sum (BCIS bridge)) (Z.of_nat (length (BCIS bridge)))
      else get_average_bci rest bridge_id
  end.

(** [range(n)]. *)
Definition range (n : Z) : list Z := map Z.of_nat (seq 0 (Z.to_nat n)).

Definition get_closest_bridge (bridge_data : list bridge) (bridge_id : Z)
  : result Z :=
  let d := Infinity in
  let index := 0%Z in
  final <-
    for_each
      (fun '(d, index) i =>
         bridge_i <- py_index bridge_data i ;;
         if negb (ID bridge_i =? bridge_id)%Z
         then
           other <- py_index bridge_data bridge_id ;;
           if ext_gtb d (get_distance_between bridge_i other)
           then Ok (Finite (get_distance_between bridge_i other), ID bridge_i)
           else Ok (d, index)
         else Ok (d, index))
      (range (Z.of_nat (length bridge_data) - 1))
      (d, index) ;;
  Ok (snd final).

Definition get_bridges_in_radius (bridge_data : list bridge)
    (latitude longtitude radius : R) : list Z :=
  fold_left
    (fun bridges_in_radius bridge =>
       if Rleb (calculate_distance (LAT bridge) (LON bridge)
                  latitude longtitude) radius
       then bridges_in_radius ++ [ID bridge]
       else bridges_in_radius)
    bridge_data [].

(** ** Inspector assignment *)

(** The state of the loop over the inspectors. *)
Record assign_state : Type := {
  bridge_ids : list Z;
  inspector_assignments : list (list Z)
}.

(** The three comprehensions of the loop body.  [and] is short-circuit: the
    current BCI [bridge[BCIS_INDEX][0]] is read only when the three tests
    before it hold. *)
Definition hp_bridges (bridge_data : list bridge) (st : assign_state)
    (bridges_in_hp_radius : list Z) : result (list bridge) :=
  comprehension
    (fun bridge =>
       if py_in (ID bridge) (bridge_ids st)
          && negb (py_in_lists (ID bridge) (inspector_assignments st))
          && py_in (ID bridge) bridges_in_hp_radius
       then bci <- py_index (BCIS bridge) 0 ;;
            Ok (Rleb bci HIGH_PRIORITY_BCI)
       else Ok false)
    bridge_data.

Definition mp_bridges (bridge_data : list bridge) (st : assign_state)
    (bridges_in_mp_radius : list Z) : result (list bridge) :=
  comprehension
    (fun bridge =>
       if py_in (ID bridge) (bridge_ids st)
          && negb (py_in_lists (ID bridge) (inspector_assignments st))
          && py_in (ID bridge) bridges_in_mp_radius
       then bci <- py_index (BCIS bridge) 0 ;;
            Ok (Rltb HIGH_PRIORITY_BCI bci && Rleb bci MEDIUM_PRIORITY_BCI)
       else Ok false)
    bridge_data.

Definition lp_bridges (bridge_data : list bridge) (st : assign_state)
    (bridges_in_lp_radius : list Z) : result (list bridge) :=
  comprehension
    (fun bridge =>
       if py_in (ID bridge) (bridge_ids st)
          && negb (py_in_lists (ID bridge) (inspector_assignments st))
          && py_in (ID bridge) bridges_in_lp_radius
       then bci <- py_index (BCIS bridge) 0 ;;
            Ok (Rltb MEDIUM_PRIORITY_BCI bci)
       else Ok false)
    bridge_data.

(** [bridges_to_assign] of the loop body: the candidates of one inspector,
    a two-element list [[lat, lon]] read as a pair. *)
Definition bridges_to_assign (bridge_data : list bridge) (st : assign_state)
    (inspector : R * R) : result (list bridge) :=
  let bridges_in_hp_radius :=
    get_bridges_in_radius bridge_data (fst inspector) (snd inspector)
      HIGH_PRIORITY_RADIUS in
  let bridges_in_mp_radius :=
    get_bridges_in_radius bridge_data (fst inspector) (snd inspector)
      MEDIUM_PRIORITY_RADIUS in
  let bridges_in_lp_radius :=
    get_bridges_in_radius bridge_data (fst inspector) (snd inspector)
      LOW_PRIORITY_RADIUS in
  hp <- hp_bridges bridge_data st bridges_in_hp_radius ;;
  mp <- mp_bridges bridge_data st bridges_in_mp_radius ;;
  lp <- lp_bridges bridge_data st bridges_in_lp_radius ;;
  Ok (hp ++ mp ++ lp).

(** One turn of the loop over the inspectors. *)
Definition assign_step (bridge_data : list bridge) (max_bridges : Z)
    (st : assign_state) (inspector : R * R) : result assign_state :=
  candidates <- bridges_to_assign bridge_data st inspector ;;
  let assigned_bridges := py_slice_to candidates max_bridges in
  Ok {| inspector_assignments :=
          inspector_assignments st ++ [map ID assigned_bridges];
        bridge_ids :=
          filter (fun bridge_id => negb (py_in bridge_id
                                           (map ID assigned_bridges)))
                 (bridge_ids st) |}.

Definition assign_inspectors (bridge_data : list bridge)
    (inspectors : list (R * R)) (max_bridges : Z) : result (list (list Z)) :=
  let st := {| bridge_ids := map ID bridge_data;
               inspector_assignments := [] |} in
  final <- for_each (assign_step bridge_data max_bridges) inspectors st ;;
  Ok (inspector_assignments final).

End Queries.

(** ** Object store *)

(** The mutation operations work in place, on the list objects the caller
    holds.  The store has the record lists of the bridges and the list
    objects of their BCI histories; a collection [bridge_data] is a list of
    references to record lists. *)

Definition loc : Type := nat.

Abbreviation row := (bridge_of loc).

Record store : Type := {
  rows : loc -> option row;
  lists : loc -> option (list R)
}.

Definition set_row (h : store) (l : loc) (r : row) : store :=
  {| rows := fun l' => if Nat.eqb l' l then Some r else rows h l';
     lists := lists h |}.

Definition set_list (h : store) (l : loc) (v : list R) : store :=
  {| rows := rows h;
     lists := fun l' => if Nat.eqb l' l then Some v else lists h l' |}.

(** The bridge a reference stands for, read as a value. *)
Definition read_bridge (h : store) (l : loc) : option bridge :=
  match rows h l with
  | Some r =>
      match lists h (BCIS r) with
      | Some history => Some (with_BCIS r history)
      | None => None
      end
  | None => None
  end.

Fixpoint read_collection (h : store) (bridge_data : list loc)
  : option (list bridge) :=
  match bridge_data with
  | [] => Some []
  | l :: rest =>
      match read_bridge h l, read_collection h rest with
      | Some b, Some bs => Some (b :: bs)
      | _, _ => None
      end
  end.

(** [l.insert(i, x)]: the position is clamped like the bound of a slice. *)
Definition py_insert {A : Type} (l : list A) (i : Z) (x : A) : list A :=
  let k := clamp (length l) i in
  firstn k l ++ x :: skipn k l.

(** ** Mutation operations *)

Definition inspect_bridges (h : store) (bridge_data : list loc)
    (bridge_ids : list Z) (date : string) (bci : R) : store :=
  fold_left
    (fun h bridge =>
       match rows h bridge with
       | Some r =>
           if py_in (ID r) bridge_ids
           then
             let h := set_row h bridge (set_LAST_INSPECTED r date) in
             match lists h (BCIS r) with
             | Some history => set_list h (BCIS r) (py_insert history 0 bci)
             | None => h
             end
           else h
       | None => h
       end)
    bridge_data h.

Definition add_rehab (h : store) (bridge_data : list loc) (bridge_id : Z)
    (rehab_year : string) (rehab : bool) : store :=
  let rehab_year_slice := str_slice rehab_year 6 10 in
  fold_left
    (fun h bridge =>
       match rows h bridge with
       | Some r =>
           if (ID r =? bridge_id)%Z
           then
             if Bool.eqb rehab true
             then set_row h bridge (set_LAST_MAJOR r rehab_year_slice)
             else set_row h bridge (set_LAST_MINOR r rehab_year_slice)
           else h
       | None => h
       end)
    bridge_data h.

(** ** Record normalizer: the length cell *)

(** A cell of a row under normalization: the raw cells are strings, the
    formatted ones numbers and lists. *)
#[warnings="-register-all"]
Inductive pyval : Type :=
| PInt (z : Z)
| PFloat (x : R)
| PStr (s : string)
| PList (l : list pyval).

Definition Reqb (x y : R) : bool := if Req_dec_T x y then true else false.

(** [a == b]. *)
Fixpoint py_eqb (a b : pyval) : bool :=
  match a, b with
  | PInt x, PInt y => (x =? y)%Z
  | PInt x, PFloat y => Reqb (IZR x) y
  | PFloat x, PInt y => Reqb x (IZR y)
  | PFloat x, PFloat y => Reqb x y
  | PStr s, PStr t => String.eqb s t
  | PList l, PList m =>
      (fix all2 (l m : list pyval) : bool :=
         match l, m with
         | [], [] => true
         | x :: l', y :: m' => py_eqb x y && all2 l' m'
         | _, _ => false
         end) l m
  | _, _ => false
  end.

(** [l[i] = v]. *)
Definition py_setitem {A : Type} (l : list A) (i : Z) (v : A)
  : result (list A) :=
  let n := Z.of_nat (length l) in
  let j := (if i <? 0 then i + n else i)%Z in
  if ((j <? 0) || (n <=? j))%Z then Raise IndexError
  else Ok (firstn (Z.to_nat j) l ++ v :: skipn (S (Z.to_nat j)) l).

Section Normalizer.

(** The index constant of the length cell, imported from [constants]. *)
Variable LENGTH_INDEX : Z.

(** [float(s)] on a string: [None] stands for [ValueError]. *)
Variable float_of_string : string -> option R.

(** [float(v)]. *)
Definition py_float (v : pyval) : result R :=
  match v with
  | PInt z => Ok (IZR z)
  | PFloat x => Ok x
  | PStr s =>
      match float_of_string s with
      | Some x => Ok x
      | None => Raise ValueError
      end
  | PList _ => Raise TypeError
  end.

(** The test compares the record, a list, with the empty string. *)
Definition format_length (bridge_record : list pyval)
  : result (list pyval) :=
  if negb (py_eqb (PList bridge_record) (PStr EmptyString))
  then
    cell <- py_index bridge_record LENGTH_INDEX ;;
    x <- py_float cell ;;
    py_setitem bridge_record LENGTH_INDEX (PFloat x)
  else py_setitem bridge_record LENGTH_INDEX (PFloat 0).

End Normalizer.

(** A reader of plain decimal numerals, [digits] or [digits.digits] with an
    optional sign: one function that [float_of_string] can be. *)
Definition digit_of_ascii (c : ascii) : option Z :=
  let n := nat_of_ascii c in
  if ((48 <=? n) && (n <=? 57))%nat then Some (Z.of_nat (n - 48)) else None.

Fixpoint read_digits (s : string) (acc : Z) (n : nat)
  : option (Z * nat * string) :=
  match s with
  | EmptyString => Some (acc, n, EmptyString)
  | String c s' =>
      match digit_of_ascii c with
      | Some d => read_digits s' (acc * 10 + d)%Z (S n)
      | None => Some (acc, n, s)
      end
  end.

Definition read_unsigned (s : string) : option R :=
  match read_digits s 0 0 with
  | Some (_, O, _) => None
  | Some (whole, S _, EmptyString) => Some (IZR whole)
  | Some (whole, S _, String "." frac) =>
      match read_digits frac 0 0 with
      | Some (f, k, EmptyString) => Some (IZR whole + IZR f / 10 ^ k)
      | _ => None
      end
  | _ => None
  end.

Definition decimal_of_string (s : string) : option R :=
  match s with
  | String "-" s' => option_map Ropp (read_unsigned s')
  | String "+" s' => read_unsigned s'
  | _ => read_unsigned s
  end.

(** The first uncleaned row of the docstrings, with an empty length cell. *)
Definition raw_row_empty_length : list pyval :=
  map PStr
    ["1 -  32/"; "Highway 24 Underpass at Highway 403"; "403"; "43.167233";
     "-80.275567"; "1965"; "2014"; "2009"; "4";
     "Total=64  (1)=12;(2)=19;(3)=21;(4)=12;"; EmptyString; "04/13/2012";
     "72.3"; EmptyString; "72.3"; EmptyString; "69.5"; EmptyString; "70";
     EmptyString; "70.3"; EmptyString; "70.5"; EmptyString; "70.7"; "72.9";
     EmptyString]%string.

(** Bridge 1 with no BCI recorded, as [format_bcis] leaves a row whose BCI
    cells are all empty. *)
Definition bridge_without_bci : bridge := with_BCIS bridge_1 [].

(** ** Record normalizer: the other formatters *)

(** The index constants imported from [constants] that the normalizer
    uses. *)
Class Layout : Type := {
  ID_INDEX : Z;
  LAT_INDEX : Z;
  LON_INDEX : Z;
  NUM_SPANS_INDEX : Z;
  SPAN_DETAILS_INDEX : Z;
  LENGTH_INDEX : Z;
  BCIS_INDEX : Z
}.

(** Modelled from the spec: the module [constants] is missing from the
    sources; the positions are those of the fields of a bridge record in the
    order of the data model (id, name, highway, latitude, longitude, year
    built, last major rehab, last minor rehab, span count, span lengths,
    total length, last inspection date, BCI history), which is also the
    order of the records in the docstrings of the source. *)
Definition reference_layout : Layout := {|
  ID_INDEX := 0;
  LAT_INDEX := 3;
  LON_INDEX := 4;
  NUM_SPANS_INDEX := 8;
  SPAN_DETAILS_INDEX := 9;
  LENGTH_INDEX := 10;
  BCIS_INDEX := 12
|}.

(** The exceptions of the normalizer: those above, and [AttributeError] for
    [split] on a cell that is no string. *)
Inductive norm_exn : Type :=
| Builtin (e : exn)
| AttributeError.

(** The formatters work in place and can raise half-way: the outcome of a
    procedure has the state it leaves, also when it raises. *)
Inductive outcome (S A : Type) : Type :=
| Returns (s : S) (a : A)
| Raises (s : S) (e : norm_exn).

Arguments Returns {S A} s a.
Arguments Raises {S A} s e.

Definition proc (S A : Type) : Type := S -> outcome S A.

Definition ret {S A : Type} (a : A) : proc S A := fun s => Returns s a.

Definition raise {S A : Type} (e : norm_exn) : proc S A :=
  fun s => Raises s e.

Definition and_then {S A B : Type} (p : proc S A) (k : A -> proc S B)
  : proc S B :=
  fun s =>
    match p s with
    | Returns s' a => k a s'
    | Raises s' e => Raises s' e
    end.

Notation "x <~ p ;; k" := (and_then p (fun x => k))
  (at level 61, p at next level, right associativity).

Notation "p ;;; k" := (and_then p (fun _ => k))
  (at level 61, right associativity).

(** A computation that does not touch the state. *)
Definition eval {S A : Type} (r : result A) : proc S A :=
  fun s =>
    match r with
    | Ok a => Returns s a
    | Raise e => Raises s (Builtin e)
    end.

(** [for] loop of a procedure, with the local variable [b]. *)
Fixpoint for_proc {S A B : Type} (body : B -> A -> proc S B) (l : list A)
    (b : B) : proc S B :=
  match l with
  | [] => ret b
  | a :: l' => b' <~ body b a ;; for_proc body l' b'
  end.

(** [del l[i]]. *)
Definition py_delitem {A : Type} (l : list A) (i : Z) : result (list A) :=
  let n := Z.of_nat (length l) in
  let j := (if i <? 0 then i + n else i)%Z in
  if ((j <? 0) || (n <=? j))%Z then Raise IndexError
  else Ok (firstn (Z.to_nat j) l ++ skipn (S (Z.to_nat j)) l).

(** [record[i]], [record[i] = v] and [del record[i]] on the record the
    procedure works on. *)
Definition getitem {A : Type} (i : Z) : proc (list A) A :=
  fun record => eval (py_index record i) record.

Definition setitem {A : Type} (i : Z) (v : A) : proc (list A) unit :=
  fun record =>
    match py_setitem record i v with
    | Ok record' => Returns record' tt
    | Raise e => Raises record (Builtin e)
    end.

Definition delitem {A : Type} (i : Z) : proc (list A) unit :=
  fun record =>
    match py_delitem record i with
    | Ok record' => Returns record' tt
    | Raise e => Raises record (Builtin e)
    end.

(** [range(start, stop, -1)]. *)
Definition range_down (start stop : Z) : list Z :=
  map (fun k => (start - Z.of_nat k)%Z) (seq 0 (Z.to_nat (start - stop))).

(** [s.split(sep)] for a separator of one character. *)
Fixpoint split_char (sep : ascii) (s : string) : list string :=
  match s with
  | EmptyString => [EmptyString]
  | String c s' =>
      if Ascii.eqb c sep then EmptyString :: split_char sep s'
      else match split_char sep s' with
           | piece :: pieces => String c piece :: pieces
           | [] => [String c EmptyString]
           end
  end.

(** [s.find(c)] for one character: [-1] when it does not occur. *)
Fixpoint str_find (c : ascii) (s : string) : Z :=
  match s with
  | EmptyString => (-1)%Z
  | String d s' =>
      if Ascii.eqb d c then 0%Z
      else let i := str_find c s' in
           if (i <? 0)%Z then (-1)%Z else (i + 1)%Z
  end.

(** [s[lo:]]. *)
Definition str_slice_from (s : string) (lo : Z) : string :=
  str_slice s lo (Z.of_nat (String.length s)).

(** [x.split(sep)] on a cell: only a string has the method. *)
Definition py_split {S : Type} (v : pyval) (sep : ascii)
  : proc S (list string) :=
  match v with
  | PStr s => ret (split_char sep s)
  | _ => raise AttributeError
  end.

Section Formatters.

Context {L : Layout}.

(** [float(s)] and [int(s)] on a string: [None] stands for [ValueError]. *)
Variable float_of_string : string -> option R.
Variable int_of_string : string -> option Z.

(** [int(v)]: a float is cut towards zero. *)
Definition py_int (v : pyval) : result Z :=
  match v with
  | PInt z => Ok z
  | PFloat x => Ok (if Rle_dec 0 x then Zfloor x else Zceil x)
  | PStr s =>
      match int_of_string s with
      | Some z => Ok z
      | None => Raise ValueError
      end
  | PList _ => Raise TypeError
  end.

Definition format_location : proc (list pyval) unit :=
  lat <~ getitem LAT_INDEX ;;
  lat <~ eval (py_float float_of_string lat) ;;
  setitem LAT_INDEX (PFloat lat) ;;;
  lon <~ getitem LON_INDEX ;;
  lon <~ eval (py_float float_of_string lon) ;;
  setitem LON_INDEX (PFloat lon).

(** The loop of [format_spans] over the pieces of the span summary. *)
Definition spans_of (r : list string) : result (list R) :=
  for_each
    (fun spans_list char =>
       let index := str_find "=" char in
       let new := str_slice_from char (index + 1) in
       new <- py_float float_of_string (PStr new) ;;
       Ok (spans_list ++ [new]))
    r [].

Definition format_spans : proc (list pyval) unit :=
  num_spans <~ getitem NUM_SPANS_INDEX ;;
  num_spans <~ eval (py_int num_spans) ;;
  setitem NUM_SPANS_INDEX (PInt num_spans) ;;;
  details <~ getitem SPAN_DETAILS_INDEX ;;
  s <~ py_split details " " ;;
  s <~ eval (py_delitem s 0) ;;
  s <~ eval (py_delitem s 0) ;;
  r <~ ret (split_char ";" (String.concat EmptyString s)) ;;
  r <~ eval (py_delitem r (-1)) ;;
  spans_list <~ eval (spans_of r) ;;
  setitem SPAN_DETAILS_INDEX (PList (map PFloat spans_list)).

(** The body of the loop of [format_bcis]. *)
Definition bcis_step (bcis_list : list R) (i : Z)
  : proc (list pyval) (list R) :=
  cell <~ getitem i ;;
  bcis_list <~
    (if negb (py_eqb cell (PStr EmptyString))
     then x <~ eval (py_float float_of_string cell) ;;
          ret (bcis_list ++ [x])
     else ret bcis_list) ;;
  delitem i ;;;
  ret bcis_list.

Definition format_bcis : proc (list pyval) unit :=
  fun bridge_record =>
    (bcis_list <~
       for_proc bcis_step
         (range_down (Z.of_nat (length bridge_record) - 1) BCIS_INDEX)
         [] ;;
     setitem BCIS_INDEX (PList (map PFloat (rev bcis_list))))
      bridge_record.

(** A procedure on the record [data[i]]: the record is changed in place,
    so the collection holds what the procedure leaves of it, also when it
    raises.  The rows of the collection are distinct list objects, as
    [read_data] returns them. *)
Definition on_row {A : Type} (i : Z) (p : proc (list pyval) A)
  : proc (list (list pyval)) A :=
  fun data =>
    match py_index data i with
    | Ok record =>
        match p record, py_setitem data i with
        | Returns record' a, put =>
            match put record' with
            | Ok data' => Returns data' a
            | Raise e => Raises data (Builtin e)
            end
        | Raises record' e, put =>
            match put record' with
            | Ok data' => Raises data' e
            | Raise _ => Raises data e
            end
        end
    | Raise e => Raises data (Builtin e)
    end.

(** The body of the loop of [format_data] on the record at position [i]. *)
Definition format_row (i : Z) : proc (list pyval) unit :=
  setitem ID_INDEX (PInt (i + 1)) ;;;
  format_location ;;;
  format_spans ;;;
  (fun bridge_record =>
     match format_length LENGTH_INDEX float_of_string bridge_record with
     | Ok bridge_record' => Returns bridge_record' tt
     | Raise e => Raises bridge_record (Builtin e)
     end) ;;;
  format_bcis.

Definition format_data : proc (list (list pyval)) unit :=
  fun data =>
    for_proc (fun _ i => on_row i (format_row i))
      (range (Z.of_nat (length data))) tt data.

End Formatters.

(** A reader of plain whole numerals with an optional sign: one function
    that [int_of_string] can be. *)
Definition whole_of_string (s : string) : option Z :=
  let unsigned (s : string) :=
    match read_digits s 0 0 with
    | Some (whole, S _, EmptyString) => Some whole
    | _ => None
    end in
  match s with
  | String "-" s' => option_map Z.opp (unsigned s')
  | String "+" s' => unsigned s'
  | _ => unsigned s
  end.

(** The uncleaned rows of the docstrings. *)
Definition THREE_BRIDGES_UNCLEANED : list (list pyval) :=
  [ map PStr
      ["1 -  32/"; "Highway 24 Underpass at Highway 403"; "403";
       "43.167233"; "-80.275567"; "1965"; "2014"; "2009"; "4";
       "Total=64  (1)=12;(2)=19;(3)=21;(4)=12;"; "65"; "04/13/2012";
       "72.3"; EmptyString; "72.3"; EmptyString; "69.5"; EmptyString; "70";
       EmptyString; "70.3"; EmptyString; "70.5"; EmptyString; "70.7";
       "72.9"; EmptyString]%string;
    map PStr
      ["1 -  43/"; "WEST STREET UNDERPASS"; "403"; "43.164531";
       "-80.251582"; "1963"; "2014"; "2007"; "4";
       "Total=60.4  (1)=12.2;(2)=18;(3)=18;(4)=12.2;"; "61"; "04/13/2012";
       "71.5"; EmptyString; "71.5"; EmptyString; "68.1"; EmptyString; "69";
       EmptyString; "69.4"; EmptyString; "69.4"; EmptyString; "70.3";
       "73.3"; EmptyString]%string;
    map PStr
      ["2 -   4/"; "STOKES RIVER BRIDGE"; "6"; "45.036739"; "-81.33579";
       "1958"; "2013"; EmptyString; "1"; "Total=16  (1)=16;"; "18.4";
       "08/28/2013"; "85.1"; "85.1"; EmptyString; "67.8"; EmptyString;
       "67.4"; EmptyString; "69.2"; "70"; "70.5"; EmptyString; "75.1";
       EmptyString; "90.1"; EmptyString]%string ].

(** ** Query engine: the other queries *)

(** The record list of a bridge, cell by cell. *)
Definition cells (b : bridge) : list pyval :=
  [PInt (ID b); PStr (NAME b); PStr (HIGHWAY b); PFloat (LAT b);
   PFloat (LON b); PStr (YEAR b); PStr (LAST_MAJOR b); PStr (LAST_MINOR b);
   PInt (NUM_SPANS b); PList (map PFloat (SPAN_DETAILS b));
   PFloat (LENGTH b); PStr (LAST_INSPECTED b);
   PList (map PFloat (BCIS b))].

Definition get_bridge (bridge_data : list bridge) (bridge_id : Z)
  : list pyval :=
  fold_left
    (fun data bridge =>
       if (ID bridge =? bridge_id)%Z then data ++ cells bridge else data)
    bridge_data [].

Definition get_total_length_on_hwy (bridge_data : list bridge)
    (highway : string) : R :=
  fold_left
    (fun total_length bridge =>
       if String.eqb (HIGHWAY bridge) highway
       then total_length + LENGTH bridge
       else total_length)
    bridge_data 0.0.

Definition get_bridges_with_bci_below (bridge_data : list bridge)
    (id_list : list Z) (bci : R) : result (list Z) :=
  for_each
    (fun bridge_list bridge =>
       if py_in (ID bridge) id_list
       then
         first <- py_index (BCIS bridge) 0 ;;
         if Rleb first bci
         then Ok (bridge_list ++ [ID bridge])
         else Ok bridge_list
       else Ok bridge_list)
    bridge_data [].

(** [sub in s] for two strings. *)
Fixpoint str_in (sub s : string) : bool :=
  if prefix sub s then true
  else match s with
       | EmptyString => false
       | String _ s' => str_in sub s'
       end.

Section Containing.

(** [str.lower]. *)
Variable lower : string -> string.

Definition get_bridges_containing (bridge_data : list bridge)
    (search : string) : list Z :=
  fold_left
    (fun bridges_list bridge =>
       if str_in (lower search) (lower (NAME bridge))
       then bridges_list ++ [ID bridge]
       else bridges_list)
    bridge_data [].

End Containing.

(** [str.lower] on the letters A to Z: one function that [lower] can be on
    strings of ASCII characters. *)
Definition ascii_lower (c : ascii) : ascii :=
  let n := nat_of_ascii c in
  if ((65 <=? n) && (n <=? 90))%nat then ascii_of_nat (n + 32) else c.

Fixpoint lower_ascii (s : string) : string :=
  match s with
  | EmptyString => EmptyString
  | String c s' => String (ascii_lower c) (lower_ascii s')
  end.

(** ** Vocabulary of the statements *)

(** The effect of [add_rehab] on one record. *)
Definition with_rehab {H : Type} (bridge_id : Z) (year : string)
    (rehab : bool) (b : bridge_of H) : bridge_of H :=
  if (ID b =? bridge_id)%Z
  then if rehab then set_LAST_MAJOR b year else set_LAST_MINOR b year
  else b.

(** The effect of [inspect_bridges] on the record list of a bridge. *)
Definition with_inspection_date {H : Type} (bridge_ids : list Z)
    (date : string) (b : bridge_of H) : bridge_of H :=
  if py_in (ID b) bridge_ids then set_LAST_INSPECTED b date else b.

(** The positions of the collection whose record is inspected and keeps its
    history in the list object [k]. *)
Definition hits (h : store) (bridge_data : list loc) (bridge_ids : list Z)
    (k : loc) : nat :=
  length
    (filter (fun l => match rows h l with
                      | Some r => py_in (ID r) bridge_ids
                                  && Nat.eqb (BCIS r) k
                      | None => false
                      end)
            bridge_data).

(** No two positions of the collection share the list object of their
    history. *)
Definition histories_separate (h : store) (bridge_data : list loc) : Prop :=
  forall l1 l2 r1 r2,
    In l1 bridge_data -> In l2 bridge_data ->
    rows h l1 = Some r1 -> rows h l2 = Some r2 ->
    BCIS r1 = BCIS r2 -> l1 = l2.

(** [b'] is [b] but for the inspection date and the BCI history. *)
Definition same_but_inspection (b b' : bridge) : Prop :=
  ID b' = ID b /\ NAME b' = NAME b /\ HIGHWAY b' = HIGHWAY b
  /\ LAT b' = LAT b /\ LON b' = LON b /\ YEAR b' = YEAR b
  /\ LAST_MAJOR b' = LAST_MAJOR b /\ LAST_MINOR b' = LAST_MINOR b
  /\ NUM_SPANS b' = NUM_SPANS b /\ SPAN_DETAILS b' = SPAN_DETAILS b
  /\ LENGTH b' = LENGTH b.

(** [b'] is [b] but for the year of the last major rehab. *)
Definition same_but_major (b b' : bridge) : Prop :=
  ID b' = ID b /\ NAME b' = NAME b /\ HIGHWAY b' = HIGHWAY b
  /\ LAT b' = LAT b /\ LON b' = LON b /\ YEAR b' = YEAR b
  /\ LAST_MINOR b' = LAST_MINOR b
  /\ NUM_SPANS b' = NUM_SPANS b /\ SPAN_DETAILS b' = SPAN_DETAILS b
  /\ LENGTH b' = LENGTH b /\ LAST_INSPECTED b' = LAST_INSPECTED b
  /\ BCIS b' = BCIS b.

(** [b'] is [b] but for the year of the last minor rehab. *)
Definition same_but_minor (b b' : bridge) : Prop :=
  ID b' = ID b /\ NAME b' = NAME b /\ HIGHWAY b' = HIGHWAY b
  /\ LAT b' = LAT b /\ LON b' = LON b /\ YEAR b' = YEAR b
  /\ LAST_MAJOR b' = LAST_MAJOR b
  /\ NUM_SPANS b' = NUM_SPANS b /\ SPAN_DETAILS b' = SPAN_DETAILS b
  /\ LENGTH b' = LENGTH b /\ LAST_INSPECTED b' = LAST_INSPECTED b
  /\ BCIS b' = BCIS b.

(** The reference collection in the store: the record lists at 0, 1, 2,
    their histories at 10, 11, 12. *)
Definition reference_store : store :=
  {| rows := fun l =>
       match l with
       | 0%nat => Some (with_BCIS bridge_1 10%nat)
       | 1%nat => Some (with_BCIS bridge_2 11%nat)
       | 2%nat => Some (with_BCIS bridge_3 12%nat)
       | _ => None
       end;
     lists := fun l =>
       if Nat.eqb l 10 then Some (BCIS bridge_1)
       else if Nat.eqb l 11 then Some (BCIS bridge_2)
       else if Nat.eqb l 12 then Some (BCIS bridge_3)
       else None |}.

Definition reference_collection : list loc := [0; 1; 2]%nat.



Section Vocabulary.

Context {K : Constants}.

(** The current BCI of a bridge, [bci_history[0]]. *)
Definition current_bci (b : bridge) : option R := hd_error (BCIS b).

(** The bridge lies within [radius] of the inspector. *)
Definition within (b : bridge) (inspector : R * R) (radius : R) : bool :=
  Rleb (calculate_distance (LAT b) (LON b) (fst inspector) (snd inspector))
       radius.

(** The bridge is in none of the assignments of the earlier inspectors. *)
Definition unassigned (earlier : list (list Z)) (b : bridge) : bool :=
  negb (existsb (py_in (ID b)) earlier).

Definition bci_satisfies (p : R -> bool) (b : bridge) : bool :=
  match current_bci b with
  | Some bci => p bci
  | None => false
  end.

Definition high_priority (earlier : list (list Z)) (inspector : R * R)
    (b : bridge) : bool :=
  unassigned earlier b
  && within b inspector HIGH_PRIORITY_RADIUS
  && bci_satisfies (fun bci => Rleb bci HIGH_PRIORITY_BCI) b.

Definition medium_priority (earlier : list (list Z)) (inspector : R * R)
    (b : bridge) : bool :=
  unassigned earlier b
  && within b inspector MEDIUM_PRIORITY_RADIUS
  && bci_satisfies (fun bci => Rltb HIGH_PRIORITY_BCI bci
                               && Rleb bci MEDIUM_PRIORITY_BCI) b.

Definition low_priority (earlier : list (list Z)) (inspector : R * R)
    (b : bridge) : bool :=
  unassigned earlier b
  && within b inspector LOW_PRIORITY_RADIUS
  && bci_satisfies (fun bci => Rltb MEDIUM_PRIORITY_BCI bci) b.

(** The candidates of an inspector: the three tiers, each in collection
    order, high then medium then low. *)
Definition tiers (bridge_data : list bridge) (earlier : list (list Z))
    (inspector : R * R) : list bridge :=
  filter (high_priority earlier inspector) bridge_data
  ++ filter (medium_priority earlier inspector) bridge_data
  ++ filter (low_priority earlier inspector) bridge_data.

End Vocabulary.

(** The shape shared by the conditions of the three comprehensions. *)
Definition tier_cond (st : assign_state) (in_radius : list Z)
    (p : R -> bool) (b : bridge) : result bool :=
  if py_in (ID b) (bridge_ids st)
     && negb (py_in_lists (ID b) (inspector_assignments st))
     && py_in (ID b) in_radius
  then bci <- py_index (BCIS b) 0 ;; Ok (p bci)
  else Ok false.

(** The candidates of [get_closest_bridge]: the records before the last one
    whose id is not [bridge_id]. *)
Definition closest_candidates (bridge_data : list bridge) (bridge_id : Z)
  : list bridge :=
  filter (fun b => negb (ID b =? bridge_id)%Z) (removelast bridge_data).

(** No two lists of [ll] share an element. *)
Definition pairwise_disjoint (ll : list (list Z)) : Prop :=
  forall i j li lj x,
    (i < j)%nat -> nth_error ll i = Some li -> nth_error ll j = Some lj ->
    In x li -> ~ In x lj.

(** What the loop keeps for the exclusivity: no assigned id is left in the
    pool, and the assignments made so far share no id. *)
Definition exclusive (st : assign_state) : Prop :=
  (forall l x, In l (inspector_assignments st) -> In x l ->
               ~ In x (bridge_ids st))
  /\ pairwise_disjoint (inspector_assignments st).

(** The inspectors of the docstring example of [assign_inspectors]. *)
Definition inspector_1 : R * R := (43.20, -80.35).
Definition inspector_2 : R * R := (45.0368, -81.34).

(** The pool of the loop state holds the ids still unassigned. *)
Definition pool_tracks (bridge_data : list bridge) (st : assign_state)
  : Prop :=
  forall b, In b bridge_data ->
    py_in (ID b) (bridge_ids st) = unassigned (inspector_assignments st) b.

(** ** Vocabulary of the normalizer *)

(** The cell at position [i] of a record, for [0 <= i]. *)
Definition cell_at {A : Type} (record : list A) (i : Z) : option A :=
  nth_error record (Z.to_nat i).

(** The record with the cell at position [i] replaced by [v]. *)
Definition with_cell {A : Type} (record : list A) (i : Z) (v : A) : list A :=
  firstn (Z.to_nat i) record ++ v :: skipn (S (Z.to_nat i)) record.

Fixpoint has_char (c : ascii) (s : string) : bool :=
  match s with
  | EmptyString => false
  | String d s' => Ascii.eqb d c || has_char c s'
  end.

Fixpoint remove_char (c : ascii) (s : string) : string :=
  match s with
  | EmptyString => EmptyString
  | String d s' =>
      if Ascii.eqb d c then remove_char c s' else String d (remove_char c s')
  end.

(** The pieces written one after the other, each closed by [c], and then
    [tail]. *)
Definition closed_by (c : ascii) (pieces : list string) (tail : string)
  : string :=
  fold_right (fun p rest => (p ++ String c rest)%string) tail pieces.

(** The piece [key=value] of a span summary. *)
Definition span_piece (kv : string * string) : string :=
  (fst kv ++ String "=" (snd kv))%string.

(** The cells that are not the empty string. *)
Definition recorded (cells : list pyval) : list pyval :=
  filter (fun c => negb (py_eqb c (PStr EmptyString))) cells.

Definition is_str (v : pyval) : bool :=
  match v with
  | PStr _ => true
  | _ => false
  end.

(** The rows formatted one after the other, each by [format_row] with its
    own position, from position [i] on. *)
Inductive rows_formatted {L : Layout} (float_of_string : string -> option R)
    (int_of_string : string -> option Z)
  : Z -> list (list pyval) -> list (list pyval) -> Prop :=
| no_row (i : Z) : rows_formatted float_of_string int_of_string i [] []
| next_row (i : Z) (r r' : list pyval) (rows rows' : list (list pyval)) :
    format_row float_of_string int_of_string i r = Returns r' tt ->
    rows_formatted float_of_string int_of_string (i + 1) rows rows' ->
    rows_formatted float_of_string int_of_string i (r :: rows) (r' :: rows').

(** * Properties *)

(** ** Results *)

Lemma bind_Ok_inv {A B : Type} (r : result A) (k : A -> result B) (b : B) :
  bind r k = Ok b -> exists a, r = Ok a /\ k a = Ok b.
Proof.
  destruct r as [a|e]; simpl; intros H; [eauto | discriminate].
Qed.

(** ** Comparisons and rounding *)

Lemma Rleb_true (x y : R) : Rleb x y = true <-> x <= y.
Proof. unfold Rleb; destruct (Rle_dec x y); split; auto; discriminate. Qed.

Lemma Rleb_false (x y : R) : Rleb x y = false <-> y < x.
Proof.
  unfold Rleb; destruct (Rle_dec x y); split; intros; try discriminate;
    try lra; auto.
Qed.

Lemma Rltb_true (x y : R) : Rltb x y = true <-> x < y.
Proof. unfold Rltb; destruct (Rlt_dec x y); split; auto; discriminate. Qed.

Lemma Rltb_false (x y : R) : Rltb x y = false <-> y <= x.
Proof.
  unfold Rltb; destruct (Rlt_dec x y); split; intros; try discriminate;
    try lra; auto.
Qed.

Lemma round_half_even_bounds (y : R) :
  (Zfloor y <= round_half_even y <= Zfloor y + 1)%Z.
Proof.
  unfold round_half_even.
  destruct (Rlt_dec _ _); [lia|].
  destruct (Rlt_dec _ _); [lia|].
  destruct (Z.even _); lia.
Qed.

Lemma round_half_even_IZR (z : Z) : round_half_even (IZR z) = z.
Proof.
  unfold round_half_even. rewrite ZfloorZ.
  destruct (Rlt_dec _ _) as [|n]; [reflexivity | exfalso; apply n; lra].
Qed.

(** An integer below [y] stays below the rounding of [y]. *)
Lemma round_half_even_ge (z : Z) (y : R) :
  IZR z <= y -> (z <= round_half_even y)%Z.
Proof.
  intros H. apply Zfloor_lub in H.
  pose proof (round_half_even_bounds y). lia.
Qed.

(** An integer above [y] stays above the rounding of [y]. *)
Lemma round_half_even_le (z : Z) (y : R) :
  y <= IZR z -> (round_half_even y <= z)%Z.
Proof.
  intros H.
  destruct (Zfloor_bound y) as [Hlo Hhi].
  assert (Hz : (Zfloor y <= z)%Z).
  { apply le_IZR. lra. }
  destruct (Z.eq_dec (Zfloor y) z) as [E|N].
  - assert (Hy : y = IZR z) by (rewrite <- E in H |- *; lra).
    rewrite Hy, round_half_even_IZR. lia.
  - pose proof (round_half_even_bounds y). lia.
Qed.

Lemma pow10_pos (n : nat) : 0 < 10 ^ n.
Proof. apply pow_lt. lra. Qed.

Lemma round_0 (n : nat) : round 0 n = 0.
Proof.
  unfold round. rewrite Rmult_0_l.
  change 0 with (IZR 0) at 1. rewrite round_half_even_IZR.
  unfold Rdiv. apply Rmult_0_l.
Qed.

Lemma round_nonneg (x : R) (n : nat) : 0 <= x -> 0 <= round x n.
Proof.
  intros Hx. unfold round.
  pose proof (pow10_pos n) as Hp.
  apply Rmult_le_pos.
  - apply IZR_le. apply round_half_even_ge. simpl.
    apply Rmult_le_pos; lra.
  - apply Rlt_le, Rinv_0_lt_compat, Hp.
Qed.

(** Rounding to [n] digits never crosses a number that has [n] digits. *)
Lemma round_le (x : R) (n : nat) (z : Z) :
  x <= IZR z / 10 ^ n -> round x n <= IZR z / 10 ^ n.
Proof.
  intros H. unfold round.
  pose proof (pow10_pos n) as Hp.
  apply Rmult_le_compat_r; [apply Rlt_le, Rinv_0_lt_compat, Hp|].
  apply IZR_le, round_half_even_le.
  apply (Rmult_le_compat_r (10 ^ n)) in H; [|lra].
  unfold Rdiv in H. rewrite Rmult_assoc, Rinv_l, Rmult_1_r in H; lra.
Qed.

Lemma round_ge (x : R) (n : nat) (z : Z) :
  IZR z / 10 ^ n <= x -> IZR z / 10 ^ n <= round x n.
Proof.
  intros H. unfold round.
  pose proof (pow10_pos n) as Hp.
  apply Rmult_le_compat_r; [apply Rlt_le, Rinv_0_lt_compat, Hp|].
  apply IZR_le, round_half_even_ge.
  apply (Rmult_le_compat_r (10 ^ n)) in H; [|lra].
  unfold Rdiv in H. rewrite Rmult_assoc, Rinv_l, Rmult_1_r in H; lra.
Qed.

(** ** Geospatial distance *)

Lemma asin_nonneg (x : R) : 0 <= x -> 0 <= asin x.
Proof.
  intros Hx.
  destruct (Rle_dec 1 x) as [H1|H1].
  - unfold asin. destruct (Rle_dec x (-1)); [lra|].
    destruct (Rle_dec 1 x); [|lra].
    pose proof PI_RGT_0. lra.
  - destruct (Rle_dec 0 (asin x)) as [|Hn]; [assumption|exfalso].
    assert (Hs : sin (asin x) = x) by (apply sin_asin; lra).
    pose proof (asin_bound x) as [Hlo _].
    pose proof PI_RGT_0 as Hpi.
    assert (Hneg : sin (asin x) < 0).
    { apply sin_lt_0_var; lra. }
    lra.
Qed.

Lemma asin_le (x y : R) : -1 <= x -> x <= y -> y <= 1 -> asin x <= asin y.
Proof.
  intros Hx Hxy Hy.
  destruct (Rle_dec (asin x) (asin y)) as [|Hn]; [assumption|exfalso].
  pose proof (asin_bound x) as [_ Hxb].
  pose proof (asin_bound y) as [Hyb _].
  assert (Hlt : sin (asin y) < sin (asin x)).
  { apply sin_increasing_1; lra. }
  rewrite !sin_asin in Hlt; lra.
Qed.

Lemma haversine_sym (lat1 lon1 lat2 lon2 : R) :
  haversine lat1 lon1 lat2 lon2 = haversine lat2 lon2 lat1 lon1.
Proof.
  unfold haversine.
  replace ((lat1 - lat2) / 2) with (- ((lat2 - lat1) / 2)) by lra.
  replace ((lon1 - lon2) / 2) with (- ((lon2 - lon1) / 2)) by lra.
  rewrite !sin_neg. ring.
Qed.

Lemma haversine_self (lat lon : R) : haversine lat lon lat lon = 0.
Proof.
  unfold haversine.
  replace ((lat - lat) / 2) with 0 by lra.
  replace ((lon - lon) / 2) with 0 by lra.
  rewrite sin_0. ring.
Qed.

(** The argument of [sqrt] is never negative and the argument of [asin]
    never above [1]: neither [math.sqrt] nor [math.asin] can raise. *)
Lemma haversine_range (lat1 lon1 lat2 lon2 : R) :
  0 <= haversine lat1 lon1 lat2 lon2 <= 1.
Proof.
  unfold haversine.
  set (a := (lat2 - lat1) / 2). set (m := (lat2 + lat1) / 2).
  set (b := (lon2 - lon1) / 2).
  replace lat1 with (m - a) by (unfold m, a; lra).
  replace lat2 with (m + a) by (unfold m, a; lra).
  rewrite cos_minus, cos_plus.
  pose proof (sin2_cos2 a) as Ha. pose proof (sin2_cos2 m) as Hm.
  pose proof (sin2_cos2 b) as Hb.
  unfold Rsqr in *.
  set (sa := sin a) in *. set (ca := cos a) in *.
  set (sm := sin m) in *. set (cm := cos m) in *.
  set (sb := sin b) in *. set (cb := cos b) in *.
  assert (E : (cm * ca + sm * sa) * (cm * ca - sm * sa)
              = ca * ca - sm * sm) by nra.
  simpl. rewrite !Rmult_1_r. rewrite E.
  split; nra.
Qed.

Lemma sqrt_haversine_range (lat1 lon1 lat2 lon2 : R) :
  0 <= sqrt (haversine lat1 lon1 lat2 lon2) <= 1.
Proof.
  destruct (haversine_range lat1 lon1 lat2 lon2) as [H0 H1].
  split; [apply sqrt_pos|].
  rewrite <- sqrt_1. apply sqrt_le_1; lra.
Qed.

Lemma PI_bounds : 3 < PI <= 4.
Proof. pose proof PI2_3_2. pose proof PI_4. lra. Qed.

Lemma PI_sq_le : PI ^ 2 <= 16.
Proof. pose proof PI_bounds. nra. Qed.

Lemma sin_lower (t : R) : 0 <= t -> t <= 1 -> t - t ^ 3 / 6 <= sin t.
Proof.
  intros H0 H1.
  pose proof PI2_1 as Hpi.
  destruct (SIN t H0 ltac:(lra)) as [Hlb _].
  unfold sin_lb, sin_approx, sin_term in Hlb.
  cbn [sum_f_R0 Nat.mul Nat.add] in Hlb.
  rewrite !INR_IZR_INZ in Hlb.
  change (Z.of_nat (fact 1)) with 1%Z in Hlb.
  change (Z.of_nat (fact 3)) with 6%Z in Hlb.
  change (Z.of_nat (fact 5)) with 120%Z in Hlb.
  change (Z.of_nat (fact 7)) with 5040%Z in Hlb.
  assert (Hlb' : t - t ^ 3 / 6 + t ^ 5 / 120 - t ^ 7 / 5040 <= sin t).
  { eapply Rle_trans; [|exact Hlb]. apply Req_le. field. }
  assert (Ht5 : 0 <= t ^ 5) by (apply pow_le; lra).
  assert (Ht7 : t ^ 7 <= t ^ 5).
  { replace (t ^ 7) with (t ^ 5 * (t * t)) by ring.
    assert (Htt : t * t <= 1) by nra.
    rewrite <- (Rmult_1_r (t ^ 5)) at 2.
    apply Rmult_le_compat_l; assumption. }
  lra.
Qed.

Lemma sin_sq_le (x : R) : sin x ^ 2 <= x ^ 2.
Proof.
  assert (G : forall y, 0 <= y -> sin y ^ 2 <= y ^ 2).
  { intros y Hy. destruct (Rle_lt_dec y 1) as [H1|H1].
    - destruct Hy as [Hy|<-].
      + pose proof (sin_lt_x y Hy). pose proof PI_RGT_0. pose proof PI2_1.
        assert (0 <= sin y) by (apply sin_ge_0; lra). nra.
      + rewrite sin_0. lra.
    - pose proof (SIN_bound y). nra. }
  destruct (Rle_lt_dec 0 x) as [H|H]; [now apply G|].
  replace (sin x ^ 2) with (sin (- x) ^ 2) by (rewrite sin_neg; ring).
  replace (x ^ 2) with ((- x) ^ 2) by ring.
  apply G. lra.
Qed.

Lemma radians_bound (x : R) :
  -90 <= x <= 90 -> - (PI / 2) <= radians x <= PI / 2.
Proof.
  intros [Hlo Hhi]. unfold radians. pose proof PI_RGT_0 as Hpi.
  assert (x * PI <= 90 * PI) by (apply Rmult_le_compat_r; lra).
  assert (-90 * PI <= x * PI) by (apply Rmult_le_compat_r; lra).
  lra.
Qed.

Section DistanceFacts.

Context {K : Constants}.

Lemma calculate_distance_sym (lat1 lon1 lat2 lon2 : R) :
  calculate_distance lat1 lon1 lat2 lon2
  = calculate_distance lat2 lon2 lat1 lon1.
Proof.
  unfold calculate_distance.
  rewrite (haversine_sym (radians lat1)). reflexivity.
Qed.

Lemma calculate_distance_self (lat lon : R) :
  calculate_distance lat lon lat lon = 0.
Proof.
  unfold calculate_distance.
  rewrite haversine_self, sqrt_0, asin_0, Rmult_0_r. apply round_0.
Qed.

Lemma calculate_distance_nonneg (lat1 lon1 lat2 lon2 : R) :
  0 <= EARTH_RADIUS -> 0 <= calculate_distance lat1 lon1 lat2 lon2.
Proof.
  intros HR. unfold calculate_distance. apply round_nonneg.
  apply Rmult_le_pos; [lra|].
  apply asin_nonneg, sqrt_pos.
Qed.

Lemma calculate_distance_le (lat1 lon1 lat2 lon2 s t : R) (z : Z) :
  ((radians lat2 - radians lat1) / 2) ^ 2
  + ((radians lon2 - radians lon1) / 2) ^ 2 <= s ^ 2 ->
  0 <= s -> s <= t - t ^ 3 / 6 -> 0 <= t -> t <= 1 ->
  0 <= EARTH_RADIUS -> 2 * EARTH_RADIUS * t <= IZR z / 10 ^ 3 ->
  calculate_distance lat1 lon1 lat2 lon2 <= IZR z / 10 ^ 3.
Proof.
  intros Hs Hs0 Hst Ht0 Ht1 HR Hz.
  unfold calculate_distance. apply round_le.
  eapply Rle_trans; [|exact Hz].
  apply Rmult_le_compat_l; [lra|].
  pose proof PI2_1 as Hpi.
  pose proof (sin_lower t Ht0 Ht1) as Hsin.
  pose proof (SIN_bound t) as [_ Hsin1].
  rewrite <- (asin_sin t) by lra.
  pose proof (sqrt_haversine_range (radians lat1) (radians lon1)
                (radians lat2) (radians lon2)) as [Hq0 Hq1].
  apply asin_le; [lra| |lra].
  apply Rle_trans with s; [|lra].
  rewrite <- (sqrt_pow2 s Hs0). apply sqrt_le_1_alt.
  eapply Rle_trans; [|exact Hs].
  unfold haversine.
  pose proof (sin_sq_le ((radians lat2 - radians lat1) / 2)).
  pose proof (sin_sq_le ((radians lon2 - radians lon1) / 2)).
  pose proof (COS_bound (radians lat1)). pose proof (COS_bound (radians lat2)).
  assert (0 <= sin ((radians lon2 - radians lon1) / 2) ^ 2)
    by (apply pow2_ge_0).
  assert (cos (radians lat1) * cos (radians lat2) <= 1) by nra.
  nra.
Qed.

Lemma calculate_distance_ge (lat1 lon1 lat2 lon2 : R) (z : Z) :
  -90 <= lat1 <= 90 -> -90 <= lat2 <= 90 ->
  0 <= EARTH_RADIUS ->
  IZR z / 10 ^ 3 <= EARTH_RADIUS * Rabs (radians lat2 - radians lat1) ->
  IZR z / 10 ^ 3 <= calculate_distance lat1 lon1 lat2 lon2.
Proof.
  intros H1 H2 HR Hz.
  unfold calculate_distance. apply round_ge.
  eapply Rle_trans; [exact Hz|].
  set (a := (radians lat2 - radians lat1) / 2).
  replace (radians lat2 - radians lat1) with (2 * a) by (unfold a; lra).
  rewrite Rabs_mult, (Rabs_pos_eq 2) by lra.
  replace (EARTH_RADIUS * (2 * Rabs a)) with (2 * EARTH_RADIUS * Rabs a)
    by ring.
  apply Rmult_le_compat_l; [lra|].
  pose proof PI_RGT_0 as Hpi.
  assert (Ha : Rabs a <= PI / 2).
  { pose proof (radians_bound lat1 H1). pose proof (radians_bound lat2 H2).
    unfold a. apply Rabs_le. lra. }
  pose proof (Rabs_pos a) as Ha0.
  rewrite <- (asin_sin (Rabs a)) by lra.
  pose proof (sqrt_haversine_range (radians lat1) (radians lon1)
                (radians lat2) (radians lon2)) as [Hq0 Hq1].
  assert (Hs0 : 0 <= sin (Rabs a)) by (apply sin_ge_0; lra).
  apply asin_le; [lra| |lra].
  rewrite <- (sqrt_pow2 (sin (Rabs a)) Hs0). apply sqrt_le_1_alt.
  unfold haversine. fold a.
  assert (E : sin (Rabs a) ^ 2 = sin a ^ 2).
  { unfold Rabs.
    destruct (Rcase_abs a); [rewrite sin_neg; ring | reflexivity]. }
  rewrite E.
  assert (0 <= cos (radians lat1)).
  { apply cos_ge_0; apply radians_bound; assumption. }
  assert (0 <= cos (radians lat2)).
  { apply cos_ge_0; apply radians_bound; assumption. }
  assert (0 <= sin ((radians lon2 - radians lon1) / 2) ^ 2)
    by (apply pow2_ge_0).
  assert (0 <= cos (radians lat1) * cos (radians lat2)) by nra.
  nra.
Qed.

End DistanceFacts.

(** C9: [calculate_distance] is symmetric in its two points, and the
    distance from a point to itself is [0], whatever the Earth radius
    constant is. *)
Theorem C9_distance_symmetric_and_zero_on_diagonal :
  forall (K : Constants) (lat1 lon1 lat2 lon2 : R),
    calculate_distance lat1 lon1 lat2 lon2
    = calculate_distance lat2 lon2 lat1 lon1
    /\ calculate_distance lat1 lon1 lat1 lon1 = 0.
Proof.
  intros K lat1 lon1 lat2 lon2. split.
  - apply calculate_distance_sym.
  - apply calculate_distance_self.
Qed.

(** ** Python sequences *)

Lemma py_in_In (x : Z) (l : list Z) : py_in x l = true <-> In x l.
Proof.
  unfold py_in. rewrite existsb_exists. split.
  - intros [y [Hy E]]. apply Z.eqb_eq in E. now subst.
  - intros H. exists x. split; [assumption | apply Z.eqb_refl].
Qed.

Lemma py_in_not_In (x : Z) (l : list Z) : py_in x l = false <-> ~ In x l.
Proof.
  rewrite <- py_in_In. destruct (py_in x l); split; intros; try discriminate;
    try reflexivity; try congruence.
Qed.

(** An id is never found among the assignments, which are lists. *)
Lemma py_in_lists_false (x : Z) (ll : list (list Z)) :
  py_in_lists x ll = false.
Proof. induction ll as [|l ll IH]; [reflexivity | exact IH]. Qed.

Lemma py_in_filter (x : Z) (f : Z -> bool) (l : list Z) :
  py_in x (filter f l) = py_in x l && f x.
Proof.
  destruct (py_in x (filter f l)) eqn:E.
  - apply py_in_In, filter_In in E. destruct E as [Hin Hf].
    apply py_in_In in Hin. now rewrite Hin, Hf.
  - destruct (py_in x l) eqn:El; [|reflexivity].
    destruct (f x) eqn:Ef; [|reflexivity].
    apply py_in_not_In in E. exfalso. apply E, filter_In.
    split; [now apply py_in_In | assumption].
Qed.

Lemma In_firstn {A : Type} (n : nat) (l : list A) (x : A) :
  In x (firstn n l) -> In x l.
Proof.
  intros H. rewrite <- (firstn_skipn n l). apply in_or_app. now left.
Qed.

Lemma py_index_0 {A : Type} (l : list A) (a : A) :
  py_index l 0 = Ok a <-> hd_error l = Some a.
Proof.
  unfold py_index. destruct l as [|x l]; simpl.
  - split; discriminate.
  - replace (Z.pos (Pos.of_succ_nat (length l)) <=? 0)%Z with false
      by (symmetry; apply Z.leb_gt; lia).
    simpl. split; intros H; injection H as ->; reflexivity.
Qed.

Lemma py_index_0_nonempty {A : Type} (l : list A) :
  l <> [] -> exists a, py_index l 0 = Ok a.
Proof.
  destruct l as [|x l]; [congruence|]. intros _.
  exists x. now apply py_index_0.
Qed.

Lemma clamp_nonneg (n : nat) (i : Z) :
  (0 <= i)%Z -> clamp n i = Nat.min n (Z.to_nat i).
Proof.
  intros H. unfold clamp.
  replace (i <? 0)%Z with false by (symmetry; apply Z.ltb_ge; lia). lia.
Qed.

Lemma clamp_neg (n : nat) (i : Z) :
  (i < 0)%Z -> clamp n i = (n - Z.to_nat (- i))%nat.
Proof.
  intros H. unfold clamp.
  replace (i <? 0)%Z with true by (symmetry; apply Z.ltb_lt; lia). lia.
Qed.

(** ** Comprehensions *)

Lemma comprehension_Ok {A : Type} (cond : A -> result bool) (f : A -> bool)
    (l r : list A) :
  comprehension cond l = Ok r ->
  (forall a c, In a l -> cond a = Ok c -> c = f a) ->
  r = filter f l.
Proof.
  revert r. induction l as [|a l IH]; simpl; intros r H Hf.
  - now injection H as <-.
  - apply bind_Ok_inv in H. destruct H as [c [Hc H]].
    apply bind_Ok_inv in H. destruct H as [rest [Hrest H]].
    injection H as <-.
    rewrite <- (Hf a c) by auto.
    rewrite (IH rest) by auto. reflexivity.
Qed.

Lemma comprehension_total {A : Type} (cond : A -> result bool) (l : list A) :
  (forall a, In a l -> exists c, cond a = Ok c) ->
  exists r, comprehension cond l = Ok r.
Proof.
  induction l as [|a l IH]; simpl; intros H.
  - eauto.
  - destruct (H a) as [c Hc]; [auto|].
    destruct IH as [r Hr]; [auto|].
    rewrite Hc, Hr. simpl. eauto.
Qed.

(** ** Radius search *)

Section RadiusFacts.

Context {K : Constants}.

Lemma in_radius_loop (latitude longtitude radius : R) (l : list bridge)
    (acc : list Z) :
  fold_left
    (fun bridges_in_radius bridge =>
       if Rleb (calculate_distance (LAT bridge) (LON bridge)
                  latitude longtitude) radius
       then bridges_in_radius ++ [ID bridge]
       else bridges_in_radius)
    l acc
  = acc ++ map ID (filter (fun b => within b (latitude, longtitude) radius)
                          l).
Proof.
  revert acc. induction l as [|b l IH]; intros acc; simpl.
  - now rewrite app_nil_r.
  - rewrite IH. unfold within at 2. simpl.
    destruct (Rleb _ radius); simpl.
    + now rewrite <- app_assoc.
    + reflexivity.
Qed.

Lemma get_bridges_in_radius_filter (bridge_data : list bridge)
    (latitude longtitude radius : R) :
  get_bridges_in_radius bridge_data latitude longtitude radius
  = map ID (filter (fun b => within b (latitude, longtitude) radius)
                   bridge_data).
Proof. apply (in_radius_loop _ _ _ bridge_data []). Qed.

Lemma NoDup_map_inj {A B : Type} (f : A -> B) (l : list A) (a b : A) :
  NoDup (map f l) -> In a l -> In b l -> f a = f b -> a = b.
Proof.
  induction l as [|x l IH]; simpl; intros Hnd Ha Hb E; [contradiction|].
  inversion Hnd as [|? ? Hx Hl]; subst.
  destruct Ha as [->|Ha], Hb as [->|Hb].
  - reflexivity.
  - exfalso. apply Hx. rewrite E. now apply in_map.
  - exfalso. apply Hx. rewrite <- E. now apply in_map.
  - now apply IH.
Qed.

(** With unique ids, the id of a bridge is in the radius list exactly when
    the bridge itself lies within the radius. *)
Lemma in_radius_within (bridge_data : list bridge) (b : bridge)
    (inspector : R * R) (radius : R) :
  NoDup (map ID bridge_data) -> In b bridge_data ->
  py_in (ID b)
    (get_bridges_in_radius bridge_data (fst inspector) (snd inspector) radius)
  = within b inspector radius.
Proof.
  intros Hnd Hb. rewrite get_bridges_in_radius_filter.
  replace (fst inspector, snd inspector) with inspector
    by (now destruct inspector).
  destruct (within b inspector radius) eqn:W.
  - apply py_in_In, in_map, filter_In. now split.
  - apply py_in_not_In. intros Hin.
    apply in_map_iff in Hin. destruct Hin as [b' [E Hb']].
    apply filter_In in Hb'. destruct Hb' as [Hb' W'].
    assert (b' = b) by (eapply NoDup_map_inj; eauto).
    subst. congruence.
Qed.

End RadiusFacts.

Lemma comprehension_In {A : Type} (cond : A -> result bool) (l r : list A)
    (a : A) :
  comprehension cond l = Ok r -> In a r -> In a l /\ cond a = Ok true.
Proof.
  revert r. induction l as [|x l IH]; simpl; intros r H Ha.
  - injection H as <-. contradiction.
  - apply bind_Ok_inv in H. destruct H as [c [Hc H]].
    apply bind_Ok_inv in H. destruct H as [rest [Hrest H]].
    injection H as <-.
    destruct c.
    + destruct Ha as [->|Ha]; [auto|].
      destruct (IH rest Hrest Ha). auto.
    + destruct (IH rest Hrest Ha). auto.
Qed.

(** ** The loop body of the assignment *)

Section AssignmentFacts.

Context {K : Constants}.

Lemma tier_cond_Ok (st : assign_state) (in_radius : list Z) (p : R -> bool)
    (b : bridge) (c : bool) :
  tier_cond st in_radius p b = Ok c ->
  c = py_in (ID b) (bridge_ids st) && py_in (ID b) in_radius
      && bci_satisfies p b.
Proof.
  unfold tier_cond. rewrite py_in_lists_false. simpl. rewrite andb_true_r.
  destruct (py_in (ID b) (bridge_ids st) && py_in (ID b) in_radius) eqn:E.
  - intros H. apply bind_Ok_inv in H. destruct H as [bci [Hb H]].
    injection H as <-. apply py_index_0 in Hb.
    unfold bci_satisfies, current_bci. now rewrite Hb.
  - intros H. now injection H as <-.
Qed.

Lemma tier_cond_true_in_pool (st : assign_state) (in_radius : list Z)
    (p : R -> bool) (b : bridge) :
  tier_cond st in_radius p b = Ok true -> In (ID b) (bridge_ids st).
Proof.
  intros H. apply tier_cond_Ok in H. symmetry in H.
  apply andb_true_iff in H. destruct H as [H _].
  apply andb_true_iff in H. destruct H as [H _].
  now apply py_in_In.
Qed.

Lemma tier_cond_total (st : assign_state) (in_radius : list Z)
    (p : R -> bool) (b : bridge) :
  BCIS b <> [] -> exists c, tier_cond st in_radius p b = Ok c.
Proof.
  intros Hb. unfold tier_cond.
  destruct (_ && _); [|eauto].
  destruct (py_index_0_nonempty (BCIS b) Hb) as [bci Hbci].
  rewrite Hbci. simpl. eauto.
Qed.

(** Every candidate of the loop body is still in the pool. *)
Lemma bridges_to_assign_in_pool (bridge_data : list bridge)
    (st : assign_state) (inspector : R * R) (candidates : list bridge)
    (b : bridge) :
  bridges_to_assign bridge_data st inspector = Ok candidates ->
  In b candidates -> In (ID b) (bridge_ids st).
Proof.
  unfold bridges_to_assign. intros H Hb.
  apply bind_Ok_inv in H. destruct H as [hp [Hhp H]].
  apply bind_Ok_inv in H. destruct H as [mp [Hmp H]].
  apply bind_Ok_inv in H. destruct H as [lp [Hlp H]].
  injection H as <-.
  apply in_app_or in Hb. destruct Hb as [Hb|Hb];
    [|apply in_app_or in Hb; destruct Hb as [Hb|Hb]].
  - destruct (comprehension_In _ _ _ _ Hhp Hb) as [_ Hc].
    eapply tier_cond_true_in_pool. exact Hc.
  - destruct (comprehension_In _ _ _ _ Hmp Hb) as [_ Hc].
    eapply tier_cond_true_in_pool. exact Hc.
  - destruct (comprehension_In _ _ _ _ Hlp Hb) as [_ Hc].
    eapply tier_cond_true_in_pool. exact Hc.
Qed.

(** With unique ids and a pool that holds the unassigned ids, the candidates
    of the loop body are the three tiers. *)
Lemma bridges_to_assign_tiers (bridge_data : list bridge) (st : assign_state)
    (inspector : R * R) (candidates : list bridge) :
  NoDup (map ID bridge_data) -> pool_tracks bridge_data st ->
  bridges_to_assign bridge_data st inspector = Ok candidates ->
  candidates = tiers bridge_data (inspector_assignments st) inspector.
Proof.
  intros Hnd Hpool H. unfold bridges_to_assign in H.
  apply bind_Ok_inv in H. destruct H as [hp [Hhp H]].
  apply bind_Ok_inv in H. destruct H as [mp [Hmp H]].
  apply bind_Ok_inv in H. destruct H as [lp [Hlp H]].
  injection H as <-. unfold tiers.
  f_equal; [|f_equal].
  - eapply comprehension_Ok; [exact Hhp|].
    intros b c Hb Hc. apply tier_cond_Ok in Hc.
    rewrite Hpool, in_radius_within in Hc by assumption. exact Hc.
  - eapply comprehension_Ok; [exact Hmp|].
    intros b c Hb Hc. apply tier_cond_Ok in Hc.
    rewrite Hpool, in_radius_within in Hc by assumption. exact Hc.
  - eapply comprehension_Ok; [exact Hlp|].
    intros b c Hb Hc. apply tier_cond_Ok in Hc.
    rewrite Hpool, in_radius_within in Hc by assumption. exact Hc.
Qed.

Lemma bridges_to_assign_total (bridge_data : list bridge) (st : assign_state)
    (inspector : R * R) :
  (forall b, In b bridge_data -> BCIS b <> []) ->
  exists candidates, bridges_to_assign bridge_data st inspector = Ok candidates.
Proof.
  intros Hb. unfold bridges_to_assign.
  destruct (comprehension_total
              (tier_cond st (get_bridges_in_radius bridge_data (fst inspector)
                               (snd inspector) HIGH_PRIORITY_RADIUS)
                 (fun bci => Rleb bci HIGH_PRIORITY_BCI)) bridge_data)
    as [hp Hhp]; [intros; apply tier_cond_total; auto|].
  destruct (comprehension_total
              (tier_cond st (get_bridges_in_radius bridge_data (fst inspector)
                               (snd inspector) MEDIUM_PRIORITY_RADIUS)
                 (fun bci => Rltb HIGH_PRIORITY_BCI bci
                             && Rleb bci MEDIUM_PRIORITY_BCI)) bridge_data)
    as [mp Hmp]; [intros; apply tier_cond_total; auto|].
  destruct (comprehension_total
              (tier_cond st (get_bridges_in_radius bridge_data (fst inspector)
                               (snd inspector) LOW_PRIORITY_RADIUS)
                 (fun bci => Rltb MEDIUM_PRIORITY_BCI bci)) bridge_data)
    as [lp Hlp]; [intros; apply tier_cond_total; auto|].
  unfold hp_bridges, mp_bridges, lp_bridges. cbv zeta.
  unfold tier_cond in Hhp, Hmp, Hlp. cbv beta in Hhp, Hmp, Hlp.
  rewrite Hhp; simpl. rewrite Hmp; simpl. rewrite Hlp; simpl. eauto.
Qed.

End AssignmentFacts.

(** ** The loop over the inspectors *)

Lemma pairwise_disjoint_nil : pairwise_disjoint [].
Proof. intros i j li lj x _ H. destruct i; discriminate. Qed.

Lemma pairwise_disjoint_snoc (ll : list (list Z)) (new : list Z) :
  pairwise_disjoint ll ->
  (forall l x, In l ll -> In x l -> ~ In x new) ->
  pairwise_disjoint (ll ++ [new]).
Proof.
  intros Hd Hnew i j li lj x Hij Hi Hj Hx Hx'.
  destruct (Nat.lt_ge_cases j (length ll)) as [Hjl|Hjl].
  - rewrite nth_error_app1 in Hi, Hj by lia.
    exact (Hd i j li lj x Hij Hi Hj Hx Hx').
  - rewrite nth_error_app2 in Hj by lia.
    destruct (j - length ll)%nat as [|n] eqn:E.
    + injection Hj as <-.
      rewrite nth_error_app1 in Hi by lia.
      apply nth_error_In in Hi. exact (Hnew li x Hi Hx Hx').
    + destruct n; discriminate.
Qed.

Section LoopFacts.

Context {K : Constants}.

Lemma assign_step_exclusive (bridge_data : list bridge) (max_bridges : Z)
    (st st' : assign_state) (inspector : R * R) :
  exclusive st ->
  assign_step bridge_data max_bridges st inspector = Ok st' ->
  exclusive st'.
Proof.
  intros [Hpool Hdis] H. unfold assign_step in H.
  apply bind_Ok_inv in H. destruct H as [candidates [Hc H]].
  injection H as <-. unfold exclusive; simpl.
  assert (Hsub : forall x, In x (map ID (py_slice_to candidates max_bridges))
                           -> In x (bridge_ids st)).
  { intros x Hx. apply in_map_iff in Hx. destruct Hx as [b [<- Hb]].
    eapply bridges_to_assign_in_pool; [exact Hc|].
    unfold py_slice_to in Hb. eapply In_firstn. exact Hb. }
  split.
  - intros l x Hl Hx Hin. apply filter_In in Hin. destruct Hin as [Hin Hf].
    apply in_app_or in Hl. destruct Hl as [Hl|[<-|[]]].
    + eapply Hpool; eauto.
    + apply negb_true_iff, py_in_not_In in Hf. contradiction.
  - apply pairwise_disjoint_snoc; [assumption|].
    intros l x Hl Hx Hnew. eapply Hpool; eauto.
Qed.

Lemma for_each_exclusive (bridge_data : list bridge) (max_bridges : Z)
    (inspectors : list (R * R)) (st st' : assign_state) :
  exclusive st ->
  for_each (assign_step bridge_data max_bridges) inspectors st = Ok st' ->
  exclusive st'.
Proof.
  revert st. induction inspectors as [|insp rest IH]; simpl; intros st He H.
  - now injection H as <-.
  - apply bind_Ok_inv in H. destruct H as [st1 [H1 H]].
    eapply IH; [|exact H]. eapply assign_step_exclusive; eauto.
Qed.

Lemma for_each_total (bridge_data : list bridge) (max_bridges : Z)
    (inspectors : list (R * R)) (st : assign_state) :
  (forall b, In b bridge_data -> BCIS b <> []) ->
  exists st',
    for_each (assign_step bridge_data max_bridges) inspectors st = Ok st'.
Proof.
  intros Hb. revert st.
  induction inspectors as [|insp rest IH]; simpl; intros st; [eauto|].
  destruct (bridges_to_assign_total bridge_data st insp Hb) as [c Hc].
  unfold assign_step at 1. rewrite Hc. simpl. apply IH.
Qed.

Lemma assign_inspectors_total (bridge_data : list bridge)
    (inspectors : list (R * R)) (max_bridges : Z) :
  (forall b, In b bridge_data -> BCIS b <> []) ->
  exists res, assign_inspectors bridge_data inspectors max_bridges = Ok res.
Proof.
  intros Hb. unfold assign_inspectors.
  destruct (for_each_total bridge_data max_bridges inspectors
              {| bridge_ids := map ID bridge_data;
                 inspector_assignments := [] |} Hb) as [st' H].
  rewrite H. simpl. eauto.
Qed.

(** The step keeps the pool in line with the assignments, and appends the
    slice of the tiers. *)
Lemma assign_step_tracks (bridge_data : list bridge) (max_bridges : Z)
    (st st' : assign_state) (inspector : R * R) :
  NoDup (map ID bridge_data) -> pool_tracks bridge_data st ->
  assign_step bridge_data max_bridges st inspector = Ok st' ->
  pool_tracks bridge_data st'
  /\ inspector_assignments st'
     = inspector_assignments st
       ++ [map ID (py_slice_to
                     (tiers bridge_data (inspector_assignments st) inspector)
                     max_bridges)].
Proof.
  intros Hnd Hpool H. unfold assign_step in H.
  apply bind_Ok_inv in H. destruct H as [candidates [Hc H]].
  injection H as <-. simpl.
  apply bridges_to_assign_tiers in Hc; [|assumption..]. subst candidates.
  split; [|reflexivity].
  intros b Hb. simpl. rewrite py_in_filter, Hpool by assumption.
  unfold unassigned. rewrite existsb_app. simpl.
  rewrite orb_false_r, negb_orb. reflexivity.
Qed.

Lemma for_each_tracks (bridge_data : list bridge) (max_bridges : Z)
    (inspectors : list (R * R)) (st st' : assign_state) :
  NoDup (map ID bridge_data) -> pool_tracks bridge_data st ->
  for_each (assign_step bridge_data max_bridges) inspectors st = Ok st' ->
  exists new,
    inspector_assignments st' = inspector_assignments st ++ new
    /\ length new = length inspectors
    /\ forall k insp,
         nth_error inspectors k = Some insp ->
         nth_error new k
         = Some (map ID (py_slice_to
                           (tiers bridge_data
                              (inspector_assignments st ++ firstn k new) insp)
                           max_bridges)).
Proof.
  intros Hnd. revert st.
  induction inspectors as [|insp0 rest IH]; simpl; intros st Hpool H.
  - injection H as <-. exists []. rewrite app_nil_r.
    repeat split. intros [|k] insp E; discriminate.
  - apply bind_Ok_inv in H. destruct H as [st1 [H1 H]].
    destruct (assign_step_tracks _ _ _ _ _ Hnd Hpool H1) as [Hpool1 E1].
    destruct (IH st1 Hpool1 H) as [new [E [Hlen Hnth]]].
    exists (map ID (py_slice_to
                      (tiers bridge_data (inspector_assignments st) insp0)
                      max_bridges) :: new).
    split; [|split].
    + rewrite E, E1, <- app_assoc. reflexivity.
    + simpl. now rewrite Hlen.
    + intros [|k] insp Hk; simpl in Hk |- *.
      * injection Hk as <-. now rewrite app_nil_r.
      * rewrite (Hnth k insp Hk), E1, <- app_assoc. reflexivity.
Qed.

(** The run, inspector by inspector: each assignment is the slice of the
    tiers built against the assignments of the inspectors before. *)
Lemma assign_inspectors_run (bridge_data : list bridge)
    (inspectors : list (R * R)) (max_bridges : Z) (res : list (list Z)) :
  NoDup (map ID bridge_data) ->
  assign_inspectors bridge_data inspectors max_bridges = Ok res ->
  length res = length inspectors
  /\ forall k insp,
       nth_error inspectors k = Some insp ->
       nth_error res k
       = Some (map ID (py_slice_to
                         (tiers bridge_data (firstn k res) insp)
                         max_bridges)).
Proof.
  intros Hnd H. unfold assign_inspectors in H.
  apply bind_Ok_inv in H. destruct H as [final [Hf H]].
  injection H as <-.
  apply for_each_tracks in Hf; [|assumption|].
  - destruct Hf as [new [E [Hlen Hnth]]]. simpl in E, Hnth.
    rewrite E. split; [assumption|]. exact Hnth.
  - intros b Hb. simpl. unfold unassigned. simpl.
    apply py_in_In, in_map. exact Hb.
Qed.

End LoopFacts.

(** ** The docstring example of the assignment *)

Section Example.

Context {K : Constants}.

Hypothesis earth : EARTH_RADIUS = 6371.
Hypothesis bci_order : HIGH_PRIORITY_BCI <= MEDIUM_PRIORITY_BCI.
Hypothesis bci_medium : MEDIUM_PRIORITY_BCI < 71.5.
Hypothesis radius_lo : 20 <= LOW_PRIORITY_RADIUS.
Hypothesis radius_hi : LOW_PRIORITY_RADIUS <= 190.

(** Bridge 1 is about 7 km from the first inspector. *)
Lemma bridge_1_near_inspector_1 :
  within bridge_1 inspector_1 LOW_PRIORITY_RADIUS = true.
Proof.
  apply Rleb_true. apply Rle_trans with (IZR 15000 / 10 ^ 3); [|lra].
  apply (calculate_distance_le _ _ _ _ 0.001 0.0011); rewrite ?earth;
    try lra.
  unfold radians; simpl. pose proof PI_sq_le. nra.
Qed.

(** Bridge 2 is about 9 km from the first inspector. *)
Lemma bridge_2_near_inspector_1 :
  within bridge_2 inspector_1 LOW_PRIORITY_RADIUS = true.
Proof.
  apply Rleb_true. apply Rle_trans with (IZR 17000 / 10 ^ 3); [|lra].
  apply (calculate_distance_le _ _ _ _ 0.0012 0.0013); rewrite ?earth;
    try lra.
  unfold radians; simpl. pose proof PI_sq_le. nra.
Qed.

(** Bridge 3 is a few hundred metres from the second inspector. *)
Lemma bridge_3_near_inspector_2 :
  within bridge_3 inspector_2 LOW_PRIORITY_RADIUS = true.
Proof.
  apply Rleb_true. apply Rle_trans with (IZR 3000 / 10 ^ 3); [|lra].
  apply (calculate_distance_le _ _ _ _ 0.0001 0.0002); rewrite ?earth;
    try lra.
  unfold radians; simpl. pose proof PI_sq_le. nra.
Qed.

(** Bridge 3 is more than 195 km from the first inspector. *)
Lemma bridge_3_far_from_inspector_1 :
  within bridge_3 inspector_1 LOW_PRIORITY_RADIUS = false.
Proof.
  apply Rleb_false. apply Rlt_le_trans with (IZR 195000 / 10 ^ 3); [lra|].
  apply calculate_distance_ge; rewrite ?earth; simpl; try lra.
  unfold radians. pose proof PI_bounds.
  rewrite Rabs_left1; lra.
Qed.

(** A bridge whose current BCI is above the medium threshold is in the low
    tier or in none. *)
Lemma low_bci_tiers (earlier : list (list Z)) (inspector : R * R)
    (b : bridge) (bci : R) :
  current_bci b = Some bci -> MEDIUM_PRIORITY_BCI < bci ->
  high_priority earlier inspector b = false
  /\ medium_priority earlier inspector b = false
  /\ low_priority earlier inspector b
     = unassigned earlier b && within b inspector LOW_PRIORITY_RADIUS.
Proof.
  intros Hb Hlt.
  unfold high_priority, medium_priority, low_priority, bci_satisfies.
  rewrite Hb.
  replace (Rleb bci HIGH_PRIORITY_BCI) with false
    by (symmetry; apply Rleb_false; lra).
  replace (Rleb bci MEDIUM_PRIORITY_BCI) with false
    by (symmetry; apply Rleb_false; lra).
  replace (Rltb MEDIUM_PRIORITY_BCI bci) with true
    by (symmetry; apply Rltb_true; lra).
  rewrite !andb_false_r, andb_true_r. auto.
Qed.

Lemma three_bridges_low (b : bridge) :
  In b THREE_BRIDGES ->
  exists bci, current_bci b = Some bci /\ MEDIUM_PRIORITY_BCI < bci.
Proof.
  intros [<-|[<-|[<-|[]]]]; eexists; (split; [reflexivity|lra]).
Qed.

Lemma tiers_three_bridges (earlier : list (list Z)) (inspector : R * R) :
  tiers THREE_BRIDGES earlier inspector
  = filter (fun b => unassigned earlier b
                     && within b inspector LOW_PRIORITY_RADIUS)
           THREE_BRIDGES.
Proof.
  unfold tiers.
  assert (H : forall (f g : bridge -> bool) (l : list bridge),
             (forall b, In b l -> f b = g b) -> filter f l = filter g l).
  { intros f g l. induction l as [|a l IH]; simpl; intros E; [reflexivity|].
    rewrite (E a), IH by auto. reflexivity. }
  rewrite (H (high_priority earlier inspector) (fun _ => false)),
          (H (medium_priority earlier inspector) (fun _ => false)),
          (H (low_priority earlier inspector)
             (fun b => unassigned earlier b
                       && within b inspector LOW_PRIORITY_RADIUS)).
  - reflexivity.
  - intros b Hb. destruct (three_bridges_low b Hb) as [bci [Hc Hlt]].
    apply (low_bci_tiers earlier inspector b bci Hc Hlt).
  - intros b Hb. destruct (three_bridges_low b Hb) as [bci [Hc Hlt]].
    apply (low_bci_tiers earlier inspector b bci Hc Hlt).
  - intros b Hb. destruct (three_bridges_low b Hb) as [bci [Hc Hlt]].
    apply (low_bci_tiers earlier inspector b bci Hc Hlt).
Qed.

Lemma tiers_inspector_1 :
  tiers THREE_BRIDGES [] inspector_1 = [bridge_1; bridge_2].
Proof.
  rewrite tiers_three_bridges. unfold THREE_BRIDGES, unassigned. simpl.
  rewrite bridge_1_near_inspector_1, bridge_2_near_inspector_1,
          bridge_3_far_from_inspector_1. reflexivity.
Qed.

Lemma tiers_inspector_2 :
  tiers THREE_BRIDGES [[1; 2]%Z] inspector_2 = [bridge_3].
Proof.
  rewrite tiers_three_bridges. unfold THREE_BRIDGES, unassigned. simpl.
  rewrite bridge_3_near_inspector_2. reflexivity.
Qed.

Lemma three_bridges_ids : NoDup (map ID THREE_BRIDGES).
Proof.
  simpl. repeat constructor; simpl; intuition discriminate.
Qed.

Lemma three_bridges_histories (b : bridge) :
  In b THREE_BRIDGES -> BCIS b <> [].
Proof. intros [<-|[<-|[<-|[]]]]; discriminate. Qed.

(** The docstring example: two inspectors, capacity 2. *)
Lemma example_run :
  assign_inspectors THREE_BRIDGES [inspector_1; inspector_2] 2
  = Ok [[1; 2]; [3]]%Z.
Proof.
  destruct (assign_inspectors_total THREE_BRIDGES [inspector_1; inspector_2]
              2 three_bridges_histories) as [res Hres].
  rewrite Hres. f_equal.
  destruct (assign_inspectors_run _ _ _ _ three_bridges_ids Hres)
    as [Hlen Hnth].
  pose proof (Hnth 0%nat inspector_1 eq_refl) as H0.
  pose proof (Hnth 1%nat inspector_2 eq_refl) as H1.
  destruct res as [|r0 [|r1 [|r2 res]]]; try discriminate.
  simpl in H0, H1.
  rewrite tiers_inspector_1 in H0. injection H0 as ->.
  change (py_slice_to [bridge_1; bridge_2] 2) with [bridge_1; bridge_2]
    in H1.
  simpl map in H1. rewrite tiers_inspector_2 in H1. injection H1 as ->.
  reflexivity.
Qed.

(** One inspector, capacity [-1]: the slice drops the last candidate. *)
Lemma example_negative_capacity :
  assign_inspectors THREE_BRIDGES [inspector_1] (-1) = Ok [[1]]%Z.
Proof.
  destruct (assign_inspectors_total THREE_BRIDGES [inspector_1]
              (-1) three_bridges_histories) as [res Hres].
  rewrite Hres. f_equal.
  destruct (assign_inspectors_run _ _ _ _ three_bridges_ids Hres)
    as [Hlen Hnth].
  pose proof (Hnth 0%nat inspector_1 eq_refl) as H0.
  destruct res as [|r0 [|r1 res]]; try discriminate.
  simpl in H0.
  rewrite tiers_inspector_1 in H0. injection H0 as ->.
  reflexivity.
Qed.

End Example.

(** ** Inspector assignment: main results *)

Lemma tiers_exclusive {K : Constants} (earlier : list (list Z))
    (inspector : R * R) (b : bridge) :
  (high_priority earlier inspector b = true ->
   medium_priority earlier inspector b = false)
  /\ (medium_priority earlier inspector b = true ->
      low_priority earlier inspector b = false)
  /\ (HIGH_PRIORITY_BCI <= MEDIUM_PRIORITY_BCI ->
      high_priority earlier inspector b = true ->
      low_priority earlier inspector b = false).
Proof.
  unfold high_priority, medium_priority, low_priority, bci_satisfies.
  destruct (current_bci b) as [bci|];
    [|rewrite !andb_false_r; repeat split; auto].
  repeat split.
  - intros H. apply andb_true_iff in H. destruct H as [_ H].
    apply Rleb_true in H.
    replace (Rltb HIGH_PRIORITY_BCI bci) with false
      by (symmetry; apply Rltb_false; lra).
    now rewrite andb_false_r.
  - intros H. apply andb_true_iff in H. destruct H as [_ H].
    apply andb_true_iff in H. destruct H as [_ H]. apply Rleb_true in H.
    replace (Rltb MEDIUM_PRIORITY_BCI bci) with false
      by (symmetry; apply Rltb_false; lra).
    now rewrite andb_false_r.
  - intros Ho H. apply andb_true_iff in H. destruct H as [_ H].
    apply Rleb_true in H.
    replace (Rltb MEDIUM_PRIORITY_BCI bci) with false
      by (symmetry; apply Rltb_false; lra).
    now rewrite andb_false_r.
Qed.

(** C1: in a collection with unique ids, the assignment of every inspector
    is read off the candidate list made of three tiers of the bridges that
    no earlier inspector was assigned: high (within the high-priority radius,
    current BCI at most the high threshold), medium (within the
    medium-priority radius, current BCI above the high and at most the
    medium threshold), low (within the low-priority radius, current BCI above
    the medium threshold), each tier in collection order, concatenated high,
    medium, low.  The run returns whenever every history is non-empty.  No
    bridge is in two tiers when the high threshold is at most the medium
    one.  With an Earth radius of 6371, thresholds below 71.5 and a
    low-priority radius between 20 and 190, the docstring example yields
    [[1, 2], [3]]. *)
Theorem C1_candidates_by_priority_tier :
  forall K : Constants,
    (forall (bridge_data : list bridge) (inspectors : list (R * R))
            (max_bridges : Z) (res : list (list Z)),
        NoDup (map ID bridge_data) ->
        assign_inspectors bridge_data inspectors max_bridges = Ok res ->
        length res = length inspectors
        /\ forall k inspector,
             nth_error inspectors k = Some inspector ->
             let earlier := firstn k res in
             let candidates :=
               filter (high_priority earlier inspector) bridge_data
               ++ filter (medium_priority earlier inspector) bridge_data
               ++ filter (low_priority earlier inspector) bridge_data in
             nth_error res k
             = Some (map ID (py_slice_to candidates max_bridges)))
    /\ (forall (bridge_data : list bridge) (inspectors : list (R * R))
               (max_bridges : Z),
           (forall b, In b bridge_data -> BCIS b <> []) ->
           exists res,
             assign_inspectors bridge_data inspectors max_bridges = Ok res)
    /\ (forall (earlier : list (list Z)) (inspector : R * R) (b : bridge),
           (high_priority earlier inspector b = true ->
            medium_priority earlier inspector b = false)
           /\ (medium_priority earlier inspector b = true ->
               low_priority earlier inspector b = false)
           /\ (HIGH_PRIORITY_BCI <= MEDIUM_PRIORITY_BCI ->
               high_priority earlier inspector b = true ->
               low_priority earlier inspector b = false))
    /\ (EARTH_RADIUS = 6371 ->
        HIGH_PRIORITY_BCI <= MEDIUM_PRIORITY_BCI ->
        MEDIUM_PRIORITY_BCI < 71.5 ->
        20 <= LOW_PRIORITY_RADIUS <= 190 ->
        assign_inspectors THREE_BRIDGES
          [(43.20, -80.35); (45.0368, -81.34)] 2
        = Ok [[1; 2]; [3]]%Z).
Proof.
  intros K. split; [|split; [|split]].
  - intros bridge_data inspectors max_bridges res Hnd Hres.
    exact (assign_inspectors_run _ _ _ _ Hnd Hres).
  - intros bridge_data inspectors max_bridges Hb.
    now apply assign_inspectors_total.
  - apply tiers_exclusive.
  - intros He Ho Hm [Hlo Hhi]. now apply example_run.
Qed.

(** The docstring example under the reference constants. *)
Lemma C1_witness :
  assign_inspectors (K := reference_constants) THREE_BRIDGES
    [(43.20, -80.35); (45.0368, -81.34)] 2
  = Ok [[1; 2]; [3]]%Z.
Proof.
  apply (C1_candidates_by_priority_tier reference_constants);
    simpl; try split; lra.
Defined.

(** C2: the lists returned by [assign_inspectors] are pairwise disjoint, and
    the run returns whenever every history is non-empty. *)
Theorem C2_assignments_pairwise_disjoint :
  forall (K : Constants) (bridge_data : list bridge)
         (inspectors : list (R * R)) (max_bridges : Z),
    (forall res,
        assign_inspectors bridge_data inspectors max_bridges = Ok res ->
        pairwise_disjoint res)
    /\ ((forall b, In b bridge_data -> BCIS b <> []) ->
        exists res,
          assign_inspectors bridge_data inspectors max_bridges = Ok res
          /\ pairwise_disjoint res).
Proof.
  intros K bridge_data inspectors max_bridges.
  assert (G : forall res,
             assign_inspectors bridge_data inspectors max_bridges = Ok res ->
             pairwise_disjoint res).
  { intros res H. unfold assign_inspectors in H.
    apply bind_Ok_inv in H. destruct H as [final [Hf H]].
    injection H as <-.
    eapply for_each_exclusive in Hf; [exact (proj2 Hf)|].
    split; simpl; [intros l x []|apply pairwise_disjoint_nil]. }
  split; [exact G|].
  intros Hb.
  destruct (assign_inspectors_total bridge_data inspectors max_bridges Hb)
    as [res Hres].
  exists res. split; [exact Hres | apply G, Hres].
Qed.

(** The assignments over the reference collection share no id. *)
Lemma C2_witness :
  exists res,
    assign_inspectors (K := reference_constants) THREE_BRIDGES
      [(43.20, -80.35); (45.0368, -81.34)] 2 = Ok res
    /\ pairwise_disjoint res.
Proof.
  apply (C2_assignments_pairwise_disjoint reference_constants).
  intros b [<-|[<-|[<-|[]]]]; discriminate.
Defined.

(** C3: the assignment of an inspector is the slice [[:max_bridges]] of the
    concatenated tiers: its first [max_bridges] entries when [max_bridges] is
    not negative, so none for [0] and all of them when there are at most
    [max_bridges], and all but the last [-max_bridges] entries when
    [max_bridges] is negative. *)
Theorem C3_assignment_is_slice_of_candidates :
  forall (K : Constants) (bridge_data : list bridge)
         (inspectors : list (R * R)) (max_bridges : Z)
         (res : list (list Z)) (k : nat) (inspector : R * R),
    NoDup (map ID bridge_data) ->
    assign_inspectors bridge_data inspectors max_bridges = Ok res ->
    nth_error inspectors k = Some inspector ->
    let candidates := tiers bridge_data (firstn k res) inspector in
    (0 <= max_bridges ->
     nth_error res k
     = Some (map ID (firstn (Z.to_nat max_bridges) candidates)))%Z
    /\ (max_bridges = 0%Z -> nth_error res k = Some [])
    /\ ((Z.of_nat (length candidates) <= max_bridges)%Z ->
        nth_error res k = Some (map ID candidates))
    /\ ((max_bridges < 0)%Z ->
        nth_error res k
        = Some (map ID (firstn (length candidates - Z.to_nat (- max_bridges))
                               candidates))).
Proof.
  intros K bridge_data inspectors max_bridges res k inspector Hnd Hres Hk
         candidates.
  destruct (assign_inspectors_run _ _ _ _ Hnd Hres) as [_ Hnth].
  specialize (Hnth k inspector Hk). fold candidates in Hnth.
  rewrite Hnth. unfold py_slice_to.
  split; [|split; [|split]].
  - intros H. rewrite clamp_nonneg by assumption.
    destruct (Nat.le_ge_cases (length candidates) (Z.to_nat max_bridges))
      as [Hle|Hge].
    + rewrite Nat.min_l by assumption.
      rewrite firstn_all, firstn_all2 by assumption. reflexivity.
    + rewrite Nat.min_r by assumption. reflexivity.
  - intros ->. rewrite clamp_nonneg by lia.
    simpl. now rewrite Nat.min_0_r.
  - intros H. rewrite clamp_nonneg by lia.
    rewrite Nat.min_l by lia. now rewrite firstn_all.
  - intros H. now rewrite clamp_neg by assumption.
Qed.

(** The first inspector of the docstring example takes both candidates. *)
Lemma C3_witness :
  nth_error [[1; 2]; [3]]%Z 0
  = Some (map ID (firstn (Z.to_nat 2)
                    (tiers (K := reference_constants) THREE_BRIDGES
                       (firstn 0 [[1; 2]; [3]]%Z) inspector_1))).
Proof.
  refine (proj1 (C3_assignment_is_slice_of_candidates reference_constants
                   THREE_BRIDGES [inspector_1; inspector_2] 2
                   [[1; 2]; [3]]%Z 0 inspector_1 _ _ _) _).
  - exact three_bridges_ids.
  - apply example_run; simpl; lra.
  - reflexivity.
  - lia.
Defined.

(** With capacity [-1] the first inspector of the docstring example is
    assigned bridge 1: a negative capacity does not give an empty list. *)
Lemma C3_counterexample :
  (-1 <= 0)%Z
  /\ assign_inspectors (K := reference_constants) THREE_BRIDGES
       [(43.20, -80.35)] (-1)
     = Ok [[1]]%Z.
Proof.
  split; [lia|]. apply example_negative_capacity; simpl; lra.
Qed.

(** ** Radius search: main result *)

(** C6: [get_bridges_in_radius] returns, in collection order, the ids of the
    records whose distance to the point is at most the radius.  The Earth
    radius constant being non-negative, it returns the empty list for every
    negative radius; a record located at the point itself is returned for
    every radius that is not negative, [0] included. *)
Theorem C6_in_radius_by_distance :
  forall (K : Constants) (bridge_data : list bridge)
         (latitude longtitude radius : R),
    0 <= EARTH_RADIUS ->
    get_bridges_in_radius bridge_data latitude longtitude radius
    = map ID
        (filter (fun b => Rleb (calculate_distance (LAT b) (LON b)
                                  latitude longtitude) radius)
                bridge_data)
    /\ (forall x,
           In x (get_bridges_in_radius bridge_data latitude longtitude radius)
           <-> exists b, In b bridge_data /\ ID b = x
                         /\ calculate_distance (LAT b) (LON b)
                              latitude longtitude <= radius)
    /\ (radius < 0 ->
        get_bridges_in_radius bridge_data latitude longtitude radius = [])
    /\ (forall b, In b bridge_data -> LAT b = latitude ->
                  LON b = longtitude -> 0 <= radius ->
                  In (ID b) (get_bridges_in_radius bridge_data latitude
                               longtitude radius)).
Proof.
  intros K bridge_data latitude longtitude radius HR.
  assert (Hmem : forall x,
             In x (get_bridges_in_radius bridge_data latitude longtitude
                     radius)
             <-> exists b, In b bridge_data /\ ID b = x
                           /\ calculate_distance (LAT b) (LON b)
                                latitude longtitude <= radius).
  { intros x. rewrite get_bridges_in_radius_filter, in_map_iff. split.
    - intros [b [E Hb]]. apply filter_In in Hb. destruct Hb as [Hb W].
      apply Rleb_true in W. eauto.
    - intros [b [Hb [E W]]]. exists b. split; [assumption|].
      apply filter_In. split; [assumption|]. now apply Rleb_true. }
  split; [apply get_bridges_in_radius_filter|].
  split; [exact Hmem|]. split.
  - intros Hneg.
    destruct (get_bridges_in_radius bridge_data latitude longtitude radius)
      as [|x l] eqn:E; [reflexivity|exfalso].
    destruct (proj1 (Hmem x) (or_introl eq_refl)) as [b [_ [_ W]]].
    pose proof (calculate_distance_nonneg (LAT b) (LON b) latitude
                  longtitude HR). lra.
  - intros b Hb <- <- Hr. apply Hmem. exists b.
    rewrite calculate_distance_self. auto.
Qed.

(** Around (43.10, -80.15) with radius -50 nothing is returned. *)
Lemma C6_witness :
  get_bridges_in_radius (K := reference_constants) THREE_BRIDGES
    43.10 (-80.15) (-50) = [].
Proof.
  apply (C6_in_radius_by_distance reference_constants THREE_BRIDGES
           43.10 (-80.15) (-50)); simpl; lra.
Defined.

(** Radius 0 around the position of bridge 1 returns bridge 1. *)
Lemma C6_counterexample :
  0 <= 0
  /\ get_bridges_in_radius (K := reference_constants) [bridge_1]
       43.167233 (-80.275567) 0 = [1%Z].
Proof.
  split; [lra|].
  rewrite get_bridges_in_radius_filter. unfold within. simpl.
  rewrite calculate_distance_self.
  replace (Rleb 0 0) with true by (symmetry; apply Rleb_true; lra).
  reflexivity.
Qed.

(** ** Average BCI and closest bridge *)

Lemma sum_from (l : list R) (acc : R) :
  fold_left Rplus l acc = acc + fold_right Rplus 0 l.
Proof.
  revert acc. induction l as [|x l IH]; intros acc; simpl.
  - lra.
  - rewrite IH. lra.
Qed.

(** [get_average_bci] where it does return: [0] for an absent id, the mean
    of the history of the first record with the id when that history is not
    empty. *)
Lemma get_average_bci_returns (bridge_data : list bridge) (bridge_id : Z) :
  (~ In bridge_id (map ID bridge_data) ->
   get_average_bci bridge_data bridge_id = Ok 0)
  /\ (forall before b after,
         bridge_data = before ++ b :: after ->
         ~ In bridge_id (map ID before) -> ID b = bridge_id ->
         BCIS b <> [] ->
         get_average_bci bridge_data bridge_id
         = Ok (fold_right Rplus 0 (BCIS b) / INR (length (BCIS b)))).
Proof.
  split.
  - induction bridge_data as [|a l IH]; simpl; intros H; [reflexivity|].
    destruct (Z.eqb_spec (ID a) bridge_id) as [E|N]; [tauto|].
    apply IH. tauto.
  - intros before b after -> Hb E Hne.
    induction before as [|a l IH]; simpl.
    + rewrite E, Z.eqb_refl. unfold py_div.
      destruct (BCIS b) as [|x h] eqn:Eh; [congruence|].
      replace (Z.of_nat (length (x :: h)) =? 0)%Z with false
        by (symmetry; apply Z.eqb_neq; simpl; lia).
      unfold sum. rewrite sum_from, Rplus_0_l, <- INR_IZR_INZ. reflexivity.
    + simpl in Hb. destruct (Z.eqb_spec (ID a) bridge_id) as [Ea|N]; [tauto|].
      apply IH. tauto.
Qed.

(** The docstring example: the mean of the history of bridge 1 is
    [496.2 / 7], which the docstring prints as [70.88571428571429]. *)
Lemma get_average_bci_bridge_1 :
  exists x,
    get_average_bci THREE_BRIDGES 1 = Ok x
    /\ Rabs (x - 70.88571428571429) < 1 / 10 ^ 13.
Proof.
  eexists. split; [reflexivity|].
  unfold sum, bridge_1; simpl. apply Rabs_def1; lra.
Qed.

(** C5: on a record whose BCI history is empty [get_average_bci] raises
    [ZeroDivisionError], where the docstring of the function and the
    specification promise [0]. *)
Theorem C5_average_bci_empty_history_raises :
  BCIS bridge_without_bci = []
  /\ get_average_bci [bridge_without_bci] 1 = Raise ZeroDivisionError
  /\ get_average_bci [bridge_without_bci; bridge_2; bridge_3] 1
     = Raise ZeroDivisionError.
Proof. repeat split. Qed.

(** C4: [get_closest_bridge] reads the reference record at the list position
    [bridge_id], not the record with that id.  On the reference collection it
    raises [IndexError] for id 3, which is present, and for the absent id
    99, where the docstring promises the id of the closest bridge and the
    specification the sentinel [0]. *)
Theorem C4_closest_bridge_indexes_by_id :
  forall K : Constants,
    get_closest_bridge THREE_BRIDGES 3 = Raise IndexError
    /\ get_closest_bridge THREE_BRIDGES 99 = Raise IndexError.
Proof. intros K. split; reflexivity. Qed.

(** On a collection of fewer than two records the loop body never runs and
    the sentinel [0] is returned. *)
Lemma get_closest_bridge_short {K : Constants} (bridge_data : list bridge)
    (bridge_id : Z) :
  (length bridge_data < 2)%nat ->
  get_closest_bridge bridge_data bridge_id = Ok 0%Z.
Proof.
  intros H. unfold get_closest_bridge.
  destruct bridge_data as [|a [|b l]]; simpl in H; try lia; reflexivity.
Qed.

(** ** Record normalizer: the length cell *)

(** C7: [format_length] raises [ValueError] on a row whose length cell is
    the empty string, for [float('')] raises: the test in front of the
    conversion compares the whole record with [''] and so always takes the
    converting branch. *)
Theorem C7_format_length_empty_cell_raises :
  forall (LENGTH_INDEX : Z) (float_of_string : string -> option R)
         (bridge_record : list pyval),
    float_of_string EmptyString = None ->
    py_index bridge_record LENGTH_INDEX = Ok (PStr EmptyString) ->
    format_length LENGTH_INDEX float_of_string bridge_record
    = Raise ValueError.
Proof.
  intros LENGTH_INDEX float_of_string bridge_record Hf Hcell.
  unfold format_length.
  change (py_eqb (PList bridge_record) (PStr EmptyString)) with false.
  simpl negb.
  cbv iota. rewrite Hcell. simpl. now rewrite Hf.
Qed.

(** The first uncleaned row of the docstrings with its length cell, at
    position 10, emptied: [format_length] raises. *)
Lemma C7_witness :
  format_length 10 decimal_of_string raw_row_empty_length
  = Raise ValueError.
Proof.
  apply C7_format_length_empty_cell_raises; reflexivity.
Defined.

(** ** Object store *)

Lemma read_collection_pointwise (g : bridge -> bridge) (h h' : store)
    (bridge_data : list loc) :
  (forall l, In l bridge_data ->
             read_bridge h' l = option_map g (read_bridge h l)) ->
  read_collection h' bridge_data
  = option_map (map g) (read_collection h bridge_data).
Proof.
  induction bridge_data as [|a l IH]; simpl; intros H; [reflexivity|].
  rewrite (H a) by auto. rewrite IH by auto.
  destruct (read_bridge h a); simpl; [|reflexivity].
  destruct (read_collection h l); reflexivity.
Qed.

Lemma read_collection_nth (h : store) (bridge_data : list loc)
    (bs : list bridge) :
  read_collection h bridge_data = Some bs ->
  length bs = length bridge_data
  /\ forall i l, nth_error bridge_data i = Some l ->
       exists b, nth_error bs i = Some b /\ read_bridge h l = Some b.
Proof.
  revert bs. induction bridge_data as [|a l IH]; simpl; intros bs H.
  - injection H as <-. split; [reflexivity|]. intros [|i] ? E; discriminate.
  - destruct (read_bridge h a) as [b|] eqn:Ea; [|discriminate].
    destruct (read_collection h l) as [bs0|]; [|discriminate].
    injection H as <-. destruct (IH bs0 eq_refl) as [Hlen Hnth].
    split; [simpl; now rewrite Hlen|].
    intros [|i] l0 E; simpl in E |- *.
    + injection E as <-. eauto.
    + now apply Hnth.
Qed.

Lemma py_insert_front {A : Type} (l : list A) (x : A) :
  py_insert l 0 x = x :: l.
Proof.
  unfold py_insert. rewrite clamp_nonneg by lia.
  simpl. now rewrite Nat.min_0_r.
Qed.

Lemma repeat_cons_app {A : Type} (x : A) (n : nat) (l : list A) :
  x :: repeat x n ++ l = repeat x n ++ x :: l.
Proof.
  change (x :: repeat x n ++ l) with ((x :: repeat x n) ++ l).
  rewrite repeat_cons, <- app_assoc. reflexivity.
Qed.

(** ** Slices of strings *)

Lemma firstn_min_length {A : Type} (k : nat) (l : list A) :
  firstn (Nat.min (length l) k) l = firstn k l.
Proof.
  destruct (Nat.le_ge_cases (length l) k) as [H|H].
  - rewrite Nat.min_l by assumption.
    now rewrite firstn_all, firstn_all2.
  - now rewrite Nat.min_r.
Qed.

Lemma py_slice_window {A : Type} (l : list A) (lo len : nat) :
  py_slice l (Z.of_nat lo) (Z.of_nat (lo + len)) = firstn len (skipn lo l).
Proof.
  unfold py_slice. rewrite !clamp_nonneg by lia. rewrite !Nat2Z.id.
  destruct (Nat.le_ge_cases (length l) lo) as [H|H].
  - rewrite (Nat.min_l _ lo), (Nat.min_l _ (lo + len)) by lia.
    rewrite Nat.sub_diag, skipn_all, (skipn_all2 l) by lia.
    now rewrite !firstn_nil.
  - rewrite (Nat.min_r _ lo) by assumption.
    rewrite <- (firstn_min_length len (skipn lo l)), length_skipn.
    f_equal. lia.
Qed.

Lemma substring_firstn_skipn (s : string) (lo len : nat) :
  string_of_list_ascii (firstn len (skipn lo (list_ascii_of_string s)))
  = substring lo len s.
Proof.
  revert lo len. induction s as [|c s IH]; intros lo len.
  - destruct lo, len; reflexivity.
  - destruct lo as [|lo].
    + destruct len as [|len]; [reflexivity|].
      simpl. f_equal. apply (IH 0%nat len).
    + simpl. apply IH.
Qed.

(** The slice [s[6:10]] is the substring of at most four characters from
    position 6. *)
Lemma str_slice_6_10 (s : string) : str_slice s 6 10 = substring 6 4 s.
Proof.
  unfold str_slice.
  change 6%Z with (Z.of_nat 6). change 10%Z with (Z.of_nat (6 + 4)).
  rewrite py_slice_window. apply substring_firstn_skipn.
Qed.

Lemma length_substring (s : string) (lo len : nat) :
  String.length (substring lo len s)
  = Nat.min len (String.length s - lo).
Proof.
  revert lo len. induction s as [|c s IH]; intros lo len.
  - destruct lo, len; reflexivity.
  - destruct lo as [|lo].
    + destruct len as [|len]; [reflexivity|].
      simpl. rewrite (IH 0%nat len). now rewrite Nat.sub_0_r.
    + simpl. apply IH.
Qed.

(** ** Rehabilitation year *)

Section RehabFacts.

Variables (bridge_id : Z) (rehab_year : string) (rehab : bool).

Let year : string := str_slice rehab_year 6 10.

Lemma with_rehab_idem {H : Type} (r : bridge_of H) :
  with_rehab bridge_id year rehab (with_rehab bridge_id year rehab r)
  = with_rehab bridge_id year rehab r.
Proof.
  unfold with_rehab.
  destruct (ID r =? bridge_id)%Z eqn:E; [|now rewrite E].
  destruct rehab; simpl; now rewrite E.
Qed.

(** The store after the loop of [add_rehab], cell by cell. *)
Lemma add_rehab_store (bridge_data : list loc) (h : store) :
  (forall k, lists (add_rehab h bridge_data bridge_id rehab_year rehab) k
             = lists h k)
  /\ forall l,
       rows (add_rehab h bridge_data bridge_id rehab_year rehab) l
       = if in_dec Nat.eq_dec l bridge_data
         then option_map (with_rehab bridge_id year rehab) (rows h l)
         else rows h l.
Proof.
  unfold add_rehab. fold year.
  revert h. induction bridge_data as [|a data IH]; intros h.
  - split; reflexivity.
  - cbn [fold_left].
    set (h1 := match rows h a with
               | Some r => _
               | None => h
               end).
    destruct (IH h1) as [IHl IHr].
    assert (Hl1 : forall k, lists h1 k = lists h k).
    { intros k. unfold h1. destruct (rows h a) as [r|]; [|reflexivity].
      destruct (ID r =? bridge_id)%Z; [|reflexivity].
      destruct (Bool.eqb rehab true); reflexivity. }
    assert (Hr1 : forall l,
               rows h1 l
               = if Nat.eqb l a
                 then option_map (with_rehab bridge_id year rehab) (rows h a)
                 else rows h l).
    { intros l. unfold h1, with_rehab.
      destruct (Nat.eqb_spec l a) as [->|N].
      - destruct (rows h a) as [r|] eqn:Er; simpl; [|exact Er].
        destruct (ID r =? bridge_id)%Z; [|exact Er].
        destruct rehab; simpl; now rewrite Nat.eqb_refl.
      - destruct (rows h a) as [r|]; [|reflexivity].
        destruct (ID r =? bridge_id)%Z; [|reflexivity].
        apply Nat.eqb_neq in N.
        destruct rehab; simpl; now rewrite N. }
    split.
    + intros k. now rewrite IHl, Hl1.
    + intros l. rewrite IHr, Hr1.
      destruct (in_dec Nat.eq_dec l (a :: data)) as [Hin|Hout];
        destruct (in_dec Nat.eq_dec l data) as [Hd|Hd];
        destruct (Nat.eqb_spec l a) as [->|N];
        try reflexivity; simpl in *; try tauto.
      * destruct (rows h a); simpl; [|reflexivity].
        now rewrite with_rehab_idem.
      * exfalso. destruct Hin as [E|E]; [symmetry in E|]; contradiction.
Qed.

Lemma add_rehab_read (bridge_data : list loc) (h : store) (l : loc) :
  In l bridge_data ->
  read_bridge (add_rehab h bridge_data bridge_id rehab_year rehab) l
  = option_map (with_rehab bridge_id year rehab) (read_bridge h l).
Proof.
  intros Hl. destruct (add_rehab_store bridge_data h) as [Hlists Hrows].
  unfold read_bridge. rewrite Hrows.
  destruct (in_dec Nat.eq_dec l bridge_data); [|contradiction].
  destruct (rows h l) as [r|]; simpl; [|reflexivity].
  assert (E : BCIS (with_rehab bridge_id year rehab r) = BCIS r).
  { unfold with_rehab. destruct (ID r =? bridge_id)%Z; [|reflexivity].
    destruct rehab; reflexivity. }
  rewrite E, Hlists.
  destruct (lists h (BCIS r)) as [hist|]; simpl; [|reflexivity].
  unfold with_rehab. simpl.
  destruct (ID r =? bridge_id)%Z; [|reflexivity].
  destruct rehab; reflexivity.
Qed.

End RehabFacts.

(** C10: [add_rehab] is total, whatever the length of [rehab_year].  Read
    as values, the records of the collection whose id is [bridge_id] get the
    substring of at most four characters from position 6 of [rehab_year]
    (shorter than four, or empty, when the string is short) as year of the
    last major rehab when the flag is [True] and of the last minor rehab
    when it is [False]; their other cells, the other records and the
    histories stay as they are, and with an absent id the whole collection
    does. *)
Theorem C10_add_rehab_stores_year_slice :
  forall (h : store) (bridge_data : list loc) (bridge_id : Z)
         (rehab_year : string) (rehab : bool) (bs : list bridge),
    read_collection h bridge_data = Some bs ->
    let h' := add_rehab h bridge_data bridge_id rehab_year rehab in
    let year := substring 6 4 rehab_year in
    String.length year = Nat.min 4 (String.length rehab_year - 6)
    /\ (exists bs',
           read_collection h' bridge_data = Some bs'
           /\ length bs' = length bs
           /\ forall i b,
                nth_error bs i = Some b ->
                exists b',
                  nth_error bs' i = Some b'
                  /\ (ID b = bridge_id -> rehab = true ->
                      LAST_MAJOR b' = year /\ same_but_major b b')
                  /\ (ID b = bridge_id -> rehab = false ->
                      LAST_MINOR b' = year /\ same_but_minor b b')
                  /\ (ID b <> bridge_id -> b' = b))
    /\ (forall k, lists h' k = lists h k)
    /\ (forall l, ~ In l bridge_data -> rows h' l = rows h l)
    /\ (~ In bridge_id (map ID bs) ->
        read_collection h' bridge_data = Some bs).
Proof.
  intros h bridge_data bridge_id rehab_year rehab bs Hbs h' year.
  destruct (add_rehab_store bridge_id rehab_year rehab bridge_data h)
    as [Hlists Hrows].
  assert (Hread : read_collection h' bridge_data
                  = Some (map (with_rehab bridge_id year rehab) bs)).
  { unfold h'.
    rewrite (read_collection_pointwise
               (with_rehab bridge_id year rehab) h), Hbs; [reflexivity|].
    intros l Hl. unfold year. rewrite <- str_slice_6_10.
    now apply add_rehab_read. }
  split; [apply length_substring|].
  split; [|split; [|split]].
  - exists (map (with_rehab bridge_id year rehab) bs).
    split; [exact Hread|]. split; [apply length_map|].
    intros i b Hi. exists (with_rehab bridge_id year rehab b).
    split; [now rewrite nth_error_map, Hi|].
    unfold with_rehab.
    split; [|split].
    + intros E ->. apply Z.eqb_eq in E. rewrite E.
      split; [reflexivity|]. unfold same_but_major. simpl. tauto.
    + intros E ->. apply Z.eqb_eq in E. rewrite E.
      split; [reflexivity|]. unfold same_but_minor. simpl. tauto.
    + intros N. apply Z.eqb_neq in N. now rewrite N.
  - exact Hlists.
  - intros l Hl. unfold h'. rewrite Hrows.
    destruct (in_dec Nat.eq_dec l bridge_data); [contradiction|reflexivity].
  - intros Habs. rewrite Hread. f_equal.
    clear Hread Hbs. induction bs as [|b bs IH]; [reflexivity|].
    simpl in Habs |- *. rewrite IH by tauto.
    unfold with_rehab.
    destruct (Z.eqb_spec (ID b) bridge_id) as [E|N]; [tauto|reflexivity].
Qed.

Lemma reference_store_reads :
  read_collection reference_store reference_collection = Some THREE_BRIDGES.
Proof. reflexivity. Qed.

(** A year string of eight characters on the reference collection: the year
    stored has two characters. *)
Lemma C10_witness :
  String.length (substring 6 4 "09/15/20")
  = Nat.min 4 (String.length "09/15/20" - 6).
Proof.
  exact (proj1 (C10_add_rehab_stores_year_slice reference_store
                  reference_collection 1 "09/15/20" false THREE_BRIDGES
                  reference_store_reads)).
Defined.

(** The docstring example of [add_rehab]. *)
Lemma add_rehab_docstring_example :
  read_collection
    (add_rehab reference_store reference_collection 1 "09/15/2023" false)
    reference_collection
  = Some [set_LAST_MINOR bridge_1 "2023"; bridge_2; bridge_3].
Proof. reflexivity. Qed.

(** ** Inspections *)

Section InspectionFacts.

Variables (bridge_ids : list Z) (date : string) (bci : R).

Lemma with_inspection_date_idem {H : Type} (r : bridge_of H) :
  with_inspection_date bridge_ids date
    (with_inspection_date bridge_ids date r)
  = with_inspection_date bridge_ids date r.
Proof.
  unfold with_inspection_date.
  destruct (py_in (ID r) bridge_ids) eqn:E; [|now rewrite E].
  simpl. now rewrite E.
Qed.

Lemma with_inspection_date_ID {H : Type} (r : bridge_of H) :
  ID (with_inspection_date bridge_ids date r) = ID r.
Proof.
  unfold with_inspection_date. now destruct (py_in (ID r) bridge_ids).
Qed.

Lemma with_inspection_date_BCIS {H : Type} (r : bridge_of H) :
  BCIS (with_inspection_date bridge_ids date r) = BCIS r.
Proof.
  unfold with_inspection_date. now destruct (py_in (ID r) bridge_ids).
Qed.

(** Whether the record at [l] is inspected and keeps its history at [k]. *)
Let hit (h : store) (k l : loc) : bool :=
  match rows h l with
  | Some r => py_in (ID r) bridge_ids && Nat.eqb (BCIS r) k
  | None => false
  end.

(** One turn of the loop of [inspect_bridges]. *)
Let turn (h : store) (bridge : loc) : store :=
  match rows h bridge with
  | Some r =>
      if py_in (ID r) bridge_ids
      then
        let h := set_row h bridge (set_LAST_INSPECTED r date) in
        match lists h (BCIS r) with
        | Some history => set_list h (BCIS r) (py_insert history 0 bci)
        | None => h
        end
      else h
  | None => h
  end.

Lemma turn_rows (h : store) (a l : loc) :
  rows (turn h a) l
  = if Nat.eqb l a
    then option_map (with_inspection_date bridge_ids date) (rows h a)
    else rows h l.
Proof.
  unfold turn, with_inspection_date.
  destruct (rows h a) as [r|] eqn:Er.
  - simpl option_map. destruct (py_in (ID r) bridge_ids).
    + cbv zeta. simpl lists.
      destruct (lists h (BCIS r)); simpl;
        destruct (Nat.eqb l a); reflexivity.
    + destruct (Nat.eqb_spec l a) as [->|]; [exact Er|reflexivity].
  - destruct (Nat.eqb_spec l a) as [->|]; [exact Er|reflexivity].
Qed.

Lemma turn_lists (h : store) (a k : loc) :
  lists (turn h a) k
  = if hit h k a then option_map (cons bci) (lists h k) else lists h k.
Proof.
  unfold turn, hit.
  destruct (rows h a) as [r|]; [|reflexivity].
  destruct (py_in (ID r) bridge_ids); [|reflexivity].
  cbv zeta. simpl lists at 1. simpl andb.
  destruct (Nat.eqb_spec (BCIS r) k) as [<-|N].
  - destruct (lists h (BCIS r)) as [hist|] eqn:E; simpl.
    + now rewrite Nat.eqb_refl, py_insert_front.
    + exact E.
  - destruct (lists h (BCIS r)) as [hist|]; simpl; [|reflexivity].
    destruct (Nat.eqb_spec k (BCIS r)); [congruence|reflexivity].
Qed.

Lemma turn_hit (h : store) (a k l : loc) : hit (turn h a) k l = hit h k l.
Proof.
  unfold hit. rewrite turn_rows.
  destruct (Nat.eqb_spec l a) as [->|]; [|reflexivity].
  destruct (rows h a) as [r|]; simpl; [|reflexivity].
  now rewrite with_inspection_date_ID, with_inspection_date_BCIS.
Qed.

Lemma hits_turn (h : store) (a : loc) (bridge_data : list loc) (k : loc) :
  hits (turn h a) bridge_data bridge_ids k = hits h bridge_data bridge_ids k.
Proof.
  unfold hits. f_equal.
  induction bridge_data as [|l data IH]; simpl; [reflexivity|].
  change (match rows (turn h a) l with
          | Some r => py_in (ID r) bridge_ids && Nat.eqb (BCIS r) k
          | None => false
          end) with (hit (turn h a) k l).
  rewrite turn_hit, IH. reflexivity.
Qed.

(** The store after the loop of [inspect_bridges], cell by cell: a history
    gets the new BCI in front once for every position of the collection
    that is inspected and keeps its history there. *)
Lemma inspect_bridges_store (bridge_data : list loc) (h : store) :
  (forall l,
      rows (inspect_bridges h bridge_data bridge_ids date bci) l
      = if in_dec Nat.eq_dec l bridge_data
        then option_map (with_inspection_date bridge_ids date) (rows h l)
        else rows h l)
  /\ forall k,
       lists (inspect_bridges h bridge_data bridge_ids date bci) k
       = option_map
           (fun history =>
              repeat bci (hits h bridge_data bridge_ids k) ++ history)
           (lists h k).
Proof.
  unfold inspect_bridges. fold turn.
  revert h. induction bridge_data as [|a data IH]; intros h.
  - split; [reflexivity|]. intros k. simpl. now destruct (lists h k).
  - cbn [fold_left]. destruct (IH (turn h a)) as [IHr IHl]. split.
    + intros l. rewrite IHr, turn_rows.
      destruct (in_dec Nat.eq_dec l (a :: data)) as [Hin|Hout];
        destruct (in_dec Nat.eq_dec l data) as [Hd|Hd];
        destruct (Nat.eqb_spec l a) as [->|N];
        try reflexivity; simpl in *; try tauto.
      * destruct (rows h a); simpl; [|reflexivity].
        now rewrite with_inspection_date_idem.
      * exfalso. destruct Hin as [E|E]; [symmetry in E|]; contradiction.
    + intros k. rewrite IHl, hits_turn, turn_lists.
      unfold hits at 2. cbn [filter].
      change (match rows h a with
              | Some r => py_in (ID r) bridge_ids && Nat.eqb (BCIS r) k
              | None => false
              end) with (hit h k a).
      fold (hits h data bridge_ids k).
      destruct (hit h k a); [|reflexivity].
      destruct (lists h k) as [hist|]; simpl; [|reflexivity].
      f_equal. symmetry. apply repeat_cons_app.
Qed.

Lemma filter_none {A : Type} (p : A -> bool) (l : list A) :
  (forall x, In x l -> p x = false) -> filter p l = [].
Proof.
  induction l as [|y l IH]; simpl; intros H; [reflexivity|].
  rewrite (H y) by auto. apply IH. auto.
Qed.

Lemma count_single {A : Type} (p : A -> bool) (l : list A) (a : A) :
  NoDup l -> In a l ->
  (forall x, In x l -> p x = true -> x = a) ->
  length (filter p l) = if p a then 1%nat else 0%nat.
Proof.
  induction l as [|x l IH]; simpl; intros Hnd Ha Hp; [contradiction|].
  inversion Hnd as [|? ? Hx Hl]; subst.
  destruct Ha as [->|Ha].
  - assert (E : filter p l = []).
    { apply filter_none. intros y Hy.
      destruct (p y) eqn:Ey; [|reflexivity].
      exfalso. apply Hx. rewrite <- (Hp y (or_intror Hy) Ey). exact Hy. }
    destruct (p a); simpl; now rewrite E.
  - destruct (p x) eqn:Ex.
    + exfalso. apply Hx. rewrite (Hp x (or_introl eq_refl) Ex). exact Ha.
    + apply IH; auto.
Qed.

(** In a collection of distinct record lists with separate histories, an
    inspected record is hit once and no other is touched. *)
Lemma inspect_bridges_read (bridge_data : list loc) (h : store) (l : loc)
    (b : bridge) :
  NoDup bridge_data -> histories_separate h bridge_data ->
  In l bridge_data -> read_bridge h l = Some b ->
  read_bridge (inspect_bridges h bridge_data bridge_ids date bci) l
  = Some (if py_in (ID b) bridge_ids
          then with_BCIS (set_LAST_INSPECTED b date) (bci :: BCIS b)
          else b).
Proof.
  intros Hnd Hsep Hl Hb.
  destruct (inspect_bridges_store bridge_data h) as [Hrows Hlists].
  unfold read_bridge in Hb |- *. rewrite Hrows.
  destruct (in_dec Nat.eq_dec l bridge_data); [|contradiction].
  destruct (rows h l) as [r|] eqn:Er; [|discriminate]. simpl.
  rewrite with_inspection_date_BCIS, Hlists.
  destruct (lists h (BCIS r)) as [hist|]; [|discriminate].
  injection Hb as <-. simpl.
  unfold hits.
  rewrite (count_single _ bridge_data l Hnd Hl).
  - rewrite Er, Nat.eqb_refl, andb_true_r.
    unfold with_inspection_date.
    destruct (py_in (ID r) bridge_ids); reflexivity.
  - intros x Hx Hp. destruct (rows h x) as [rx|] eqn:Ex; [|discriminate].
    apply andb_true_iff in Hp. destruct Hp as [_ Hp].
    apply Nat.eqb_eq in Hp. exact (Hsep x l rx r Hx Hl Ex Er Hp).
Qed.

End InspectionFacts.

Lemma read_collection_In (h : store) (bridge_data : list loc)
    (bs : list bridge) (l : loc) :
  read_collection h bridge_data = Some bs -> In l bridge_data ->
  exists b, read_bridge h l = Some b.
Proof.
  intros H Hl. apply In_nth_error in Hl. destruct Hl as [i Hi].
  destruct (read_collection_nth h bridge_data bs H) as [_ Hnth].
  destruct (Hnth i l Hi) as [b [_ Hb]]. eauto.
Qed.

(** C8: [inspect_bridges] gives every record list of the collection whose id
    is in [bridge_ids] the new date, and puts the new BCI in front of a
    history list once for every position of the collection that is inspected
    and keeps its history there; nothing else in the store changes.  So on a
    collection of distinct record lists, each with a history list of its
    own, as the normalizer builds them, every record whose id is listed has
    the new date and the new BCI in front of its history, the earlier
    entries following in their order, and its other cells as they were, and
    the records whose id is not listed are the same after as before. *)
Theorem C8_inspect_bridges_updates_listed_records :
  forall (h : store) (bridge_data : list loc) (bridge_ids : list Z)
         (date : string) (bci : R),
    let h' := inspect_bridges h bridge_data bridge_ids date bci in
    (forall l,
        rows h' l
        = if in_dec Nat.eq_dec l bridge_data
          then option_map (with_inspection_date bridge_ids date) (rows h l)
          else rows h l)
    /\ (forall k,
           lists h' k
           = option_map
               (fun history =>
                  repeat bci (hits h bridge_data bridge_ids k) ++ history)
               (lists h k))
    /\ (forall bs : list bridge,
           NoDup bridge_data ->
           histories_separate h bridge_data ->
           read_collection h bridge_data = Some bs ->
           exists bs',
             read_collection h' bridge_data = Some bs'
             /\ length bs' = length bs
             /\ forall i b,
                  nth_error bs i = Some b ->
                  exists b',
                    nth_error bs' i = Some b'
                    /\ (In (ID b) bridge_ids ->
                        LAST_INSPECTED b' = date
                        /\ BCIS b' = bci :: BCIS b
                        /\ same_but_inspection b b')
                    /\ (~ In (ID b) bridge_ids -> b' = b)).
Proof.
  intros h bridge_data bridge_ids date bci h'.
  destruct (inspect_bridges_store bridge_ids date bci bridge_data h)
    as [Hrows Hlists].
  split; [exact Hrows|]. split; [exact Hlists|].
  intros bs Hnd Hsep Hbs.
  set (g := fun b : bridge =>
              if py_in (ID b) bridge_ids
              then with_BCIS (set_LAST_INSPECTED b date) (bci :: BCIS b)
              else b).
  assert (Hread : read_collection h' bridge_data = Some (map g bs)).
  { unfold h'. rewrite (read_collection_pointwise g h), Hbs; [reflexivity|].
    intros l Hl.
    destruct (read_collection_In h bridge_data bs l Hbs Hl) as [b Hb].
    rewrite Hb. simpl. now apply inspect_bridges_read. }
  exists (map g bs). split; [exact Hread|]. split; [apply length_map|].
  intros i b Hi. exists (g b).
  split; [now rewrite nth_error_map, Hi|]. unfold g. split.
  - intros Hin. apply py_in_In in Hin. rewrite Hin.
    unfold same_but_inspection. simpl. tauto.
  - intros Hout. apply py_in_not_In in Hout. now rewrite Hout.
Qed.

Lemma reference_store_separate :
  NoDup reference_collection
  /\ histories_separate reference_store reference_collection.
Proof.
  split.
  - unfold reference_collection.
    repeat constructor; simpl; intuition discriminate.
  - intros l1 l2 r1 r2 H1 H2 E1 E2 E.
    unfold reference_collection in H1, H2. simpl in H1, H2.
    destruct H1 as [<-|[<-|[<-|[]]]]; destruct H2 as [<-|[<-|[<-|[]]]];
      try reflexivity; simpl in E1, E2;
      injection E1 as <-; injection E2 as <-; discriminate.
Qed.

(** The docstring example of [inspect_bridges]. *)
Lemma inspect_bridges_docstring_example :
  read_collection
    (inspect_bridges reference_store reference_collection [1%Z]
       "09/15/2018" 71.9)
    reference_collection
  = Some [with_BCIS (set_LAST_INSPECTED bridge_1 "09/15/2018")
            [71.9; 72.3; 69.5; 70.0; 70.3; 70.5; 70.7; 72.9];
          bridge_2; bridge_3].
Proof. reflexivity. Qed.

(** The inspection of bridge 1 in the reference collection. *)
Lemma C8_witness :
  exists bs',
    read_collection
      (inspect_bridges reference_store reference_collection [1%Z]
         "09/15/2018" 71.9)
      reference_collection = Some bs'
    /\ length bs' = length THREE_BRIDGES.
Proof.
  destruct (C8_inspect_bridges_updates_listed_records reference_store
              reference_collection [1%Z] "09/15/2018" 71.9)
    as [_ [_ H]].
  destruct (H THREE_BRIDGES (proj1 reference_store_separate)
              (proj2 reference_store_separate) reference_store_reads)
    as [bs' [H1 [H2 _]]].
  exists bs'. split; assumption.
Defined.

(** A collection that holds the same record list twice puts the BCI in
    front of its history twice. *)
Lemma inspect_bridges_shared_record :
  read_collection
    (inspect_bridges reference_store [0; 0]%nat [1%Z] "09/15/2018" 71.9)
    [0%nat]
  = Some [with_BCIS (set_LAST_INSPECTED bridge_1 "09/15/2018")
            (71.9 :: 71.9 :: BCIS bridge_1)].
Proof. reflexivity. Qed.

(** * Further properties of the code *)

(** ** Lookup of a bridge *)

Lemma get_bridge_loop (bridge_id : Z) (l : list bridge) (acc : list pyval) :
  fold_left
    (fun data bridge =>
       if (ID bridge =? bridge_id)%Z then data ++ cells bridge else data)
    l acc
  = acc ++ concat (map cells (filter (fun b => (ID b =? bridge_id)%Z) l)).
Proof.
  revert acc. induction l as [|b l IH]; intros acc; simpl.
  - now rewrite app_nil_r.
  - rewrite IH. destruct (ID b =? bridge_id)%Z; simpl.
    + now rewrite <- app_assoc.
    + reflexivity.
Qed.

Lemma filter_id_absent (bridge_id : Z) (l : list bridge) :
  ~ In bridge_id (map ID l) ->
  filter (fun b => (ID b =? bridge_id)%Z) l = [].
Proof.
  intros H. apply filter_none. intros b Hb. apply Z.eqb_neq.
  intros E. apply H. rewrite <- E. now apply in_map.
Qed.

Lemma filter_id_unique (l : list bridge) (b : bridge) :
  NoDup (map ID l) -> In b l ->
  filter (fun b' => (ID b' =? ID b)%Z) l = [b].
Proof.
  induction l as [|a l IH]; simpl; intros Hnd Hb; [contradiction|].
  inversion Hnd as [|? ? Ha Hl]; subst.
  destruct Hb as [->|Hb].
  - rewrite Z.eqb_refl. f_equal. now apply filter_id_absent.
  - destruct (Z.eqb_spec (ID a) (ID b)) as [E|N].
    + exfalso. apply Ha. rewrite E. now apply in_map.
    + now apply IH.
Qed.

Lemma length_concat_cells (l : list bridge) :
  length (concat (map cells l)) = (13 * length l)%nat.
Proof.
  induction l as [|b l IH]; [reflexivity|].
  cbn [map concat]. rewrite length_app, IH. simpl. lia.
Qed.

(** X1: [get_bridge] returns the cells of every record that has the id, one
    record after the other in collection order: nothing for an absent id,
    the record itself when the ids are unique, and 13 cells per record when
    several records share the id. *)
Theorem X1_get_bridge_concatenates_matches :
  forall (bridge_data : list bridge) (bridge_id : Z),
    get_bridge bridge_data bridge_id
    = concat (map cells
                (filter (fun b => (ID b =? bridge_id)%Z) bridge_data))
    /\ (~ In bridge_id (map ID bridge_data) ->
        get_bridge bridge_data bridge_id = [])
    /\ (forall b, NoDup (map ID bridge_data) -> In b bridge_data ->
                  ID b = bridge_id ->
                  get_bridge bridge_data bridge_id = cells b)
    /\ length (get_bridge bridge_data bridge_id)
       = (13 * length (filter (fun b => (ID b =? bridge_id)%Z)
                              bridge_data))%nat.
Proof.
  intros bridge_data bridge_id.
  assert (E : get_bridge bridge_data bridge_id
              = concat (map cells
                          (filter (fun b => (ID b =? bridge_id)%Z)
                                  bridge_data)))
    by apply (get_bridge_loop bridge_id bridge_data []).
  split; [exact E|]. split; [|split].
  - intros H. now rewrite E, filter_id_absent.
  - intros b Hnd Hb <-. rewrite E, filter_id_unique by assumption.
    reflexivity.
  - rewrite E. apply length_concat_cells.
Qed.

(** No record of the reference collection has the id 42. *)
Lemma X1_witness : get_bridge THREE_BRIDGES 42 = [].
Proof.
  apply (X1_get_bridge_concatenates_matches THREE_BRIDGES 42).
  simpl. intuition discriminate.
Defined.

(** ** Total length on a highway *)

Lemma total_length_loop (highway : string) (l : list bridge) (acc : R) :
  fold_left
    (fun total_length bridge =>
       if String.eqb (HIGHWAY bridge) highway
       then total_length + LENGTH bridge
       else total_length)
    l acc
  = fold_left Rplus
      (map LENGTH (filter (fun b => String.eqb (HIGHWAY b) highway) l)) acc.
Proof.
  revert acc. induction l as [|b l IH]; intros acc; simpl; [reflexivity|].
  rewrite IH. now destruct (String.eqb (HIGHWAY b) highway).
Qed.

(** X2: [get_total_length_on_hwy] adds up, in collection order, the lengths
    of the records whose highway is the given string, character for
    character: the records of other highways do not count, and the total is
    [0.0] when no record is on the highway. *)
Theorem X2_total_length_counts_the_highway_only :
  forall (bridge_data : list bridge) (highway : string),
    let on_highway := fun b : bridge => String.eqb (HIGHWAY b) highway in
    get_total_length_on_hwy bridge_data highway
    = fold_left Rplus (map LENGTH (filter on_highway bridge_data)) 0
    /\ get_total_length_on_hwy bridge_data highway
       = get_total_length_on_hwy (filter on_highway bridge_data) highway
    /\ ((forall b, In b bridge_data -> HIGHWAY b <> highway) ->
        get_total_length_on_hwy bridge_data highway = 0).
Proof.
  intros bridge_data highway on_highway.
  unfold get_total_length_on_hwy.
  replace 0.0 with 0 by lra.
  rewrite !total_length_loop. fold on_highway.
  split; [reflexivity|]. split.
  - f_equal. f_equal. clear.
    induction bridge_data as [|b l IH]; simpl; [reflexivity|].
    destruct (on_highway b) eqn:E; simpl; [rewrite E|]; now rewrite <- IH.
  - intros H. rewrite filter_none; [reflexivity|].
    intros b Hb. apply String.eqb_neq. now apply H.
Qed.

(** No record of the reference collection is on highway 69. *)
Lemma X2_witness : get_total_length_on_hwy THREE_BRIDGES "69" = 0.
Proof.
  apply (X2_total_length_counts_the_highway_only THREE_BRIDGES "69").
  intros b [<-|[<-|[<-|[]]]]; discriminate.
Defined.

(** ** Bridges at or below a BCI *)

Section BciBelow.

Variables (id_list : list Z) (bci : R).

(** The record is listed and its current BCI is at most [bci]. *)
Let listed_below (b : bridge) : bool :=
  py_in (ID b) id_list && bci_satisfies (fun first => Rleb first bci) b.

Let body (bridge_list : list Z) (bridge : bridge) : result (list Z) :=
  if py_in (ID bridge) id_list
  then
    first <- py_index (BCIS bridge) 0 ;;
    if Rleb first bci
    then Ok (bridge_list ++ [ID bridge])
    else Ok bridge_list
  else Ok bridge_list.

Lemma bci_below_step (acc : list Z) (b : bridge) :
  (In (ID b) id_list -> BCIS b <> []) ->
  body acc b = Ok (acc ++ map ID (filter listed_below [b])).
Proof.
  intros H. unfold body, listed_below, bci_satisfies, current_bci. simpl.
  destruct (py_in (ID b) id_list) eqn:E; simpl.
  - apply py_in_In in E. specialize (H E).
    destruct (BCIS b) as [|first h]; [congruence|].
    change (py_index (first :: h) 0) with (Ok first). simpl.
    destruct (Rleb first bci); simpl; [reflexivity | now rewrite app_nil_r].
  - now rewrite app_nil_r.
Qed.

Lemma bci_below_step_raises (acc : list Z) (b : bridge) :
  In (ID b) id_list -> BCIS b = [] -> body acc b = Raise IndexError.
Proof.
  intros Hin Hb. unfold body. apply py_in_In in Hin. now rewrite Hin, Hb.
Qed.

Lemma bci_below_loop (l : list bridge) (acc : list Z) :
  (forall b, In b l -> In (ID b) id_list -> BCIS b <> []) ->
  for_each body l acc = Ok (acc ++ map ID (filter listed_below l)).
Proof.
  revert acc. induction l as [|b l IH]; intros acc H; simpl.
  - now rewrite app_nil_r.
  - rewrite bci_below_step by (intros; apply H; simpl; auto). simpl bind.
    rewrite IH by (intros; apply H; simpl; auto). f_equal. simpl.
    destruct (listed_below b); simpl; now rewrite <- ?app_assoc, ?app_nil_r.
Qed.

Lemma bci_below_loop_raises (l : list bridge) (acc : list Z) :
  (exists b, In b l /\ In (ID b) id_list /\ BCIS b = []) ->
  for_each body l acc = Raise IndexError.
Proof.
  revert acc. induction l as [|a l IH]; intros acc [b [Hb [Hin He]]];
    simpl in Hb |- *; [contradiction|].
  assert (Hd : (In (ID a) id_list /\ BCIS a = [])
               \/ (In (ID a) id_list -> BCIS a <> [])).
  { destruct (in_dec Z.eq_dec (ID a) id_list) as [Ha|Ha]; [|tauto].
    destruct (BCIS a); [left; tauto | right; discriminate]. }
  destruct Hd as [[Ha1 Ha2]|Hn].
  - now rewrite bci_below_step_raises.
  - rewrite bci_below_step by assumption. simpl bind.
    apply IH. destruct Hb as [->|Hb]; [tauto|]. eauto.
Qed.

End BciBelow.

(** X3: [get_bridges_with_bci_below] returns, in collection order, the ids
    of the records whose id is in [id_list] and whose current BCI is at most
    [bci].  It returns when every listed record has a BCI, and raises
    [IndexError] as soon as one has none; the records that are not listed
    are not read, so an empty [id_list] gives the empty list on every
    collection. *)
Theorem X3_bci_below_filters_listed_records :
  forall (bridge_data : list bridge) (id_list : list Z) (bci : R),
    ((forall b, In b bridge_data -> In (ID b) id_list -> BCIS b <> []) ->
     get_bridges_with_bci_below bridge_data id_list bci
     = Ok (map ID
             (filter (fun b => py_in (ID b) id_list
                               && bci_satisfies (fun first => Rleb first bci)
                                    b)
                     bridge_data)))
    /\ ((exists b, In b bridge_data /\ In (ID b) id_list /\ BCIS b = []) ->
        get_bridges_with_bci_below bridge_data id_list bci
        = Raise IndexError)
    /\ get_bridges_with_bci_below bridge_data [] bci = Ok [].
Proof.
  intros bridge_data id_list bci. split; [|split].
  - intros H. apply (bci_below_loop id_list bci bridge_data [] H).
  - apply bci_below_loop_raises.
  - unfold get_bridges_with_bci_below.
    rewrite (bci_below_loop [] bci bridge_data []) by (intros b _ []).
    f_equal. simpl. induction bridge_data as [|b l IH]; [reflexivity|].
    simpl. exact IH.
Qed.

(** The docstring inputs: ids 1 and 2, BCI bound 72. *)
Lemma X3_witness :
  get_bridges_with_bci_below THREE_BRIDGES [1; 2]%Z 72
  = Ok (map ID
          (filter (fun b => py_in (ID b) [1; 2]%Z
                            && bci_satisfies (fun first => Rleb first 72) b)
                  THREE_BRIDGES)).
Proof.
  apply (X3_bci_below_filters_listed_records THREE_BRIDGES [1; 2]%Z 72).
  intros b Hb _. now apply three_bridges_histories.
Defined.

(** X4: with unique ids, filtering the result of the radius search by BCI
    gives the ids of the records that lie within the radius and whose
    current BCI is at most [bci]. *)
Theorem X4_bci_below_of_radius_search :
  forall (K : Constants) (bridge_data : list bridge)
         (latitude longtitude radius bci : R),
    NoDup (map ID bridge_data) ->
    (forall b, In b bridge_data -> BCIS b <> []) ->
    get_bridges_with_bci_below bridge_data
      (get_bridges_in_radius bridge_data latitude longtitude radius) bci
    = Ok (map ID
            (filter (fun b => within b (latitude, longtitude) radius
                              && bci_satisfies (fun first => Rleb first bci)
                                   b)
                    bridge_data)).
Proof.
  intros K bridge_data latitude longtitude radius bci Hnd Hb.
  unfold get_bridges_with_bci_below.
  rewrite (bci_below_loop _ bci bridge_data []) by auto.
  simpl. f_equal. f_equal.
  assert (H : forall (f g : bridge -> bool) (l : list bridge),
             (forall b, In b l -> f b = g b) -> filter f l = filter g l).
  { intros f g l. induction l as [|a l IH]; simpl; intros E; [reflexivity|].
    rewrite (E a), IH by auto. reflexivity. }
  apply H. intros b Hin.
  now rewrite (in_radius_within bridge_data b (latitude, longtitude) radius).
Qed.

(** The reference collection, radius 50 around (43.10, -80.15), BCI bound
    72. *)
Lemma X4_witness :
  get_bridges_with_bci_below THREE_BRIDGES
    (get_bridges_in_radius (K := reference_constants) THREE_BRIDGES
       43.10 (-80.15) 50) 72
  = Ok (map ID
          (filter (fun b => within (K := reference_constants) b
                              (43.10, -80.15) 50
                            && bci_satisfies (fun first => Rleb first 72) b)
                  THREE_BRIDGES)).
Proof.
  apply (X4_bci_below_of_radius_search reference_constants).
  - exact three_bridges_ids.
  - exact three_bridges_histories.
Defined.

(** ** Search by name *)

Lemma prefix_app (sub s : string) :
  prefix sub s = true <-> exists post, s = (sub ++ post)%string.
Proof.
  revert s. induction sub as [|c sub IH]; intros s; simpl.
  - split; [intros _; exists s; reflexivity | destruct s; reflexivity].
  - destruct s as [|d s].
    + split; [discriminate | intros [post E]; discriminate].
    + simpl. destruct (Ascii.ascii_dec c d) as [e|N].
      * subst d. destruct (IH s) as [IH1 IH2]. split.
        -- intros H. destruct (IH1 H) as [post E]. exists post.
           now rewrite E.
        -- intros [post E]. injection E as E. apply IH2. eauto.
      * split; [discriminate|]. intros [post E]. injection E as E1 E2.
        congruence.
Qed.

(** [sub in s] holds exactly when [sub] is a piece of [s]. *)
Lemma str_in_piece (sub s : string) :
  str_in sub s = true
  <-> exists pre post, s = (pre ++ sub ++ post)%string.
Proof.
  induction s as [|d s IH].
  - cbn [str_in]. destruct (prefix sub EmptyString) eqn:P.
    + apply prefix_app in P. destruct P as [post E].
      split; [intros _; exists EmptyString, post; exact E | reflexivity].
    + split; [discriminate|]. intros [pre [post E]].
      destruct pre; [|discriminate]. simpl in E.
      assert (prefix sub EmptyString = true)
        by (apply prefix_app; eauto).
      congruence.
  - cbn [str_in]. destruct (prefix sub (String d s)) eqn:P.
    + apply prefix_app in P. destruct P as [post E].
      split; [intros _; exists EmptyString, post; exact E | reflexivity].
    + rewrite IH. split.
      * intros [pre [post E]]. exists (String d pre), post.
        simpl. now rewrite E.
      * intros [pre [post E]]. destruct pre as [|c pre].
        -- simpl in E.
           assert (prefix sub (String d s) = true)
             by (apply prefix_app; eauto).
           congruence.
        -- simpl in E. injection E as _ E. eauto.
Qed.

Lemma str_in_empty (s : string) : str_in EmptyString s = true.
Proof. destruct s; reflexivity. Qed.

Lemma containing_loop (lower : string -> string) (search : string)
    (l : list bridge) (acc : list Z) :
  fold_left
    (fun bridges_list bridge =>
       if str_in (lower search) (lower (NAME bridge))
       then bridges_list ++ [ID bridge]
       else bridges_list)
    l acc
  = acc ++ map ID (filter (fun b => str_in (lower search) (lower (NAME b)))
                          l).
Proof.
  revert acc. induction l as [|b l IH]; intros acc; simpl.
  - now rewrite app_nil_r.
  - rewrite IH. destruct (str_in _ _); simpl.
    + now rewrite <- app_assoc.
    + reflexivity.
Qed.

(** X5: [get_bridges_containing] returns, in collection order, the ids of
    the records whose lowered name has the lowered search string as a piece:
    an id is returned exactly when the lowered name of one of its records is
    some text, the lowered search string, some text.  As lowering the empty
    string gives the empty string, the empty search string returns every
    id. *)
Theorem X5_containing_matches_pieces_of_names :
  forall (lower : string -> string) (bridge_data : list bridge)
         (search : string),
    get_bridges_containing lower bridge_data search
    = map ID (filter (fun b => str_in (lower search) (lower (NAME b)))
                     bridge_data)
    /\ (forall x,
           In x (get_bridges_containing lower bridge_data search)
           <-> exists b pre post,
                 In b bridge_data /\ ID b = x
                 /\ lower (NAME b)
                    = (pre ++ lower search ++ post)%string)
    /\ (lower EmptyString = EmptyString ->
        get_bridges_containing lower bridge_data EmptyString
        = map ID bridge_data).
Proof.
  intros lower bridge_data search.
  assert (E : forall search',
             get_bridges_containing lower bridge_data search'
             = map ID (filter (fun b => str_in (lower search')
                                          (lower (NAME b)))
                              bridge_data))
    by (intros; apply (containing_loop lower _ bridge_data [])).
  split; [apply E|]. split.
  - intros x. rewrite E, in_map_iff. split.
    + intros [b [Eb Hb]]. apply filter_In in Hb. destruct Hb as [Hb Hs].
      apply str_in_piece in Hs. destruct Hs as [pre [post Hs]].
      exists b, pre, post. auto.
    + intros [b [pre [post [Hb [Eb Hs]]]]]. exists b. split; [exact Eb|].
      apply filter_In. split; [exact Hb|]. apply str_in_piece. eauto.
  - intros H0. rewrite E, H0. f_equal. clear E.
    induction bridge_data as [|b l IH]; [reflexivity|]. cbn [filter].
    rewrite str_in_empty. f_equal. exact IH.
Qed.

(** The empty search string over the reference collection. *)
Lemma X5_witness :
  get_bridges_containing lower_ascii THREE_BRIDGES EmptyString
  = map ID THREE_BRIDGES.
Proof.
  apply (X5_containing_matches_pieces_of_names lower_ascii THREE_BRIDGES
           EmptyString).
  reflexivity.
Defined.

(** The docstring example: the search is blind to the case of the
    letters. *)
Lemma get_bridges_containing_docstring_example :
  get_bridges_containing lower_ascii THREE_BRIDGES "underpass"
  = [1; 2]%Z.
Proof. reflexivity. Qed.

(** ** Average BCI *)

(** X6: [get_average_bci] reads the first record that has the id and no
    other: it returns [0] when no record has the id, the sum of the history
    of that first record divided by its length when the history is not
    empty, and raises [ZeroDivisionError] when it is empty, whatever the
    records after it hold. *)
Theorem X6_average_bci_reads_first_match :
  forall (bridge_data : list bridge) (bridge_id : Z),
    (~ In bridge_id (map ID bridge_data) ->
     get_average_bci bridge_data bridge_id = Ok 0)
    /\ (forall before b after,
           bridge_data = before ++ b :: after ->
           ~ In bridge_id (map ID before) -> ID b = bridge_id ->
           (BCIS b <> [] ->
            get_average_bci bridge_data bridge_id
            = Ok (sum (BCIS b) / INR (length (BCIS b))))
           /\ (BCIS b = [] ->
               get_average_bci bridge_data bridge_id
               = Raise ZeroDivisionError)).
Proof.
  intros bridge_data bridge_id. split.
  - apply get_average_bci_returns.
  - intros before b after -> Hb E.
    assert (G : get_average_bci (before ++ b :: after) bridge_id
                = py_div (sum (BCIS b)) (Z.of_nat (length (BCIS b)))).
    { induction before as [|a l IH]; simpl.
      - now rewrite E, Z.eqb_refl.
      - simpl in Hb.
        destruct (Z.eqb_spec (ID a) bridge_id) as [Ea|N]; [tauto|].
        apply IH. tauto. }
    rewrite G. unfold py_div. split.
    + intros Hne. destruct (BCIS b) as [|x h]; [congruence|].
      replace (Z.of_nat (length (x :: h)) =? 0)%Z with false
        by (symmetry; apply Z.eqb_neq; simpl; lia).
      now rewrite <- INR_IZR_INZ.
    + intros ->. reflexivity.
Qed.

(** Bridge 2 is the second record of the reference collection. *)
Lemma X6_witness :
  get_average_bci THREE_BRIDGES 2
  = Ok (sum (BCIS bridge_2) / INR (length (BCIS bridge_2))).
Proof.
  apply (X6_average_bci_reads_first_match THREE_BRIDGES 2)
    with (before := [bridge_1]) (after := [bridge_3]).
  - reflexivity.
  - simpl. intuition discriminate.
  - reflexivity.
  - discriminate.
Defined.

(** ** Closest bridge *)

Lemma for_each_app {A S : Type} (body : S -> A -> result S) (l1 l2 : list A)
    (s : S) :
  for_each body (l1 ++ l2) s
  = s1 <- for_each body l1 s ;; for_each body l2 s1.
Proof.
  revert s. induction l1 as [|a l1 IH]; intros s; simpl; [reflexivity|].
  destruct (body s a) as [s'|e]; simpl; [apply IH | reflexivity].
Qed.

Lemma py_index_nth {A : Type} (l : list A) (a : nat) :
  (a < length l)%nat ->
  exists x, py_index l (Z.of_nat a) = Ok x
            /\ skipn a l = x :: skipn (S a) l.
Proof.
  intros H. unfold py_index.
  replace (Z.of_nat a <? 0)%Z with false by (symmetry; apply Z.ltb_ge; lia).
  replace ((Z.of_nat a <? 0) || (Z.of_nat (length l) <=? Z.of_nat a))%Z
    with false
    by (symmetry; apply orb_false_iff; split;
        [apply Z.ltb_ge | apply Z.leb_gt]; lia).
  rewrite Nat2Z.id.
  revert a H. induction l as [|y l IH]; intros a H; simpl in H; [lia|].
  destruct a as [|a]; simpl; [eauto|]. apply IH. lia.
Qed.

Lemma py_index_raises {A : Type} (l : list A) (i : Z) (e : exn) :
  py_index l i = Raise e -> e = IndexError.
Proof.
  unfold py_index. destruct (_ || _)%bool; [congruence|].
  destruct (nth_error _ _); congruence.
Qed.

(** A loop over the positions of a list is a loop over its elements. *)
Lemma index_loop {A S : Type} (l : list A) (body : S -> Z -> result S)
    (f : S -> A -> result S) :
  (forall s i, body s i = x <- py_index l i ;; f s x) ->
  forall k a s,
    (a + k <= length l)%nat ->
    for_each body (map Z.of_nat (seq a k)) s
    = for_each f (firstn k (skipn a l)) s.
Proof.
  intros Hbody. induction k as [|k IH]; intros a s H; [reflexivity|].
  destruct (py_index_nth l a) as [x [Hx Hs]]; [lia|].
  simpl. rewrite Hbody, Hx, Hs. simpl.
  destruct (f s x) as [s'|e]; simpl; [|reflexivity].
  apply IH. lia.
Qed.

Lemma range_pred_length (n : nat) :
  range (Z.of_nat n - 1) = map Z.of_nat (seq 0 (pred n)).
Proof.
  unfold range. f_equal. f_equal. lia.
Qed.

Section ClosestFacts.

Context {K : Constants}.

Variables (bridge_data : list bridge) (bridge_id : Z).

(** One turn of the loop of [get_closest_bridge], on the record itself. *)
Let turn (s : ext_float * Z) (bridge_i : bridge) : result (ext_float * Z) :=
  if negb (ID bridge_i =? bridge_id)%Z
  then
    other <- py_index bridge_data bridge_id ;;
    if ext_gtb (fst s) (get_distance_between bridge_i other)
    then Ok (Finite (get_distance_between bridge_i other), ID bridge_i)
    else Ok s
  else Ok s.

Lemma get_closest_bridge_loop :
  get_closest_bridge bridge_data bridge_id
  = final <- for_each turn (removelast bridge_data) (Infinity, 0%Z) ;;
    Ok (snd final).
Proof.
  unfold get_closest_bridge. cbv zeta. rewrite range_pred_length.
  rewrite (index_loop bridge_data _ turn).
  - simpl skipn. now rewrite <- removelast_firstn_len.
  - intros [d index] i. unfold turn. simpl fst.
    destruct (py_index bridge_data i) as [b|e]; reflexivity.
  - lia.
Qed.

Lemma turn_loop_no_candidate (l : list bridge) (s : ext_float * Z) :
  (forall c, In c l -> ID c = bridge_id) -> for_each turn l s = Ok s.
Proof.
  induction l as [|c l IH]; simpl; intros H; [reflexivity|].
  unfold turn at 1. rewrite (H c) by auto. rewrite Z.eqb_refl. simpl.
  apply IH. auto.
Qed.

Lemma turn_loop_raises (l : list bridge) (s : ext_float * Z) (e : exn) :
  py_index bridge_data bridge_id = Raise e ->
  (exists c, In c l /\ ID c <> bridge_id) ->
  for_each turn l s = Raise e.
Proof.
  intros He. induction l as [|c l IH]; simpl; intros [c' [Hc' N]];
    [contradiction|].
  unfold turn at 1.
  destruct (Z.eqb_spec (ID c) bridge_id) as [E|Nc]; simpl.
  - apply IH. destruct Hc' as [->|Hc']; [contradiction|]. eauto.
  - now rewrite He.
Qed.

(** The loop keeps the first record that is closest to [other]. *)
Lemma turn_loop_closest (other : bridge) (l : list bridge) :
  py_index bridge_data bridge_id = Ok other ->
  forall (d : ext_float) (index : Z),
  exists d' index',
    for_each turn l (d, index) = Ok (d', index')
    /\ ((d' = d /\ index' = index
         /\ forall c, In c l -> ID c <> bridge_id ->
                      ext_gtb d (get_distance_between c other) = false)
        \/ exists l1 c l2,
             l = l1 ++ c :: l2 /\ ID c <> bridge_id
             /\ d' = Finite (get_distance_between c other)
             /\ index' = ID c
             /\ ext_gtb d (get_distance_between c other) = true
             /\ (forall c', In c' l1 -> ID c' <> bridge_id ->
                   get_distance_between c other
                   < get_distance_between c' other)
             /\ (forall c', In c' l2 -> ID c' <> bridge_id ->
                   get_distance_between c other
                   <= get_distance_between c' other)).
Proof.
  intros Ho. induction l as [|c0 l IH]; intros d index.
  - exists d, index. split; [reflexivity|]. left. repeat split.
    intros c [].
  - simpl. unfold turn at 1. simpl fst.
    destruct (Z.eqb_spec (ID c0) bridge_id) as [E0|N0]; simpl.
    + destruct (IH d index) as [d' [index' [Hrun Hcase]]].
      exists d', index'. split; [exact Hrun|].
      destruct Hcase as [[-> [-> Hall]]|[l1 [c [l2 H]]]].
      * left. repeat split. intros c [<-|Hc] N; [contradiction|auto].
      * destruct H as [-> [N [-> [-> [Hgt [H1 H2]]]]]].
        right. exists (c0 :: l1), c, l2. repeat split; auto.
        intros c' [<-|Hc'] N'; [contradiction|auto].
    + rewrite Ho. simpl.
      destruct (ext_gtb d (get_distance_between c0 other)) eqn:G.
      * destruct (IH (Finite (get_distance_between c0 other)) (ID c0))
          as [d' [index' [Hrun Hcase]]].
        exists d', index'. split; [exact Hrun|]. right.
        destruct Hcase as [[-> [-> Hall]]|[l1 [c [l2 H]]]].
        -- exists [], c0, l. repeat split; auto.
           ++ intros c' [].
           ++ intros c' Hc' N'. specialize (Hall c' Hc' N').
              simpl in Hall. now apply Rltb_false in Hall.
        -- destruct H as [-> [N [-> [-> [Hgt [H1 H2]]]]]].
           simpl in Hgt. apply Rltb_true in Hgt.
           exists (c0 :: l1), c, l2. repeat split; auto.
           ++ destruct d as [y|]; [|reflexivity]. simpl in G |- *.
              apply Rltb_true in G. apply Rltb_true. lra.
           ++ intros c' [<-|Hc'] N'; [exact Hgt|auto].
      * destruct (IH d index) as [d' [index' [Hrun Hcase]]].
        exists d', index'. split; [exact Hrun|].
        destruct Hcase as [[-> [-> Hall]]|[l1 [c [l2 H]]]].
        -- left. repeat split. intros c [<-|Hc] N; [exact G|auto].
        -- destruct H as [-> [N [-> [-> [Hgt [H1 H2]]]]]].
           right. exists (c0 :: l1), c, l2. repeat split; auto.
           intros c' [<-|Hc'] N'; [|auto].
           destruct d as [y|]; [|discriminate]. simpl in G, Hgt.
           apply Rltb_false in G. apply Rltb_true in Hgt. lra.
Qed.

End ClosestFacts.

(** X7: [get_closest_bridge] compares the records before the last one whose
    id is not [bridge_id] with the record at list position [bridge_id].
    Without such a record it returns [0]; with one, it raises [IndexError]
    when [bridge_id] is no position of the list, and otherwise returns the
    id of the first of them whose distance to the record at that position
    is smallest. *)
Theorem X7_closest_bridge_measures_to_position :
  forall (K : Constants) (bridge_data : list bridge) (bridge_id : Z),
    (closest_candidates bridge_data bridge_id = [] ->
     get_closest_bridge bridge_data bridge_id = Ok 0%Z)
    /\ (closest_candidates bridge_data bridge_id <> [] ->
        (bridge_id < - Z.of_nat (length bridge_data)
         \/ Z.of_nat (length bridge_data) <= bridge_id)%Z ->
        get_closest_bridge bridge_data bridge_id = Raise IndexError)
    /\ (forall other,
           closest_candidates bridge_data bridge_id <> [] ->
           py_index bridge_data bridge_id = Ok other ->
           exists l1 c l2,
             removelast bridge_data = l1 ++ c :: l2
             /\ ID c <> bridge_id
             /\ get_closest_bridge bridge_data bridge_id = Ok (ID c)
             /\ (forall c', In c' l1 -> ID c' <> bridge_id ->
                   get_distance_between c other
                   < get_distance_between c' other)
             /\ (forall c', In c' l2 -> ID c' <> bridge_id ->
                   get_distance_between c other
                   <= get_distance_between c' other)).
Proof.
  intros K bridge_data bridge_id.
  assert (Hcand : closest_candidates bridge_data bridge_id <> [] ->
                  exists c, In c (removelast bridge_data)
                            /\ ID c <> bridge_id).
  { unfold closest_candidates. intros H.
    destruct (filter _ (removelast bridge_data)) as [|c l] eqn:E;
      [congruence|].
    assert (Hc : In c (c :: l)) by (left; reflexivity).
    rewrite <- E in Hc. apply filter_In in Hc. destruct Hc as [Hc Hn].
    exists c. split; [exact Hc|].
    apply negb_true_iff, Z.eqb_neq in Hn. exact Hn. }
  rewrite get_closest_bridge_loop. split; [|split].
  - intros H. rewrite turn_loop_no_candidate; [reflexivity|].
    intros c Hc. unfold closest_candidates in H.
    destruct (Z.eqb_spec (ID c) bridge_id) as [E|N]; [exact E|exfalso].
    assert (Hin : In c (filter (fun b => negb (ID b =? bridge_id)%Z)
                          (removelast bridge_data))).
    { apply filter_In. split; [exact Hc|].
      apply negb_true_iff, Z.eqb_neq. exact N. }
    rewrite H in Hin. exact Hin.
  - intros H Hrange.
    assert (He : py_index bridge_data bridge_id = Raise IndexError).
    { unfold py_index.
      destruct (bridge_id <? 0)%Z eqn:Eneg.
      - apply Z.ltb_lt in Eneg.
        replace ((bridge_id + Z.of_nat (length bridge_data) <? 0)
                 || (Z.of_nat (length bridge_data)
                     <=? bridge_id + Z.of_nat (length bridge_data)))%Z
          with true; [reflexivity|].
        symmetry. apply orb_true_iff. left. apply Z.ltb_lt. lia.
      - apply Z.ltb_ge in Eneg.
        replace ((bridge_id <? 0)
                 || (Z.of_nat (length bridge_data) <=? bridge_id))%Z
          with true; [reflexivity|].
        symmetry. apply orb_true_iff. right. apply Z.leb_le. lia. }
    rewrite (turn_loop_raises bridge_data bridge_id _ _ IndexError He
               (Hcand H)).
    reflexivity.
  - intros other H Ho.
    destruct (turn_loop_closest bridge_data bridge_id other
                (removelast bridge_data) Ho Infinity 0%Z)
      as [d' [index' [Hrun Hcase]]].
    destruct Hcase as [[_ [_ Hall]]|[l1 [c [l2 Hc]]]].
    + exfalso. destruct (Hcand H) as [c [Hc N]].
      specialize (Hall c Hc N). discriminate.
    + destruct Hc as [E [N [-> [-> [_ [H1 H2]]]]]].
      exists l1, c, l2. rewrite Hrun. simpl. auto.
Qed.

(** On a single record nothing is compared. *)
Lemma X7_witness :
  get_closest_bridge (K := reference_constants) [bridge_1] 7 = Ok 0%Z.
Proof.
  apply (X7_closest_bridge_measures_to_position reference_constants
           [bridge_1] 7).
  reflexivity.
Defined.

Section NextRecord.

Context {K : Constants}.

Variables (bridge_data : list bridge) (bridge_id : Z) (other : bridge).

Hypothesis earth : 0 <= EARTH_RADIUS.
Hypothesis at_position : py_index bridge_data bridge_id = Ok other.
Hypothesis other_id : ID other <> bridge_id.

Let turn (s : ext_float * Z) (bridge_i : bridge) : result (ext_float * Z) :=
  if negb (ID bridge_i =? bridge_id)%Z
  then
    other <- py_index bridge_data bridge_id ;;
    if ext_gtb (fst s) (get_distance_between bridge_i other)
    then Ok (Finite (get_distance_between bridge_i other), ID bridge_i)
    else Ok s
  else Ok s.

(** The smallest distance seen is infinite or above [0]. *)
Let positive (s : ext_float * Z) : Prop :=
  match fst s with
  | Finite y => 0 < y
  | Infinity => True
  end.

Lemma turn_loop_positive (l : list bridge) (s : ext_float * Z) :
  positive s ->
  (forall c, In c l -> ID c <> bridge_id ->
             0 < get_distance_between c other) ->
  exists s', for_each turn l s = Ok s' /\ positive s'.
Proof.
  revert s. induction l as [|c l IH]; simpl; intros s Hs H; [eauto|].
  unfold turn at 1. rewrite at_position.
  destruct (Z.eqb_spec (ID c) bridge_id) as [E|N]; simpl.
  - apply IH; auto.
  - destruct (ext_gtb (fst s) (get_distance_between c other)).
    + apply IH; auto. unfold positive. simpl. apply H; auto.
    + apply IH; auto.
Qed.

Lemma turn_loop_at_zero (l : list bridge) (index : Z) :
  for_each turn l (Finite 0, index) = Ok (Finite 0, index).
Proof.
  induction l as [|c l IH]; simpl; [reflexivity|].
  unfold turn at 1. rewrite at_position.
  destruct (negb (ID c =? bridge_id)%Z); simpl; [|exact IH].
  replace (Rltb (get_distance_between c other) 0) with false; [exact IH|].
  symmetry. apply Rltb_false.
  apply calculate_distance_nonneg. exact earth.
Qed.

Lemma next_record_returned (l1 l2 : list bridge) :
  removelast bridge_data = l1 ++ other :: l2 ->
  (forall c, In c l1 -> ID c <> bridge_id ->
             0 < get_distance_between c other) ->
  get_closest_bridge bridge_data bridge_id = Ok (ID other).
Proof.
  intros E H. rewrite get_closest_bridge_loop, E, for_each_app.
  fold turn.
  destruct (turn_loop_positive l1 (Infinity, 0%Z) I H) as [s1 [Hrun Hpos]].
  rewrite Hrun. simpl bind. cbn [for_each].
  unfold turn at 1. rewrite at_position.
  replace (negb (ID other =? bridge_id)%Z) with true
    by (symmetry; apply negb_true_iff, Z.eqb_neq; exact other_id).
  simpl bind. unfold get_distance_between at 1 2.
  rewrite calculate_distance_self.
  replace (ext_gtb (fst s1) 0) with true.
  - simpl bind. rewrite turn_loop_at_zero. reflexivity.
  - symmetry. unfold positive in Hpos. destruct (fst s1); simpl; auto.
    now apply Rltb_true.
Qed.

End NextRecord.

(** X8: when the record at list position [bridge_id] is itself one of the
    records compared, that is, it is not the last record and its id is not
    [bridge_id], and no record compared before it lies at distance [0] from
    it, [get_closest_bridge] returns the id of that record, whatever the
    distances of the others: in a collection numbered 1, 2, 3, ... this is
    [bridge_id + 1]. *)
Theorem X8_closest_bridge_returns_record_at_position :
  forall (K : Constants) (bridge_data : list bridge) (bridge_id : Z)
         (other : bridge) (l1 l2 : list bridge),
    0 <= EARTH_RADIUS ->
    py_index bridge_data bridge_id = Ok other ->
    ID other <> bridge_id ->
    removelast bridge_data = l1 ++ other :: l2 ->
    (forall c, In c l1 -> ID c <> bridge_id ->
               0 < get_distance_between c other) ->
    get_closest_bridge bridge_data bridge_id = Ok (ID other).
Proof.
  intros K bridge_data bridge_id other l1 l2 HR Ho Hid E H.
  exact (next_record_returned bridge_data bridge_id other HR Ho Hid l1 l2
           E H).
Qed.

(** The reference collection and id 1: the record at position 1 is bridge
    2, and bridge 2 is returned. *)
Lemma X8_witness :
  get_closest_bridge (K := reference_constants) THREE_BRIDGES 1 = Ok 2%Z.
Proof.
  apply (X8_closest_bridge_returns_record_at_position reference_constants
           THREE_BRIDGES 1 bridge_2 [bridge_1] []).
  - simpl. lra.
  - reflexivity.
  - discriminate.
  - reflexivity.
  - intros c [<-|[]] N. exfalso. apply N. reflexivity.
Defined.

(** ** Radius search and distance *)

Lemma filter_filter_implies {A : Type} (p q : A -> bool) (l : list A) :
  (forall a, In a l -> p a = true -> q a = true) ->
  filter p l = filter p (filter q l).
Proof.
  induction l as [|a l IH]; simpl; intros H; [reflexivity|].
  destruct (p a) eqn:Ep.
  - rewrite (H a) by auto. simpl. rewrite Ep. f_equal. apply IH. auto.
  - destruct (q a); simpl; rewrite ?Ep; apply IH; auto.
Qed.

(** X9: the radius search grows with the radius: the ids found within a
    radius are found within every larger radius, and they are the ids of
    the larger search with some left out, in the same order. *)
Theorem X9_radius_search_is_monotone :
  forall (K : Constants) (bridge_data : list bridge)
         (latitude longtitude r1 r2 : R),
    r1 <= r2 ->
    (forall x,
        In x (get_bridges_in_radius bridge_data latitude longtitude r1) ->
        In x (get_bridges_in_radius bridge_data latitude longtitude r2))
    /\ get_bridges_in_radius bridge_data latitude longtitude r1
       = get_bridges_in_radius
           (filter (fun b => within b (latitude, longtitude) r2)
                   bridge_data)
           latitude longtitude r1.
Proof.
  intros K bridge_data latitude longtitude r1 r2 Hr.
  assert (Himp : forall b, within b (latitude, longtitude) r1 = true ->
                           within b (latitude, longtitude) r2 = true).
  { intros b H. unfold within in *. apply Rleb_true in H.
    apply Rleb_true. lra. }
  rewrite !get_bridges_in_radius_filter. split.
  - intros x Hx. apply in_map_iff in Hx. destruct Hx as [b [E Hb]].
    apply filter_In in Hb. destruct Hb as [Hb W].
    apply in_map_iff. exists b. split; [exact E|].
    apply filter_In. auto.
  - f_equal. apply filter_filter_implies. auto.
Qed.

(** The docstring search around (43.10, -80.15): radius 50 inside radius
    100. *)
Lemma X9_witness :
  get_bridges_in_radius (K := reference_constants) THREE_BRIDGES
    43.10 (-80.15) 50
  = get_bridges_in_radius (K := reference_constants)
      (filter (fun b => within (K := reference_constants) b
                          (43.10, -80.15) 100)
              THREE_BRIDGES)
      43.10 (-80.15) 50.
Proof.
  apply (X9_radius_search_is_monotone reference_constants THREE_BRIDGES
           43.10 (-80.15) 50 100).
  lra.
Defined.

(** X10: a distance is never negative, the Earth radius constant being
    non-negative: not between two points, not between two bridges. *)
Theorem X10_distance_is_never_negative :
  forall (K : Constants) (lat1 lon1 lat2 lon2 : R) (bridge1 bridge2 : bridge),
    0 <= EARTH_RADIUS ->
    0 <= calculate_distance lat1 lon1 lat2 lon2
    /\ 0 <= get_distance_between bridge1 bridge2.
Proof.
  intros K lat1 lon1 lat2 lon2 bridge1 bridge2 HR.
  split; now apply calculate_distance_nonneg.
Qed.

(** The two points of the docstring of [calculate_distance]. *)
Lemma X10_witness :
  0 <= calculate_distance (K := reference_constants)
         43.659777 (-79.397383) 43.657129 (-79.399439)
  /\ 0 <= get_distance_between (K := reference_constants) bridge_1 bridge_2.
Proof.
  apply (X10_distance_is_never_negative reference_constants).
  simpl. lra.
Defined.

(** ** Inspector assignment: size and order *)

Section AssignmentShape.

Context {K : Constants}.

Variables (bridge_data : list bridge) (max_bridges : Z).

Lemma assign_step_shape (st st' : assign_state) (inspector : R * R) :
  assign_step bridge_data max_bridges st inspector = Ok st' ->
  exists candidates,
    bridges_to_assign bridge_data st inspector = Ok candidates
    /\ inspector_assignments st'
       = inspector_assignments st
         ++ [map ID (py_slice_to candidates max_bridges)]
    /\ bridge_ids st'
       = filter (fun bridge_id =>
                   negb (py_in bridge_id
                           (map ID (py_slice_to candidates max_bridges))))
                (bridge_ids st).
Proof.
  unfold assign_step. intros H.
  apply bind_Ok_inv in H. destruct H as [candidates [Hc H]].
  injection H as <-. exists candidates. simpl. auto.
Qed.

Lemma for_each_appends (inspectors : list (R * R)) (st st' : assign_state) :
  for_each (assign_step bridge_data max_bridges) inspectors st = Ok st' ->
  exists new,
    inspector_assignments st' = inspector_assignments st ++ new
    /\ length new = length inspectors.
Proof.
  revert st. induction inspectors as [|insp rest IH]; simpl; intros st H.
  - injection H as <-. exists []. now rewrite app_nil_r.
  - apply bind_Ok_inv in H. destruct H as [st1 [H1 H]].
    destruct (assign_step_shape _ _ _ H1) as [c [_ [E1 _]]].
    destruct (IH st1 H) as [new [E Hlen]].
    exists (map ID (py_slice_to c max_bridges) :: new). split.
    + rewrite E, E1, <- app_assoc. reflexivity.
    + simpl. now rewrite Hlen.
Qed.

(** An assignment holds ids of the collection, at most [max_bridges] of
    them when [max_bridges] is not negative. *)
Let sized (l : list Z) : Prop :=
  (forall x, In x l -> In x (map ID bridge_data))
  /\ (0 <= max_bridges -> Z.of_nat (length l) <= max_bridges)%Z.

Let bounded (st : assign_state) : Prop :=
  (forall x, In x (bridge_ids st) -> In x (map ID bridge_data))
  /\ forall l, In l (inspector_assignments st) -> sized l.

Lemma assign_step_bounded (st st' : assign_state) (inspector : R * R) :
  bounded st ->
  assign_step bridge_data max_bridges st inspector = Ok st' ->
  bounded st'.
Proof.
  intros [Hids Hass] H.
  destruct (assign_step_shape _ _ _ H) as [c [Hc [E1 E2]]].
  split.
  - intros x Hx. rewrite E2 in Hx. apply filter_In in Hx. apply Hids, Hx.
  - intros l Hl. rewrite E1 in Hl. apply in_app_or in Hl.
    destruct Hl as [Hl|[<-|[]]]; [auto|]. split.
    + intros x Hx. apply in_map_iff in Hx. destruct Hx as [b [<- Hb]].
      apply Hids. eapply bridges_to_assign_in_pool; [exact Hc|].
      unfold py_slice_to in Hb. eapply In_firstn. exact Hb.
    + intros Hm. rewrite length_map. unfold py_slice_to.
      rewrite clamp_nonneg by assumption.
      pose proof (firstn_le_length
                    (Nat.min (length c) (Z.to_nat max_bridges)) c).
      lia.
Qed.

Lemma for_each_bounded (inspectors : list (R * R)) (st st' : assign_state) :
  bounded st ->
  for_each (assign_step bridge_data max_bridges) inspectors st = Ok st' ->
  bounded st'.
Proof.
  revert st. induction inspectors as [|insp rest IH]; simpl; intros st Hb H.
  - now injection H as <-.
  - apply bind_Ok_inv in H. destruct H as [st1 [H1 H]].
    eapply IH; [|exact H]. eapply assign_step_bounded; eauto.
Qed.

Lemma assign_inspectors_sized (inspectors : list (R * R))
    (res : list (list Z)) :
  assign_inspectors bridge_data inspectors max_bridges = Ok res ->
  length res = length inspectors
  /\ forall l, In l res ->
       (forall x, In x l -> In x (map ID bridge_data))
       /\ (0 <= max_bridges -> Z.of_nat (length l) <= max_bridges)%Z.
Proof.
  unfold assign_inspectors. intros H.
  apply bind_Ok_inv in H. destruct H as [final [Hf H]]. injection H as <-.
  split.
  - destruct (for_each_appends _ _ _ Hf) as [new [E Hlen]].
    rewrite E. exact Hlen.
  - refine (proj2 (for_each_bounded inspectors _ final _ Hf)).
    split; simpl; [auto | intros l []].
Qed.

Lemma assign_inspectors_prefix (first_inspectors later : list (R * R))
    (res : list (list Z)) :
  assign_inspectors bridge_data (first_inspectors ++ later) max_bridges
  = Ok res ->
  assign_inspectors bridge_data first_inspectors max_bridges
  = Ok (firstn (length first_inspectors) res).
Proof.
  unfold assign_inspectors. intros H.
  apply bind_Ok_inv in H. destruct H as [final [Hf H]]. injection H as <-.
  rewrite for_each_app in Hf.
  apply bind_Ok_inv in Hf. destruct Hf as [st1 [H1 H2]].
  rewrite H1. simpl. f_equal.
  destruct (for_each_appends _ _ _ H1) as [new1 [E1 Hlen1]].
  destruct (for_each_appends _ _ _ H2) as [new2 [E2 _]].
  simpl in E1. rewrite E2, E1, <- Hlen1.
  rewrite firstn_app, firstn_all, Nat.sub_diag. simpl.
  now rewrite app_nil_r.
Qed.

End AssignmentShape.

(** X11: whatever the collection, a run of [assign_inspectors] that returns
    gives one list per inspector; every list holds ids of the collection,
    and at most [max_bridges] of them when [max_bridges] is not negative, so
    only empty lists for capacity [0]. *)
Theorem X11_assignments_are_sized :
  forall (K : Constants) (bridge_data : list bridge)
         (inspectors : list (R * R)) (max_bridges : Z)
         (res : list (list Z)),
    assign_inspectors bridge_data inspectors max_bridges = Ok res ->
    length res = length inspectors
    /\ (forall l, In l res ->
          (forall x, In x l -> In x (map ID bridge_data))
          /\ (0 <= max_bridges -> Z.of_nat (length l) <= max_bridges)%Z)
    /\ (max_bridges = 0%Z -> forall l, In l res -> l = []).
Proof.
  intros K bridge_data inspectors max_bridges res H.
  destruct (assign_inspectors_sized bridge_data max_bridges inspectors res H)
    as [Hlen Hsized].
  split; [exact Hlen|]. split; [exact Hsized|].
  intros -> l Hl. destruct (Hsized l Hl) as [_ Hm].
  destruct l as [|x l]; [reflexivity|]. simpl in Hm. lia.
Qed.

(** The docstring example: two inspectors, two lists. *)
Lemma X11_witness :
  length [[1; 2]; [3]]%Z = length [inspector_1; inspector_2].
Proof.
  refine (proj1 (X11_assignments_are_sized reference_constants
                   THREE_BRIDGES [inspector_1; inspector_2] 2
                   [[1; 2]; [3]]%Z _)).
  apply example_run; simpl; lra.
Defined.

(** X12: the inspectors are served in their order and the later ones change
    nothing for the earlier: the run over the first inspectors alone returns
    the first lists of the run over all of them. *)
Theorem X12_earlier_inspectors_are_served_first :
  forall (K : Constants) (bridge_data : list bridge)
         (first_inspectors later : list (R * R)) (max_bridges : Z)
         (res : list (list Z)),
    assign_inspectors bridge_data (first_inspectors ++ later) max_bridges
    = Ok res ->
    assign_inspectors bridge_data first_inspectors max_bridges
    = Ok (firstn (length first_inspectors) res).
Proof.
  intros K bridge_data first_inspectors later max_bridges res H.
  exact (assign_inspectors_prefix bridge_data max_bridges first_inspectors
           later res H).
Qed.

(** The first inspector of the docstring example, alone. *)
Lemma X12_witness :
  assign_inspectors (K := reference_constants) THREE_BRIDGES
    [inspector_1] 2
  = Ok (firstn (length [inspector_1]) [[1; 2]; [3]]%Z).
Proof.
  apply (X12_earlier_inspectors_are_served_first reference_constants
           THREE_BRIDGES [inspector_1] [inspector_2] 2).
  apply example_run; simpl; lra.
Defined.

(** ** Mutations together *)

Lemma with_rehab_inspection_commute {H : Type} (bridge_id : Z)
    (year : string) (rehab : bool) (bridge_ids : list Z) (date : string)
    (r : bridge_of H) :
  with_rehab bridge_id year rehab (with_inspection_date bridge_ids date r)
  = with_inspection_date bridge_ids date
      (with_rehab bridge_id year rehab r).
Proof.
  unfold with_rehab, with_inspection_date.
  destruct (ID r =? bridge_id)%Z eqn:E1;
    destruct (py_in (ID r) bridge_ids) eqn:E2;
    destruct rehab; simpl; rewrite ?E1, ?E2; reflexivity.
Qed.

Lemma with_rehab_ID {H : Type} (bridge_id : Z) (year : string)
    (rehab : bool) (r : bridge_of H) :
  ID (with_rehab bridge_id year rehab r) = ID r.
Proof.
  unfold with_rehab. destruct (ID r =? bridge_id)%Z; [|reflexivity].
  now destruct rehab.
Qed.

Lemma with_rehab_BCIS {H : Type} (bridge_id : Z) (year : string)
    (rehab : bool) (r : bridge_of H) :
  BCIS (with_rehab bridge_id year rehab r) = BCIS r.
Proof.
  unfold with_rehab. destruct (ID r =? bridge_id)%Z; [|reflexivity].
  now destruct rehab.
Qed.

(** The count of inspected positions reads the ids and the references to
    the histories only. *)
Lemma hits_same_keys (h1 h2 : store) (bridge_data : list loc)
    (bridge_ids : list Z) (k : loc) :
  (forall l, option_map (fun r : row => (ID r, BCIS r)) (rows h1 l)
             = option_map (fun r : row => (ID r, BCIS r)) (rows h2 l)) ->
  hits h1 bridge_data bridge_ids k = hits h2 bridge_data bridge_ids k.
Proof.
  intros H. unfold hits. f_equal.
  induction bridge_data as [|l data IH]; simpl; [reflexivity|].
  rewrite IH. specialize (H l).
  destruct (rows h1 l) as [r1|], (rows h2 l) as [r2|]; simpl in H;
    try discriminate; [|reflexivity].
  injection H as -> ->. reflexivity.
Qed.

Lemma read_bridge_same (h1 h2 : store) (l : loc) :
  (forall l', rows h1 l' = rows h2 l') ->
  (forall k, lists h1 k = lists h2 k) ->
  read_bridge h1 l = read_bridge h2 l.
Proof.
  intros Hr Hl. unfold read_bridge. rewrite Hr.
  destruct (rows h2 l) as [r|]; [|reflexivity]. now rewrite Hl.
Qed.

Lemma read_collection_same (h1 h2 : store) (bridge_data : list loc) :
  (forall l, rows h1 l = rows h2 l) ->
  (forall k, lists h1 k = lists h2 k) ->
  read_collection h1 bridge_data = read_collection h2 bridge_data.
Proof.
  intros Hr Hl. induction bridge_data as [|l data IH]; simpl; [reflexivity|].
  now rewrite (read_bridge_same h1 h2 l Hr Hl), IH.
Qed.

(** X13: an inspection and a rehab update can be made in either order: the
    two stores hold the same record lists and the same histories, so every
    collection reads the same from both. *)
Theorem X13_inspection_and_rehab_commute :
  forall (h : store) (inspected rehabbed read : list loc)
         (bridge_ids : list Z) (date : string) (bci : R) (bridge_id : Z)
         (rehab_year : string) (rehab : bool),
    let h1 := add_rehab (inspect_bridges h inspected bridge_ids date bci)
                rehabbed bridge_id rehab_year rehab in
    let h2 := inspect_bridges
                (add_rehab h rehabbed bridge_id rehab_year rehab)
                inspected bridge_ids date bci in
    (forall l, rows h1 l = rows h2 l)
    /\ (forall k, lists h1 k = lists h2 k)
    /\ read_collection h1 read = read_collection h2 read.
Proof.
  intros h inspected rehabbed read bridge_ids date bci bridge_id rehab_year
         rehab h1 h2.
  set (hI := inspect_bridges h inspected bridge_ids date bci).
  set (hR := add_rehab h rehabbed bridge_id rehab_year rehab).
  destruct (inspect_bridges_store bridge_ids date bci inspected h)
    as [HIr HIl].
  destruct (inspect_bridges_store bridge_ids date bci inspected hR)
    as [HIRr HIRl].
  destruct (add_rehab_store bridge_id rehab_year rehab rehabbed h)
    as [HRl HRr].
  destruct (add_rehab_store bridge_id rehab_year rehab rehabbed hI)
    as [HRIl HRIr].
  assert (Hrows : forall l, rows h1 l = rows h2 l).
  { intros l. unfold h1, h2. fold hI hR.
    rewrite HRIr, HIRr. unfold hI, hR. rewrite HIr, HRr.
    destruct (in_dec Nat.eq_dec l rehabbed);
      destruct (in_dec Nat.eq_dec l inspected);
      destruct (rows h l) as [r|]; simpl; try reflexivity.
    now rewrite with_rehab_inspection_commute. }
  assert (Hlists : forall k, lists h1 k = lists h2 k).
  { intros k. unfold h1, h2. fold hI hR.
    rewrite HRIl, HIRl. unfold hI, hR. rewrite HIl, HRl.
    rewrite (hits_same_keys
               (add_rehab h rehabbed bridge_id rehab_year rehab) h);
      [reflexivity|].
    intros l. rewrite HRr.
    destruct (in_dec Nat.eq_dec l rehabbed); [|reflexivity].
    destruct (rows h l) as [r|]; simpl; [|reflexivity].
    now rewrite with_rehab_ID, with_rehab_BCIS. }
  split; [exact Hrows|]. split; [exact Hlists|].
  now apply read_collection_same.
Qed.

(** X14: of two rehab updates of the same kind for the same id over the same
    collection the later one stays: the store is the one the later update
    alone gives. *)
Theorem X14_later_rehab_update_stays :
  forall (h : store) (bridge_data read : list loc) (bridge_id : Z)
         (first_year later_year : string) (rehab : bool),
    let h1 := add_rehab (add_rehab h bridge_data bridge_id first_year rehab)
                bridge_data bridge_id later_year rehab in
    let h2 := add_rehab h bridge_data bridge_id later_year rehab in
    (forall l, rows h1 l = rows h2 l)
    /\ (forall k, lists h1 k = lists h2 k)
    /\ read_collection h1 read = read_collection h2 read.
Proof.
  intros h bridge_data read bridge_id first_year later_year rehab h1 h2.
  destruct (add_rehab_store bridge_id first_year rehab bridge_data h)
    as [H1l H1r].
  destruct (add_rehab_store bridge_id later_year rehab bridge_data
              (add_rehab h bridge_data bridge_id first_year rehab))
    as [H12l H12r].
  destruct (add_rehab_store bridge_id later_year rehab bridge_data h)
    as [H2l H2r].
  assert (Hrows : forall l, rows h1 l = rows h2 l).
  { intros l. unfold h1, h2. rewrite H12r, H1r, H2r.
    destruct (in_dec Nat.eq_dec l bridge_data); [|reflexivity].
    destruct (rows h l) as [r|]; simpl; [|reflexivity]. f_equal.
    unfold with_rehab.
    destruct (ID r =? bridge_id)%Z eqn:E; [|now rewrite E].
    destruct rehab; simpl; now rewrite E. }
  assert (Hlists : forall k, lists h1 k = lists h2 k).
  { intros k. unfold h1, h2. now rewrite H12l, H1l, H2l. }
  split; [exact Hrows|]. split; [exact Hlists|].
  now apply read_collection_same.
Qed.

Lemma inspect_bridges_keeps_separate (h : store) (bridge_data : list loc)
    (bridge_ids : list Z) (date : string) (bci : R) :
  histories_separate h bridge_data ->
  histories_separate (inspect_bridges h bridge_data bridge_ids date bci)
    bridge_data.
Proof.
  intros Hsep l1 l2 r1 r2 H1 H2 E1 E2 E.
  destruct (inspect_bridges_store bridge_ids date bci bridge_data h)
    as [Hrows _].
  rewrite Hrows in E1, E2.
  destruct (in_dec Nat.eq_dec l1 bridge_data); [|contradiction].
  destruct (in_dec Nat.eq_dec l2 bridge_data); [|contradiction].
  destruct (rows h l1) as [r1'|] eqn:E1'; [|discriminate].
  destruct (rows h l2) as [r2'|] eqn:E2'; [|discriminate].
  simpl in E1, E2. injection E1 as <-. injection E2 as <-.
  rewrite !with_inspection_date_BCIS in E.
  exact (Hsep l1 l2 r1' r2' H1 H2 E1' E2' E).
Qed.

(** X15: inspections stack most recent first.  On a collection of distinct
    record lists with separate histories, after two calls of
    [inspect_bridges] a record listed in both has the date of the second
    call, and its history starts with the BCI of the second call, then the
    BCI of the first, then the earlier entries; a record listed in neither
    is as before. *)
Theorem X15_inspections_stack_most_recent_first :
  forall (h : store) (bridge_data : list loc) (ids1 ids2 : list Z)
         (date1 date2 : string) (bci1 bci2 : R) (bs : list bridge),
    NoDup bridge_data ->
    histories_separate h bridge_data ->
    read_collection h bridge_data = Some bs ->
    exists bs'',
      read_collection
        (inspect_bridges (inspect_bridges h bridge_data ids1 date1 bci1)
           bridge_data ids2 date2 bci2)
        bridge_data = Some bs''
      /\ length bs'' = length bs
      /\ forall i b,
           nth_error bs i = Some b ->
           exists b'',
             nth_error bs'' i = Some b''
             /\ (In (ID b) ids1 -> In (ID b) ids2 ->
                 LAST_INSPECTED b'' = date2
                 /\ BCIS b'' = bci2 :: bci1 :: BCIS b)
             /\ (~ In (ID b) ids1 -> ~ In (ID b) ids2 -> b'' = b).
Proof.
  intros h bridge_data ids1 ids2 date1 date2 bci1 bci2 bs Hnd Hsep Hbs.
  set (g := fun (ids : list Z) (date : string) (bci : R) (b : bridge) =>
              if py_in (ID b) ids
              then with_BCIS (set_LAST_INSPECTED b date) (bci :: BCIS b)
              else b).
  set (h1 := inspect_bridges h bridge_data ids1 date1 bci1).
  assert (H1 : forall l, In l bridge_data ->
                 read_bridge h1 l
                 = option_map (g ids1 date1 bci1) (read_bridge h l)).
  { intros l Hl.
    destruct (read_collection_In h bridge_data bs l Hbs Hl) as [b Hb].
    rewrite Hb. simpl. now apply inspect_bridges_read. }
  assert (Hbs1 : read_collection h1 bridge_data
                 = Some (map (g ids1 date1 bci1) bs)).
  { rewrite (read_collection_pointwise (g ids1 date1 bci1) h), Hbs;
      [reflexivity | exact H1]. }
  assert (Hsep1 : histories_separate h1 bridge_data)
    by now apply inspect_bridges_keeps_separate.
  assert (Hbs2 : read_collection
                   (inspect_bridges h1 bridge_data ids2 date2 bci2)
                   bridge_data
                 = Some (map (g ids2 date2 bci2)
                           (map (g ids1 date1 bci1) bs))).
  { rewrite (read_collection_pointwise (g ids2 date2 bci2) h1), Hbs1;
      [reflexivity|].
    intros l Hl.
    destruct (read_collection_In h1 bridge_data _ l Hbs1 Hl) as [b Hb].
    rewrite Hb. simpl. now apply inspect_bridges_read. }
  exists (map (g ids2 date2 bci2) (map (g ids1 date1 bci1) bs)).
  split; [exact Hbs2|]. split; [now rewrite !length_map|].
  intros i b Hi. exists (g ids2 date2 bci2 (g ids1 date1 bci1 b)).
  split; [now rewrite !nth_error_map, Hi|]. unfold g. split.
  - intros Hin1 Hin2. apply py_in_In in Hin1, Hin2.
    rewrite Hin1. simpl. rewrite Hin2. simpl. auto.
  - intros Ho1 Ho2. apply py_in_not_In in Ho1, Ho2.
    rewrite Ho1, Ho2. reflexivity.
Qed.

(** Bridge 1 of the reference collection inspected twice. *)
Lemma X15_witness :
  exists bs'',
    read_collection
      (inspect_bridges
         (inspect_bridges reference_store reference_collection [1%Z]
            "09/15/2018" 71.9)
         reference_collection [1%Z] "09/15/2019" 71.2)
      reference_collection = Some bs''
    /\ length bs'' = length THREE_BRIDGES.
Proof.
  destruct (X15_inspections_stack_most_recent_first reference_store
              reference_collection [1%Z] [1%Z] "09/15/2018" "09/15/2019"
              71.9 71.2 THREE_BRIDGES
              (proj1 reference_store_separate)
              (proj2 reference_store_separate) reference_store_reads)
    as [bs'' [H1 [H2 _]]].
  exists bs''. split; assumption.
Defined.

(** * The record normalizer *)

(** ** Cells of a record *)

Lemma py_index_cell {A : Type} (l : list A) (i : Z) (v : A) :
  (0 <= i)%Z -> cell_at l i = Some v -> py_index l i = Ok v.
Proof.
  unfold cell_at, py_index. intros Hi H.
  assert (Hlen : (Z.to_nat i < length l)%nat)
    by (apply nth_error_Some; congruence).
  replace (i <? 0)%Z with false by (symmetry; apply Z.ltb_ge; lia).
  replace ((i <? 0) || (Z.of_nat (length l) <=? i))%Z with false.
  - now rewrite H.
  - symmetry. apply orb_false_iff. split; [apply Z.ltb_ge | apply Z.leb_gt]; lia.
Qed.

Lemma py_index_short {A : Type} (l : list A) (i : Z) :
  (0 <= i)%Z -> cell_at l i = None -> py_index l i = Raise IndexError.
Proof.
  unfold cell_at, py_index. intros Hi H.
  apply nth_error_None in H.
  replace (i <? 0)%Z with false by (symmetry; apply Z.ltb_ge; lia).
  replace (Z.of_nat (length l) <=? i)%Z with true
    by (symmetry; apply Z.leb_le; lia).
  now rewrite orb_true_r.
Qed.

Lemma py_setitem_cell {A : Type} (l : list A) (i : Z) (v w : A) :
  (0 <= i)%Z -> cell_at l i = Some w ->
  py_setitem l i v = Ok (with_cell l i v).
Proof.
  unfold cell_at, py_setitem, with_cell. intros Hi H.
  assert (Hlen : (Z.to_nat i < length l)%nat)
    by (apply nth_error_Some; congruence).
  replace (i <? 0)%Z with false by (symmetry; apply Z.ltb_ge; lia).
  replace ((i <? 0) || (Z.of_nat (length l) <=? i))%Z with false.
  - reflexivity.
  - symmetry. apply orb_false_iff. split; [apply Z.ltb_ge | apply Z.leb_gt]; lia.
Qed.

Lemma length_with_cell {A : Type} (l : list A) (i : Z) (v w : A) :
  cell_at l i = Some w -> length (with_cell l i v) = length l.
Proof.
  unfold cell_at, with_cell. intros H.
  assert (Hlen : (Z.to_nat i < length l)%nat)
    by (apply nth_error_Some; congruence).
  rewrite length_app, length_firstn, length_cons, length_skipn. lia.
Qed.

Lemma cell_at_with_cell_same {A : Type} (l : list A) (i : Z) (v w : A) :
  cell_at l i = Some w -> cell_at (with_cell l i v) i = Some v.
Proof.
  unfold cell_at, with_cell. intros H.
  assert (Hlen : (Z.to_nat i < length l)%nat)
    by (apply nth_error_Some; congruence).
  rewrite nth_error_app2 by (rewrite length_firstn; lia).
  rewrite length_firstn.
  replace (Z.to_nat i - Nat.min (Z.to_nat i) (length l))%nat with 0%nat by lia.
  reflexivity.
Qed.

Lemma nth_error_with_cell_other {A : Type} (l : list A) (i : Z) (v : A)
    (n : nat) :
  n <> Z.to_nat i ->
  nth_error (with_cell l i v) n = nth_error l n
  \/ (length l <= Z.to_nat i)%nat.
Proof.
  intros N. unfold with_cell.
  destruct (Nat.lt_ge_cases (Z.to_nat i) (length l)) as [Hlen|Hlen];
    [left | now right].
  rewrite <- (firstn_skipn (Z.to_nat i) l) at 3.
  destruct (Nat.lt_ge_cases n (Z.to_nat i)) as [Hn|Hn].
  - rewrite !nth_error_app1 by (rewrite length_firstn; lia). reflexivity.
  - rewrite !nth_error_app2 by (rewrite length_firstn; lia).
    rewrite length_firstn, nth_error_skipn.
    replace (n - Nat.min (Z.to_nat i) (length l))%nat
      with (S (n - S (Z.to_nat i)))%nat at 1 by lia.
    cbn [nth_error]. rewrite nth_error_skipn. f_equal. lia.
Qed.

Lemma cell_at_with_cell_other {A : Type} (l : list A) (i j : Z) (v w : A) :
  (0 <= i)%Z -> (0 <= j)%Z -> i <> j -> cell_at l i = Some w ->
  cell_at (with_cell l i v) j = cell_at l j.
Proof.
  intros Hi Hj N H. unfold cell_at.
  destruct (nth_error_with_cell_other l i v (Z.to_nat j)) as [E|E];
    [lia | exact E |].
  apply nth_error_None in E. unfold cell_at in H. congruence.
Qed.

Lemma with_cell_same {A : Type} (l : list A) (i : Z) (v : A) :
  cell_at l i = Some v -> with_cell l i v = l.
Proof.
  unfold cell_at, with_cell. intros H.
  rewrite <- (firstn_skipn (Z.to_nat i) l) at 3. f_equal.
  assert (Hlen : (Z.to_nat i < length l)%nat)
    by (apply nth_error_Some; congruence).
  rewrite <- (firstn_skipn (Z.to_nat i) l) in H.
  rewrite nth_error_app2 in H by (rewrite length_firstn; lia).
  rewrite length_firstn in H.
  replace (Z.to_nat i - Nat.min (Z.to_nat i) (length l))%nat with 0%nat in H
    by lia.
  destruct (skipn (Z.to_nat i) l) as [|x r] eqn:E; [discriminate|].
  simpl in H. injection H as ->. f_equal.
  change r with (skipn 1 (v :: r)). rewrite <- E, skipn_skipn. f_equal.
Qed.

Lemma getitem_cell {A : Type} (l : list A) (i : Z) (v : A) :
  (0 <= i)%Z -> cell_at l i = Some v -> getitem i l = Returns l v.
Proof.
  intros Hi H. unfold getitem. now rewrite (py_index_cell l i v).
Qed.

Lemma getitem_short {A : Type} (l : list A) (i : Z) :
  (0 <= i)%Z -> cell_at l i = None ->
  getitem i l = Raises l (Builtin IndexError).
Proof.
  intros Hi H. unfold getitem. now rewrite py_index_short.
Qed.

Lemma setitem_cell {A : Type} (l : list A) (i : Z) (v w : A) :
  (0 <= i)%Z -> cell_at l i = Some w ->
  setitem i v l = Returns (with_cell l i v) tt.
Proof.
  intros Hi H. unfold setitem. now rewrite (py_setitem_cell l i v w).
Qed.

(** ** Latitude and longitude *)

Section LocationFacts.

Context {L : Layout}.
Variable float_of_string : string -> option R.

Hypothesis lat_nonneg : (0 <= LAT_INDEX)%Z.
Hypothesis lon_nonneg : (0 <= LON_INDEX)%Z.

Lemma format_location_run (record : list pyval) (lat lon : pyval) (x y : R) :
  cell_at record LAT_INDEX = Some lat ->
  py_float float_of_string lat = Ok x ->
  cell_at (with_cell record LAT_INDEX (PFloat x)) LON_INDEX = Some lon ->
  py_float float_of_string lon = Ok y ->
  format_location float_of_string record
  = Returns
      (with_cell (with_cell record LAT_INDEX (PFloat x)) LON_INDEX (PFloat y))
      tt.
Proof.
  intros H1 H2 H3 H4. unfold format_location, and_then.
  rewrite (getitem_cell _ _ _ lat_nonneg H1). unfold eval at 1. rewrite H2.
  rewrite (setitem_cell _ _ _ _ lat_nonneg H1).
  rewrite (getitem_cell _ _ _ lon_nonneg H3). unfold eval. rewrite H4.
  now rewrite (setitem_cell _ _ _ _ lon_nonneg H3).
Qed.

Lemma format_location_inv (record record' : list pyval) (u : unit) :
  format_location float_of_string record = Returns record' u ->
  exists lat lon x y,
    cell_at record LAT_INDEX = Some lat
    /\ py_float float_of_string lat = Ok x
    /\ cell_at (with_cell record LAT_INDEX (PFloat x)) LON_INDEX = Some lon
    /\ py_float float_of_string lon = Ok y
    /\ record'
       = with_cell (with_cell record LAT_INDEX (PFloat x)) LON_INDEX
           (PFloat y).
Proof.
  unfold format_location, and_then.
  destruct (cell_at record LAT_INDEX) as [lat|] eqn:H1;
    [rewrite (getitem_cell _ _ _ lat_nonneg H1)
    | rewrite (getitem_short _ _ lat_nonneg H1); discriminate].
  unfold eval at 1.
  destruct (py_float float_of_string lat) as [x|e] eqn:H2; [|discriminate].
  rewrite (setitem_cell _ _ _ _ lat_nonneg H1).
  destruct (cell_at (with_cell record LAT_INDEX (PFloat x)) LON_INDEX)
    as [lon|] eqn:H3;
    [rewrite (getitem_cell _ _ _ lon_nonneg H3)
    | rewrite (getitem_short _ _ lon_nonneg H3); discriminate].
  unfold eval.
  destruct (py_float float_of_string lon) as [y|e] eqn:H4; [|discriminate].
  rewrite (setitem_cell _ _ _ _ lon_nonneg H3).
  intros E. injection E as <-. exists lat, lon, x, y. auto.
Qed.

End LocationFacts.

(** ** BCI cells *)

Lemma range_down_step (start stop : Z) :
  (stop < start)%Z ->
  range_down start stop = start :: range_down (start - 1) stop.
Proof.
  intros H. unfold range_down.
  replace (Z.to_nat (start - stop)) with (S (Z.to_nat (start - 1 - stop)))
    by lia.
  simpl. f_equal; [lia|].
  rewrite <- seq_shift, map_map. apply map_ext. intros k. lia.
Qed.

Lemma range_down_empty (start stop : Z) :
  (start <= stop)%Z -> range_down start stop = [].
Proof.
  intros H. unfold range_down.
  now replace (Z.to_nat (start - stop)) with 0%nat by lia.
Qed.

Lemma py_index_last {A : Type} (l : list A) (c : A) :
  py_index (l ++ [c]) (Z.of_nat (length l)) = Ok c.
Proof.
  apply py_index_cell; [lia|]. unfold cell_at.
  rewrite Nat2Z.id, nth_error_app2, Nat.sub_diag by lia. reflexivity.
Qed.


Lemma py_delitem_cell {A : Type} (l : list A) (i : Z) (w : A) :
  (0 <= i)%Z -> cell_at l i = Some w ->
  py_delitem l i = Ok (firstn (Z.to_nat i) l ++ skipn (S (Z.to_nat i)) l).
Proof.
  unfold cell_at, py_delitem. intros Hi H.
  assert (Hlen : (Z.to_nat i < length l)%nat)
    by (apply nth_error_Some; congruence).
  replace (i <? 0)%Z with false by (symmetry; apply Z.ltb_ge; lia).
  replace ((i <? 0) || (Z.of_nat (length l) <=? i))%Z with false.
  - reflexivity.
  - symmetry. apply orb_false_iff. split; [apply Z.ltb_ge | apply Z.leb_gt]; lia.
Qed.

Lemma py_delitem_short {A : Type} (l : list A) (i : Z) :
  (0 <= i)%Z -> cell_at l i = None -> py_delitem l i = Raise IndexError.
Proof.
  unfold cell_at, py_delitem. intros Hi H.
  apply nth_error_None in H.
  replace (i <? 0)%Z with false by (symmetry; apply Z.ltb_ge; lia).
  replace (Z.of_nat (length l) <=? i)%Z with true
    by (symmetry; apply Z.leb_le; lia).
  now rewrite orb_true_r.
Qed.

Lemma cell_at_last {A : Type} (l : list A) (c : A) :
  cell_at (l ++ [c]) (Z.of_nat (length l)) = Some c.
Proof.
  unfold cell_at.
  rewrite Nat2Z.id, nth_error_app2, Nat.sub_diag by lia. reflexivity.
Qed.

Lemma py_delitem_last {A : Type} (l : list A) (c : A) :
  py_delitem (l ++ [c]) (Z.of_nat (length l)) = Ok l.
Proof.
  rewrite (py_delitem_cell _ _ c) by (try lia; apply cell_at_last).
  rewrite Nat2Z.id, firstn_app, Nat.sub_diag, firstn_all.
  rewrite skipn_all2 by (rewrite length_app; simpl; lia).
  cbn [firstn]. now rewrite !app_nil_r.
Qed.

Lemma recorded_app (l m : list pyval) :
  recorded (l ++ m) = recorded l ++ recorded m.
Proof. apply filter_app. Qed.

Section BcisFacts.

Variable float_of_string : string -> option R.

(** One turn of the loop of [format_bcis] on the last cell. *)
Lemma bcis_step_last (keep : list pyval) (c : pyval) (acc : list R) :
  bcis_step float_of_string acc (Z.of_nat (length keep)) (keep ++ [c])
  = if negb (py_eqb c (PStr EmptyString))
    then match py_float float_of_string c with
         | Ok x => Returns keep (acc ++ [x])
         | Raise e => Raises (keep ++ [c]) (Builtin e)
         end
    else Returns keep acc.
Proof.
  unfold bcis_step, and_then, getitem, delitem, eval.
  rewrite py_index_last.
  destruct (negb (py_eqb c (PStr EmptyString))).
  - destruct (py_float float_of_string c) as [x|e]; [|reflexivity].
    unfold ret. now rewrite py_delitem_last.
  - unfold ret. now rewrite py_delitem_last.
Qed.

Lemma bcis_loop_step (keep : list pyval) (c : pyval) (stop : Z)
    (acc : list R) :
  (stop < Z.of_nat (length keep))%Z ->
  for_proc (bcis_step float_of_string)
    (range_down (Z.of_nat (length keep)) stop) acc (keep ++ [c])
  = if negb (py_eqb c (PStr EmptyString))
    then match py_float float_of_string c with
         | Ok x =>
             for_proc (bcis_step float_of_string)
               (range_down (Z.of_nat (length keep) - 1) stop)
               (acc ++ [x]) keep
         | Raise e => Raises (keep ++ [c]) (Builtin e)
         end
    else for_proc (bcis_step float_of_string)
           (range_down (Z.of_nat (length keep) - 1) stop) acc keep.
Proof.
  intros H. rewrite (range_down_step _ _ H). cbn [for_proc].
  unfold and_then at 1. rewrite bcis_step_last.
  destruct (negb (py_eqb c (PStr EmptyString))); [|reflexivity].
  now destruct (py_float float_of_string c).
Qed.

(** The loop from the last cell of [trailing] down to its first one reads
    the recorded cells, last one first, and leaves [keep]. *)
Lemma bcis_loop_returns (keep trailing : list pyval) (values acc : list R) :
  Forall2 (fun c x => py_float float_of_string c = Ok x)
    (recorded trailing) values ->
  for_proc (bcis_step float_of_string)
    (range_down (Z.of_nat (length (keep ++ trailing)) - 1)
       (Z.of_nat (length keep) - 1))
    acc (keep ++ trailing)
  = Returns keep (acc ++ rev values).
Proof.
  revert values acc.
  induction trailing as [|c t IH] using rev_ind; intros values acc H.
  - simpl in H. inversion H; subst. rewrite !app_nil_r.
    rewrite range_down_empty by lia. reflexivity.
  - rewrite recorded_app in H. apply Forall2_app_inv_l in H.
    destruct H as (v1 & v2 & H1 & H2 & ->).
    rewrite app_assoc.
    replace (Z.of_nat (length ((keep ++ t) ++ [c])) - 1)%Z
      with (Z.of_nat (length (keep ++ t)))
      by (rewrite (length_app (keep ++ t)); simpl; lia).
    rewrite bcis_loop_step by (rewrite length_app; lia).
    unfold recorded in H2. cbn [filter] in H2.
    destruct (negb (py_eqb c (PStr EmptyString))).
    + inversion H2 as [|? x ? ? Hx H3]; subst. inversion H3; subst.
      rewrite Hx, (IH v1 (acc ++ [x]) H1).
      now rewrite rev_app_distr, <- app_assoc.
    + inversion H2; subst. rewrite (IH v1 acc H1). now rewrite app_nil_r.
Qed.

(** A recorded cell that is no number stops the loop: the cells after it
    are deleted already. *)
Lemma bcis_loop_raises (keep t1 t2 : list pyval) (bad : pyval) (e : exn)
    (values acc : list R) :
  py_eqb bad (PStr EmptyString) = false ->
  py_float float_of_string bad = Raise e ->
  Forall2 (fun c x => py_float float_of_string c = Ok x)
    (recorded t2) values ->
  for_proc (bcis_step float_of_string)
    (range_down (Z.of_nat (length (keep ++ t1 ++ bad :: t2)) - 1)
       (Z.of_nat (length keep) - 1))
    acc (keep ++ t1 ++ bad :: t2)
  = Raises (keep ++ t1 ++ [bad]) (Builtin e).
Proof.
  intros Hbad He. revert values acc.
  induction t2 as [|c t IH] using rev_ind; intros values acc H.
  - rewrite app_assoc.
    replace (Z.of_nat (length ((keep ++ t1) ++ [bad])) - 1)%Z
      with (Z.of_nat (length (keep ++ t1)))
      by (rewrite (length_app (keep ++ t1)); simpl; lia).
    rewrite bcis_loop_step by (rewrite length_app; lia).
    now rewrite Hbad, He.
  - rewrite recorded_app in H. apply Forall2_app_inv_l in H.
    destruct H as (v1 & v2 & H1 & H2 & ->).
    replace (keep ++ t1 ++ bad :: t ++ [c])
      with ((keep ++ t1 ++ bad :: t) ++ [c])
      by (rewrite <- !app_assoc; reflexivity).
    replace (Z.of_nat (length ((keep ++ t1 ++ bad :: t) ++ [c])) - 1)%Z
      with (Z.of_nat (length (keep ++ t1 ++ bad :: t)))
      by (rewrite (length_app (keep ++ t1 ++ bad :: t)); simpl; lia).
    rewrite bcis_loop_step by (rewrite !length_app; simpl; lia).
    unfold recorded in H2. cbn [filter] in H2.
    destruct (negb (py_eqb c (PStr EmptyString))).
    + inversion H2 as [|? x ? ? Hx H3]; subst.
      rewrite Hx. apply (IH v1 _ H1).
    + apply (IH v1 _ H1).
Qed.

(** When the loop returns, it has read every recorded cell. *)
Lemma bcis_loop_inv (keep trailing record' : list pyval)
    (acc acc' : list R) :
  for_proc (bcis_step float_of_string)
    (range_down (Z.of_nat (length (keep ++ trailing)) - 1)
       (Z.of_nat (length keep) - 1))
    acc (keep ++ trailing)
  = Returns record' acc' ->
  exists values,
    Forall2 (fun c x => py_float float_of_string c = Ok x)
      (recorded trailing) values.
Proof.
  revert acc.
  induction trailing as [|c t IH] using rev_ind; intros acc H.
  - exists []. constructor.
  - rewrite app_assoc in H.
    replace (Z.of_nat (length ((keep ++ t) ++ [c])) - 1)%Z
      with (Z.of_nat (length (keep ++ t))) in H
      by (rewrite (length_app (keep ++ t)); simpl; lia).
    rewrite bcis_loop_step in H by (rewrite length_app; lia).
    rewrite recorded_app. unfold recorded at 2. cbn [filter].
    destruct (negb (py_eqb c (PStr EmptyString))).
    + destruct (py_float float_of_string c) as [x|e] eqn:Hx; [|discriminate].
      destruct (IH _ H) as [v1 H1]. exists (v1 ++ [x]).
      apply Forall2_app; [exact H1 | now constructor].
    + destruct (IH _ H) as [v1 H1]. exists v1. now rewrite app_nil_r.
Qed.

Context {L : Layout}.

Hypothesis bcis_nonneg : (0 <= BCIS_INDEX)%Z.

Lemma format_bcis_run (front trailing : list pyval) (first : pyval)
    (values : list R) :
  length front = Z.to_nat BCIS_INDEX ->
  Forall2 (fun c x => py_float float_of_string c = Ok x)
    (recorded trailing) values ->
  format_bcis float_of_string (front ++ first :: trailing)
  = Returns (front ++ [PList (map PFloat values)]) tt.
Proof.
  intros Hlen H. unfold format_bcis.
  change (front ++ first :: trailing) with (front ++ [first] ++ trailing).
  rewrite app_assoc. unfold and_then.
  replace BCIS_INDEX with (Z.of_nat (length (front ++ [first])) - 1)%Z at 1
    by (rewrite length_app; simpl; lia).
  rewrite (bcis_loop_returns _ _ values) by exact H.
  assert (Hc : cell_at (front ++ [first]) BCIS_INDEX = Some first).
  { replace BCIS_INDEX with (Z.of_nat (length front)) by lia.
    apply cell_at_last. }
  rewrite (setitem_cell _ _ _ _ bcis_nonneg Hc).
  simpl app. rewrite rev_involutive. f_equal.
  unfold with_cell. rewrite <- Hlen.
  rewrite firstn_app, Nat.sub_diag, firstn_all.
  rewrite skipn_all2 by (rewrite length_app; simpl; lia).
  cbn [firstn]. now rewrite app_nil_r.
Qed.

Lemma format_bcis_raises (front t1 t2 : list pyval) (first bad : pyval)
    (e : exn) (values : list R) :
  length front = Z.to_nat BCIS_INDEX ->
  py_eqb bad (PStr EmptyString) = false ->
  py_float float_of_string bad = Raise e ->
  Forall2 (fun c x => py_float float_of_string c = Ok x)
    (recorded t2) values ->
  format_bcis float_of_string (front ++ first :: t1 ++ bad :: t2)
  = Raises (front ++ first :: t1 ++ [bad]) (Builtin e).
Proof.
  intros Hlen Hbad He H. unfold format_bcis.
  change (front ++ first :: t1 ++ bad :: t2)
    with (front ++ [first] ++ t1 ++ bad :: t2).
  rewrite app_assoc. unfold and_then.
  replace BCIS_INDEX with (Z.of_nat (length (front ++ [first])) - 1)%Z at 1
    by (rewrite length_app; simpl; lia).
  rewrite (bcis_loop_raises _ _ _ _ e values) by assumption.
  now rewrite <- app_assoc.
Qed.

Lemma format_bcis_short (record : list pyval) :
  cell_at record BCIS_INDEX = None ->
  format_bcis float_of_string record = Raises record (Builtin IndexError).
Proof.
  intros H. unfold format_bcis, and_then.
  assert (Hlen : (length record <= Z.to_nat BCIS_INDEX)%nat)
    by now apply nth_error_None.
  rewrite range_down_empty by lia. cbn [for_proc]. unfold ret.
  unfold setitem, py_setitem.
  replace (BCIS_INDEX <? 0)%Z with false by (symmetry; apply Z.ltb_ge; lia).
  replace (Z.of_nat (length record) <=? BCIS_INDEX)%Z with true
    by (symmetry; apply Z.leb_le; lia).
  now rewrite orb_true_r.
Qed.

Lemma format_bcis_inv (record record' : list pyval) (u : unit) :
  format_bcis float_of_string record = Returns record' u ->
  exists first values,
    cell_at record BCIS_INDEX = Some first
    /\ Forall2 (fun c x => py_float float_of_string c = Ok x)
         (recorded (skipn (S (Z.to_nat BCIS_INDEX)) record)) values
    /\ record'
       = firstn (Z.to_nat BCIS_INDEX) record ++ [PList (map PFloat values)].
Proof.
  intros H.
  destruct (cell_at record BCIS_INDEX) as [first|] eqn:Hc;
    [|rewrite (format_bcis_short _ Hc) in H; discriminate].
  assert (Hlen : (Z.to_nat BCIS_INDEX < length record)%nat)
    by (apply nth_error_Some; unfold cell_at in Hc; congruence).
  assert (Hr : record
               = firstn (Z.to_nat BCIS_INDEX) record
                 ++ first :: skipn (S (Z.to_nat BCIS_INDEX)) record).
  { symmetry. apply (with_cell_same record BCIS_INDEX first Hc). }
  assert (Hf : length (firstn (Z.to_nat BCIS_INDEX) record)
               = Z.to_nat BCIS_INDEX)
    by (rewrite length_firstn; lia).
  pose proof H as H'. rewrite Hr in H'. unfold format_bcis, and_then in H'.
  change (firstn (Z.to_nat BCIS_INDEX) record
          ++ first :: skipn (S (Z.to_nat BCIS_INDEX)) record)
    with (firstn (Z.to_nat BCIS_INDEX) record
          ++ [first] ++ skipn (S (Z.to_nat BCIS_INDEX)) record) in H'.
  rewrite app_assoc in H'.
  replace BCIS_INDEX
    with (Z.of_nat
            (length (firstn (Z.to_nat BCIS_INDEX) record ++ [first])) - 1)%Z
    in H' at 3 by (rewrite length_app; simpl; lia).
  destruct (for_proc _ _ _ _) as [s a|s e] eqn:Hloop in H'; [|discriminate].
  destruct (bcis_loop_inv _ _ _ _ _ Hloop) as [values Hv].
  exists first, values. split; [reflexivity|]. split; [exact Hv|].
  rewrite Hr in H. rewrite (format_bcis_run _ _ _ values Hf Hv) in H.
  now injection H as <-.
Qed.

End BcisFacts.

(** ** Splitting strings *)

Lemma split_char_nonempty (sep : ascii) (s : string) :
  exists piece pieces, split_char sep s = piece :: pieces.
Proof.
  induction s as [|c s IH]; simpl; [eauto|].
  destruct (Ascii.eqb c sep); [eauto|].
  destruct IH as (h & t & ->). eauto.
Qed.

Lemma split_char_whole (sep : ascii) (s : string) :
  has_char sep s = false -> split_char sep s = [s].
Proof.
  induction s as [|c s IH]; simpl; [reflexivity|]. intros H.
  apply orb_false_iff in H. destruct H as [H1 H2].
  now rewrite H1, (IH H2).
Qed.

Lemma split_char_app (sep : ascii) (s t : string) :
  has_char sep s = false ->
  split_char sep (s ++ String sep t) = s :: split_char sep t.
Proof.
  induction s as [|c s IH]; simpl.
  - intros _. now rewrite Ascii.eqb_refl.
  - intros H. apply orb_false_iff in H. destruct H as [H1 H2].
    now rewrite H1, (IH H2).
Qed.

Lemma concat_split_char (sep : ascii) (s : string) :
  String.concat EmptyString (split_char sep s) = remove_char sep s.
Proof.
  induction s as [|c s IH]; simpl; [reflexivity|].
  destruct (split_char_nonempty sep s) as (h & t & E). rewrite E in *.
  destruct (Ascii.eqb c sep).
  - exact IH.
  - rewrite <- IH. destruct t; reflexivity.
Qed.

Lemma split_char_closed_by (sep : ascii) (pieces : list string)
    (tail : string) :
  Forall (fun p => has_char sep p = false) pieces ->
  has_char sep tail = false ->
  split_char sep (closed_by sep pieces tail) = pieces ++ [tail].
Proof.
  intros H Ht. induction H as [|p l Hp _ IH]; simpl.
  - now apply split_char_whole.
  - now rewrite split_char_app, IH.
Qed.

Lemma py_delitem_minus_1 {A : Type} (l : list A) (c : A) :
  py_delitem (l ++ [c]) (-1) = Ok l.
Proof.
  rewrite <- (py_delitem_last l c).
  unfold py_delitem. rewrite length_app.
  replace (-1 <? 0)%Z with true by reflexivity.
  replace (Z.of_nat (length l) <? 0)%Z with false
    by (symmetry; apply Z.ltb_ge; lia).
  replace (-1 + Z.of_nat (length l + length [c]))%Z
    with (Z.of_nat (length l)) by (cbn [length]; lia).
  reflexivity.
Qed.

Lemma py_delitem_head {A : Type} (l : list A) (c : A) :
  py_delitem (c :: l) 0 = Ok l.
Proof.
  rewrite (py_delitem_cell _ _ c) by (try lia; reflexivity). reflexivity.
Qed.

Lemma str_find_key (c : ascii) (key value : string) :
  has_char c key = false ->
  str_find c (key ++ String c value) = Z.of_nat (String.length key).
Proof.
  induction key as [|d key IH]; simpl.
  - intros _. now rewrite Ascii.eqb_refl.
  - intros H. apply orb_false_iff in H. destruct H as [H1 H2].
    rewrite H1, (IH H2).
    replace (Z.of_nat (String.length key) <? 0)%Z with false
      by (symmetry; apply Z.ltb_ge; lia).
    lia.
Qed.

Lemma str_find_none (c : ascii) (s : string) :
  has_char c s = false -> str_find c s = (-1)%Z.
Proof.
  induction s as [|d s IH]; simpl; [reflexivity|].
  intros H. apply orb_false_iff in H. destruct H as [H1 H2].
  now rewrite H1, (IH H2).
Qed.

Lemma list_ascii_app (s t : string) :
  list_ascii_of_string (s ++ t)
  = list_ascii_of_string s ++ list_ascii_of_string t.
Proof. induction s as [|c s IH]; simpl; [reflexivity | now rewrite IH]. Qed.

Lemma length_list_ascii (s : string) :
  length (list_ascii_of_string s) = String.length s.
Proof. induction s as [|c s IH]; simpl; [reflexivity | now rewrite IH]. Qed.

Lemma length_append (s t : string) :
  String.length (s ++ t) = (String.length s + String.length t)%nat.
Proof. induction s as [|c s IH]; simpl; [reflexivity | now rewrite IH]. Qed.

Lemma append_assoc (s t u : string) :
  ((s ++ t) ++ u = s ++ t ++ u)%string.
Proof. induction s as [|c s IH]; simpl; [reflexivity | now rewrite IH]. Qed.

Lemma str_slice_from_0 (s : string) : str_slice_from s 0 = s.
Proof.
  unfold str_slice_from, str_slice, py_slice.
  rewrite !clamp_nonneg by lia. rewrite length_list_ascii, Nat2Z.id.
  simpl Z.to_nat. rewrite Nat.min_0_r, Nat.min_id, Nat.sub_0_r.
  cbn [skipn]. rewrite <- length_list_ascii, firstn_all.
  apply string_of_list_ascii_of_string.
Qed.

Lemma str_slice_from_app (s t : string) :
  str_slice_from (s ++ t) (Z.of_nat (String.length s)) = t.
Proof.
  unfold str_slice_from, str_slice, py_slice.
  rewrite !clamp_nonneg by lia. rewrite length_list_ascii, !Nat2Z.id.
  rewrite Nat.min_id. rewrite list_ascii_app.
  rewrite length_append.
  replace (Nat.min (String.length s + String.length t) (String.length s))
    with (length (list_ascii_of_string s))
    by (rewrite length_list_ascii; lia).
  rewrite skipn_app, skipn_all, Nat.sub_diag. cbn [skipn app].
  rewrite firstn_all2 by (rewrite !length_list_ascii; lia).
  apply string_of_list_ascii_of_string.
Qed.

Lemma str_slice_from_value (key value : string) :
  str_slice_from (span_piece (key, value))
    (Z.of_nat (String.length key) + 1) = value.
Proof.
  unfold span_piece. simpl fst. simpl snd.
  change (String "=" value) with (String "=" EmptyString ++ value)%string.
  rewrite <- append_assoc.
  replace (Z.of_nat (String.length key) + 1)%Z
    with (Z.of_nat (String.length (key ++ String "=" EmptyString)))
    by (rewrite length_append; simpl; lia).
  apply str_slice_from_app.
Qed.

(** ** Span details *)

Section SpanFacts.

Context {L : Layout}.
Variable float_of_string : string -> option R.
Variable int_of_string : string -> option Z.

Hypothesis num_nonneg : (0 <= NUM_SPANS_INDEX)%Z.
Hypothesis span_nonneg : (0 <= SPAN_DETAILS_INDEX)%Z.

Lemma spans_of_loop (pieces : list string) (values acc : list R) :
  Forall2
    (fun p x =>
       float_of_string (str_slice_from p (str_find "=" p + 1)) = Some x)
    pieces values ->
  for_each
    (fun spans_list char =>
       let index := str_find "=" char in
       let new := str_slice_from char (index + 1) in
       new <- py_float float_of_string (PStr new) ;;
       Ok (spans_list ++ [new]))
    pieces acc
  = Ok (acc ++ values).
Proof.
  intros H. revert acc.
  induction H as [|p x pieces values Hp _ IH]; intros acc; simpl.
  - now rewrite app_nil_r.
  - rewrite Hp. simpl. rewrite IH. now rewrite <- app_assoc.
Qed.

Lemma spans_of_pieces (kvs : list (string * string)) (values : list R) :
  Forall2
    (fun kv x =>
       has_char "=" (fst kv) = false /\ float_of_string (snd kv) = Some x)
    kvs values ->
  spans_of float_of_string (map span_piece kvs) = Ok values.
Proof.
  intros H. unfold spans_of. rewrite (spans_of_loop _ values); [reflexivity|].
  induction H as [|[key value] x kvs values [Hk Hx] _ IH]; simpl;
    constructor; [|exact IH].
  simpl in Hk, Hx. unfold span_piece at 2. simpl fst. simpl snd.
  rewrite (str_find_key _ _ _ Hk), str_slice_from_value. exact Hx.
Qed.

Lemma format_spans_run (record : list pyval) (n : pyval) (k : Z)
    (details t1 t2 tail : string) (rest pieces : list string)
    (values : list R) :
  cell_at record NUM_SPANS_INDEX = Some n ->
  py_int int_of_string n = Ok k ->
  cell_at (with_cell record NUM_SPANS_INDEX (PInt k)) SPAN_DETAILS_INDEX
  = Some (PStr details) ->
  split_char " " details = t1 :: t2 :: rest ->
  split_char ";" (String.concat EmptyString rest) = pieces ++ [tail] ->
  spans_of float_of_string pieces = Ok values ->
  format_spans float_of_string int_of_string record
  = Returns
      (with_cell (with_cell record NUM_SPANS_INDEX (PInt k))
         SPAN_DETAILS_INDEX (PList (map PFloat values)))
      tt.
Proof.
  intros H1 H2 H3 H4 H5 H6. unfold format_spans, and_then.
  rewrite (getitem_cell _ _ _ num_nonneg H1). unfold eval at 1. rewrite H2.
  rewrite (setitem_cell _ _ _ _ num_nonneg H1).
  rewrite (getitem_cell _ _ _ span_nonneg H3).
  unfold py_split, ret. rewrite H4.
  rewrite py_delitem_head. unfold eval at 1.
  rewrite py_delitem_head. unfold eval at 1.
  rewrite H5, py_delitem_minus_1. unfold eval at 1.
  rewrite H6. unfold eval.
  now rewrite (setitem_cell _ _ _ _ span_nonneg H3).
Qed.

Lemma format_spans_inv (record record' : list pyval) (u : unit) :
  format_spans float_of_string int_of_string record = Returns record' u ->
  exists n k details values,
    cell_at record NUM_SPANS_INDEX = Some n
    /\ py_int int_of_string n = Ok k
    /\ cell_at (with_cell record NUM_SPANS_INDEX (PInt k)) SPAN_DETAILS_INDEX
       = Some (PStr details)
    /\ record'
       = with_cell (with_cell record NUM_SPANS_INDEX (PInt k))
           SPAN_DETAILS_INDEX (PList (map PFloat values)).
Proof.
  unfold format_spans, and_then.
  destruct (cell_at record NUM_SPANS_INDEX) as [n|] eqn:H1;
    [rewrite (getitem_cell _ _ _ num_nonneg H1)
    | rewrite (getitem_short _ _ num_nonneg H1); discriminate].
  unfold eval at 1.
  destruct (py_int int_of_string n) as [k|e] eqn:H2; [|discriminate].
  rewrite (setitem_cell _ _ _ _ num_nonneg H1).
  destruct (cell_at (with_cell record NUM_SPANS_INDEX (PInt k))
              SPAN_DETAILS_INDEX) as [d|] eqn:H3;
    [rewrite (getitem_cell _ _ _ span_nonneg H3)
    | rewrite (getitem_short _ _ span_nonneg H3); discriminate].
  destruct d as [z|x|details|l]; try discriminate.
  unfold py_split, ret.
  unfold eval at 1.
  destruct (py_delitem (split_char " " details) 0) as [s1|e]; [|discriminate].
  unfold eval at 1.
  destruct (py_delitem s1 0) as [s2|e]; [|discriminate].
  unfold eval at 1.
  destruct (py_delitem _ (-1)) as [r|e]; [|discriminate].
  unfold eval.
  destruct (spans_of float_of_string r) as [values|e]; [|discriminate].
  rewrite (setitem_cell _ _ _ _ span_nonneg H3).
  intros E. injection E as <-. exists n, k, details, values. auto.
Qed.

(** Fewer than two spaces in the summary: the second [del s[0]] fails, or
    the first one never does. *)
Lemma format_spans_unspaced (record : list pyval) (n : pyval) (k : Z)
    (details t1 : string) :
  cell_at record NUM_SPANS_INDEX = Some n ->
  py_int int_of_string n = Ok k ->
  cell_at (with_cell record NUM_SPANS_INDEX (PInt k)) SPAN_DETAILS_INDEX
  = Some (PStr details) ->
  split_char " " details = [t1] ->
  format_spans float_of_string int_of_string record
  = Raises (with_cell record NUM_SPANS_INDEX (PInt k)) (Builtin IndexError).
Proof.
  intros H1 H2 H3 H4. unfold format_spans, and_then.
  rewrite (getitem_cell _ _ _ num_nonneg H1). unfold eval at 1. rewrite H2.
  rewrite (setitem_cell _ _ _ _ num_nonneg H1).
  rewrite (getitem_cell _ _ _ span_nonneg H3).
  unfold py_split, ret. rewrite H4.
  rewrite py_delitem_head. unfold eval at 1. reflexivity.
Qed.

End SpanFacts.

(** ** Length cell *)

Lemma format_length_inv (LENGTH_INDEX : Z)
    (float_of_string : string -> option R) (record record' : list pyval) :
  (0 <= LENGTH_INDEX)%Z ->
  format_length LENGTH_INDEX float_of_string record = Ok record' ->
  exists c x,
    cell_at record LENGTH_INDEX = Some c
    /\ py_float float_of_string c = Ok x
    /\ record' = with_cell record LENGTH_INDEX (PFloat x).
Proof.
  intros Hi. unfold format_length. simpl negb. cbv iota.
  destruct (cell_at record LENGTH_INDEX) as [c|] eqn:H1;
    [rewrite (py_index_cell _ _ _ Hi H1)
    | rewrite (py_index_short _ _ Hi H1); discriminate].
  simpl bind.
  destruct (py_float float_of_string c) as [x|e] eqn:H2; [|discriminate].
  simpl bind. rewrite (py_setitem_cell _ _ _ _ Hi H1).
  intros E. injection E as <-. eauto.
Qed.

(** ** The loop over the rows *)

Lemma on_row_at {A : Type} (p : proc (list pyval) A)
    (done rest : list (list pyval)) (r : list pyval) :
  on_row (Z.of_nat (length done)) p (done ++ r :: rest)
  = match p r with
    | Returns r' a => Returns (done ++ r' :: rest) a
    | Raises r' e => Raises (done ++ r' :: rest) e
    end.
Proof.
  assert (Hc : cell_at (done ++ r :: rest) (Z.of_nat (length done)) = Some r).
  { unfold cell_at.
    rewrite Nat2Z.id, nth_error_app2, Nat.sub_diag by lia. reflexivity. }
  assert (Hw : forall r',
             with_cell (done ++ r :: rest) (Z.of_nat (length done)) r'
             = done ++ r' :: rest).
  { intros r'. unfold with_cell. rewrite Nat2Z.id.
    rewrite firstn_app, Nat.sub_diag, firstn_all. cbn [firstn].
    rewrite app_nil_r. f_equal. f_equal.
    change (S (length done)) with (1 + length done)%nat.
    rewrite <- skipn_skipn, skipn_app, Nat.sub_diag, skipn_all.
    reflexivity. }
  unfold on_row. rewrite (py_index_cell _ _ _ (Nat2Z.is_nonneg _) Hc).
  destruct (p r) as [r' a|r' e];
    rewrite (py_setitem_cell _ _ _ _ (Nat2Z.is_nonneg _) Hc), Hw;
    reflexivity.
Qed.

Section DataFacts.

Context {L : Layout}.
Variable float_of_string : string -> option R.
Variable int_of_string : string -> option Z.

Lemma data_loop_step (done rows : list (list pyval)) (r : list pyval) :
  for_proc
    (fun _ i => on_row i (format_row float_of_string int_of_string i))
    (map Z.of_nat (seq (length done) (length (r :: rows)))) tt
    (done ++ r :: rows)
  = match format_row float_of_string int_of_string
            (Z.of_nat (length done)) r with
    | Returns r' _ =>
        for_proc
          (fun _ i => on_row i (format_row float_of_string int_of_string i))
          (map Z.of_nat (seq (length (done ++ [r'])) (length rows))) tt
          ((done ++ [r']) ++ rows)
    | Raises r' e => Raises (done ++ r' :: rows) e
    end.
Proof.
  cbn [length seq map for_proc]. unfold and_then at 1. rewrite on_row_at.
  destruct (format_row _ _ _ r) as [r' []|r' e]; [|reflexivity].
  rewrite length_app, <- app_assoc. simpl length.
  now replace (length done + 1)%nat with (S (length done)) by lia.
Qed.


Lemma data_loop_inv (rows done data' : list (list pyval)) (u : unit) :
  for_proc
    (fun _ i => on_row i (format_row float_of_string int_of_string i))
    (map Z.of_nat (seq (length done) (length rows))) tt (done ++ rows)
  = Returns data' u ->
  exists rows',
    data' = done ++ rows'
    /\ rows_formatted float_of_string int_of_string
         (Z.of_nat (length done)) rows rows'.
Proof.
  revert done. induction rows as [|r rows IH]; intros done H.
  - simpl in H. injection H as <- _. exists []. split; [reflexivity|].
    constructor.
  - rewrite data_loop_step in H.
    destruct (format_row _ _ _ r) as [r' []|r' e] eqn:Hr; [|discriminate].
    destruct (IH _ H) as (rows' & -> & Hrows).
    exists (r' :: rows'). split; [now rewrite <- app_assoc|].
    constructor; [exact Hr|].
    rewrite length_app in Hrows. simpl length in Hrows.
    now replace (Z.of_nat (length done + 1))
      with (Z.of_nat (length done) + 1)%Z in Hrows by lia.
Qed.


Lemma format_data_loop (data : list (list pyval)) :
  format_data float_of_string int_of_string data
  = for_proc
      (fun _ i => on_row i (format_row float_of_string int_of_string i))
      (map Z.of_nat (seq (length (@nil (list pyval))) (length data))) tt
      ([] ++ data).
Proof. unfold format_data, range. now rewrite Nat2Z.id. Qed.

Lemma rows_formatted_length (i : Z) (rows rows' : list (list pyval)) :
  rows_formatted float_of_string int_of_string i rows rows' ->
  length rows' = length rows.
Proof. induction 1; simpl; congruence. Qed.

End DataFacts.

(** ** The formatted rows are bridge records *)

Lemma setitem_inv {A : Type} (l l' : list A) (i : Z) (v : A) (u : unit) :
  (0 <= i)%Z -> setitem i v l = Returns l' u ->
  exists w, cell_at l i = Some w /\ l' = with_cell l i v.
Proof.
  intros Hi. unfold setitem.
  destruct (cell_at l i) as [w|] eqn:Hc.
  - rewrite (py_setitem_cell _ _ _ _ Hi Hc). intros E. injection E as <-.
    eauto.
  - unfold py_setitem. apply nth_error_None in Hc.
    replace (i <? 0)%Z with false by (symmetry; apply Z.ltb_ge; lia).
    replace (Z.of_nat (length l) <=? i)%Z with true
      by (symmetry; apply Z.leb_le; lia).
    rewrite orb_true_r. discriminate.
Qed.

Section TypedRows.

Variable float_of_string : string -> option R.
Variable int_of_string : string -> option Z.

Lemma format_row_inv (L : Layout) (i : Z) (r r' : list pyval) :
  (0 <= ID_INDEX)%Z -> (0 <= LAT_INDEX)%Z -> (0 <= LON_INDEX)%Z ->
  (0 <= NUM_SPANS_INDEX)%Z -> (0 <= SPAN_DETAILS_INDEX)%Z ->
  (0 <= LENGTH_INDEX)%Z -> (0 <= BCIS_INDEX)%Z ->
  format_row float_of_string int_of_string i r = Returns r' tt ->
  exists (x y len : R) (k : Z) (spans bcis : list R) (first : pyval),
    let r1 := with_cell r ID_INDEX (PInt (i + 1)) in
    let r2 := with_cell (with_cell r1 LAT_INDEX (PFloat x)) LON_INDEX
                (PFloat y) in
    let r3 := with_cell (with_cell r2 NUM_SPANS_INDEX (PInt k))
                SPAN_DETAILS_INDEX (PList (map PFloat spans)) in
    let r4 := with_cell r3 LENGTH_INDEX (PFloat len) in
    length r4 = length r
    /\ cell_at r4 BCIS_INDEX = Some first
    /\ r' = firstn (Z.to_nat BCIS_INDEX) r4 ++ [PList (map PFloat bcis)].
Proof.
  intros H0 H1 H2 H3 H4 H5 H6. unfold format_row, and_then.
  destruct (setitem ID_INDEX _ r) as [r1 u|] eqn:E1; [|discriminate].
  destruct (setitem_inv _ _ _ _ _ H0 E1) as (w0 & C0 & ->).
  destruct (format_location _ _) as [r2 u2|] eqn:E2; [|discriminate].
  destruct (format_location_inv _ H1 H2 _ _ _ E2)
    as (lat & lon & x & y & C1 & _ & C2 & _ & ->).
  destruct (format_spans _ _ _) as [r3 u3|] eqn:E3; [|discriminate].
  destruct (format_spans_inv _ _ H3 H4 _ _ _ E3)
    as (n & k & details & spans & C3 & _ & C4 & ->).
  destruct (format_length _ _ _) as [r4|] eqn:E4; [|discriminate].
  destruct (format_length_inv _ _ _ _ H5 E4) as (c & len & C5 & _ & ->).
  intros E5.
  destruct (format_bcis_inv _ H6 _ _ _ E5) as (first & bcis & C6 & _ & ->).
  exists x, y, len, k, spans, bcis, first. cbv zeta.
  split; [|split; [exact C6 | reflexivity]].
  rewrite (length_with_cell _ _ _ _ C5), (length_with_cell _ _ _ _ C4),
    (length_with_cell _ _ _ _ C3), (length_with_cell _ _ _ _ C2),
    (length_with_cell _ _ _ _ C1). apply (length_with_cell _ _ _ _ C0).
Qed.

Lemma format_row_typed (i : Z) (r r' : list pyval) :
  Forall (fun c => is_str c = true) r ->
  @format_row reference_layout float_of_string int_of_string i r
  = Returns r' tt ->
  exists b : bridge, r' = cells b /\ ID b = (i + 1)%Z.
Proof.
  intros Hs H.
  apply format_row_inv in H; try (simpl; lia).
  destruct H as (x & y & len & k & spans & bcis & first & Hlen & Hc & ->).
  cbv zeta in Hlen, Hc.
  assert (Hr : (12 < length r)%nat).
  { rewrite <- Hlen. apply nth_error_Some. unfold cell_at in Hc.
    change (Z.to_nat BCIS_INDEX) with 12%nat in Hc. now rewrite Hc. }
  clear Hlen Hc.
  do 13 (destruct r as [|? r]; [simpl in Hr; lia|]).
  repeat match goal with
         | H : Forall _ (_ :: _) |- _ => inversion H; clear H; subst
         end.
  repeat match goal with
         | H : is_str ?c = true |- _ =>
             destruct c; try discriminate H; clear H
         end.
  eexists {| ID := (i + 1)%Z |}. split; [|reflexivity].
  unfold cells. cbn. reflexivity.
Qed.

End TypedRows.

(** ** The normalizer: main results *)

Ltac same_cells :=
  repeat match goal with
         | |- PFloat _ = PFloat _ => apply f_equal; simpl pow; lra
         | |- PList _ = PList _ => apply f_equal
         | |- _ :: _ = _ :: _ => apply f_equal2
         | |- Returns _ _ = Returns _ _ => apply f_equal2
         | |- Raises _ _ = Raises _ _ => apply f_equal2
         | |- _ => reflexivity
         end.

Ltac run_formatter :=
  cbv - [IZR Rplus Rdiv Rmult Ropp Rinv pow Rminus]; same_cells.

(** The docstring example of [format_data]: the uncleaned rows become the
    three bridges. *)
Lemma format_data_docstring :
  @format_data reference_layout decimal_of_string whole_of_string
    THREE_BRIDGES_UNCLEANED
  = Returns (map cells THREE_BRIDGES) tt.
Proof. run_formatter. Qed.

Lemma format_data_empty (L : Layout) (float_of_string : string -> option R)
    (int_of_string : string -> option Z) :
  format_data float_of_string int_of_string [] = Returns [] tt.
Proof. reflexivity. Qed.

(** X16: when [format_location] returns, the latitude and longitude cells
    hold the floats of the cells they had, the record has the length it had
    and every other cell is as it was; formatting the record once more
    changes nothing. *)
Theorem X16_location_converts_two_cells (L : Layout)
    (float_of_string : string -> option R) (record record' : list pyval) :
  (0 <= LAT_INDEX)%Z -> (0 <= LON_INDEX)%Z -> LAT_INDEX <> LON_INDEX ->
  format_location float_of_string record = Returns record' tt ->
  (exists lat lon x y,
     cell_at record LAT_INDEX = Some lat
     /\ py_float float_of_string lat = Ok x
     /\ cell_at record LON_INDEX = Some lon
     /\ py_float float_of_string lon = Ok y
     /\ cell_at record' LAT_INDEX = Some (PFloat x)
     /\ cell_at record' LON_INDEX = Some (PFloat y))
  /\ length record' = length record
  /\ (forall i, (0 <= i)%Z -> i <> LAT_INDEX -> i <> LON_INDEX ->
                cell_at record' i = cell_at record i)
  /\ format_location float_of_string record' = Returns record' tt.
Proof.
  intros H1 H2 N H.
  destruct (format_location_inv _ H1 H2 _ _ _ H)
    as (lat & lon & x & y & C1 & F1 & C2 & F2 & ->).
  assert (C2' : cell_at record LON_INDEX = Some lon)
    by (now rewrite <- (cell_at_with_cell_other _ _ _ (PFloat x) lat H1 H2 N)).
  assert (C3 : cell_at (with_cell record LAT_INDEX (PFloat x)) LAT_INDEX
               = Some (PFloat x))
    by apply (cell_at_with_cell_same _ _ _ _ C1).
  assert (C4 : cell_at
                 (with_cell (with_cell record LAT_INDEX (PFloat x))
                    LON_INDEX (PFloat y)) LAT_INDEX
               = Some (PFloat x)).
  { rewrite (cell_at_with_cell_other _ _ _ _ lon H2 H1); auto. }
  assert (C5 : cell_at
                 (with_cell (with_cell record LAT_INDEX (PFloat x))
                    LON_INDEX (PFloat y)) LON_INDEX
               = Some (PFloat y))
    by apply (cell_at_with_cell_same _ _ _ _ C2).
  split; [|split; [|split]].
  - exists lat, lon, x, y. auto 7.
  - rewrite (length_with_cell _ _ _ _ C2). apply (length_with_cell _ _ _ _ C1).
  - intros i Hi N1 N2.
    rewrite (cell_at_with_cell_other _ _ _ _ lon H2 Hi) by auto.
    apply (cell_at_with_cell_other _ _ _ _ lat H1 Hi); auto.
  - pose proof (format_location_run float_of_string H1 H2 _ (PFloat x)
                  (PFloat y) x y C4 eq_refl) as E.
    rewrite (with_cell_same _ _ _ C4) in E. specialize (E C5 eq_refl).
    now rewrite (with_cell_same _ _ _ C5) in E.
Qed.

Lemma X16_witness :
  @format_location reference_layout decimal_of_string
    (with_cell
       (with_cell (hd [] THREE_BRIDGES_UNCLEANED) 3 (PFloat 43.167233))
       4 (PFloat (-80.275567)))
  = Returns
      (with_cell
         (with_cell (hd [] THREE_BRIDGES_UNCLEANED) 3 (PFloat 43.167233))
         4 (PFloat (-80.275567)))
      tt.
Proof.
  refine (proj2 (proj2 (proj2
    (X16_location_converts_two_cells reference_layout decimal_of_string
       (hd [] THREE_BRIDGES_UNCLEANED) _ _ _ _ _)))).
  - simpl. lia.
  - simpl. lia.
  - discriminate.
  - run_formatter.
Defined.

(** X17: when the longitude cell is missing or is no number,
    [format_location] raises and leaves the record with the latitude
    converted already. *)
Theorem X17_location_failure_keeps_latitude (L : Layout)
    (float_of_string : string -> option R) (record : list pyval)
    (lat : pyval) (x : R) :
  (0 <= LAT_INDEX)%Z -> (0 <= LON_INDEX)%Z -> LAT_INDEX <> LON_INDEX ->
  cell_at record LAT_INDEX = Some lat ->
  py_float float_of_string lat = Ok x ->
  (cell_at record LON_INDEX = None ->
   format_location float_of_string record
   = Raises (with_cell record LAT_INDEX (PFloat x)) (Builtin IndexError))
  /\ (forall lon e,
        cell_at record LON_INDEX = Some lon ->
        py_float float_of_string lon = Raise e ->
        format_location float_of_string record
        = Raises (with_cell record LAT_INDEX (PFloat x)) (Builtin e))
  /\ (forall s,
        cell_at record LON_INDEX = Some (PStr s) ->
        float_of_string s = None ->
        format_location float_of_string record
        = Raises (with_cell record LAT_INDEX (PFloat x))
            (Builtin ValueError)).
Proof.
  intros H1 H2 N C1 F1.
  assert (Hlon : cell_at (with_cell record LAT_INDEX (PFloat x)) LON_INDEX
                 = cell_at record LON_INDEX)
    by (apply (cell_at_with_cell_other _ _ _ _ lat H1 H2); auto).
  assert (Hraise : forall lon e,
             cell_at record LON_INDEX = Some lon ->
             py_float float_of_string lon = Raise e ->
             format_location float_of_string record
             = Raises (with_cell record LAT_INDEX (PFloat x)) (Builtin e)).
  { intros lon e C2 F2. rewrite <- Hlon in C2.
    unfold format_location, and_then.
    rewrite (getitem_cell _ _ _ H1 C1). unfold eval at 1. rewrite F1.
    rewrite (setitem_cell _ _ _ _ H1 C1).
    rewrite (getitem_cell _ _ _ H2 C2). unfold eval. now rewrite F2. }
  split; [|split].
  - intros C2. rewrite <- Hlon in C2. unfold format_location, and_then.
    rewrite (getitem_cell _ _ _ H1 C1). unfold eval at 1. rewrite F1.
    rewrite (setitem_cell _ _ _ _ H1 C1).
    now rewrite (getitem_short _ _ H2 C2).
  - exact Hraise.
  - intros s C2 F2. apply (Hraise (PStr s)); [exact C2|].
    simpl. now rewrite F2.
Qed.

Lemma X17_witness :
  @format_location reference_layout decimal_of_string
    [PStr "1 -  32/"; PStr "Highway 24 Underpass at Highway 403";
     PStr "403"; PStr "43.167233"; PStr "80.275567 W"]
  = Raises
      [PStr "1 -  32/"; PStr "Highway 24 Underpass at Highway 403";
       PStr "403"; PFloat (43 + 167233 / 10 ^ 6); PStr "80.275567 W"]
      (Builtin ValueError).
Proof.
  refine (proj2 (proj2
    (X17_location_failure_keeps_latitude reference_layout decimal_of_string
       [PStr "1 -  32/"; PStr "Highway 24 Underpass at Highway 403";
        PStr "403"; PStr "43.167233"; PStr "80.275567 W"]
       (PStr "43.167233") (43 + 167233 / 10 ^ 6) _ _ _ _ _))
    "80.275567 W"%string _ _).
  - simpl. lia.
  - simpl. lia.
  - discriminate.
  - reflexivity.
  - reflexivity.
  - reflexivity.
  - reflexivity.
Defined.

(** X18: on a record with a cell at [BCIS_INDEX], [format_bcis] keeps the
    cells before that position, drops the cell at that position and every
    cell after it, and stores at that position the floats of the cells after
    it that are not the empty string, in the order of the record. *)
Theorem X18_bcis_keeps_recorded_cells_in_order (L : Layout)
    (float_of_string : string -> option R) (front trailing : list pyval)
    (first : pyval) (values : list R) :
  (0 <= BCIS_INDEX)%Z ->
  length front = Z.to_nat BCIS_INDEX ->
  Forall2 (fun c x => py_float float_of_string c = Ok x)
    (recorded trailing) values ->
  format_bcis float_of_string (front ++ first :: trailing)
  = Returns (front ++ [PList (map PFloat values)]) tt.
Proof. intros H. now apply format_bcis_run. Qed.

Lemma X18_witness :
  @format_bcis reference_layout decimal_of_string
    (hd [] THREE_BRIDGES_UNCLEANED)
  = Returns
      (firstn 12 (hd [] THREE_BRIDGES_UNCLEANED)
       ++ [PList
             (map PFloat
                [72 + 3 / 10 ^ 1; 69 + 5 / 10 ^ 1; 70; 70 + 3 / 10 ^ 1;
                 70 + 5 / 10 ^ 1; 70 + 7 / 10 ^ 1; 72 + 9 / 10 ^ 1])])
      tt.
Proof.
  refine (X18_bcis_keeps_recorded_cells_in_order reference_layout
            decimal_of_string (firstn 12 (hd [] THREE_BRIDGES_UNCLEANED))
            (skipn 13 (hd [] THREE_BRIDGES_UNCLEANED)) (PStr "72.3")
            _ _ _ _).
  - simpl. lia.
  - reflexivity.
  - repeat constructor.
Defined.

(** X19: a cell after [BCIS_INDEX] that is not the empty string and is no
    number makes [format_bcis] raise after it has deleted the cells behind
    that cell; a record with no cell at [BCIS_INDEX] makes it raise
    [IndexError] with the record as it was. *)
Theorem X19_bcis_failure_leaves_truncated_record (L : Layout)
    (float_of_string : string -> option R) :
  (0 <= BCIS_INDEX)%Z ->
  (forall front first t1 bad t2 e values,
     length front = Z.to_nat BCIS_INDEX ->
     py_eqb bad (PStr EmptyString) = false ->
     py_float float_of_string bad = Raise e ->
     Forall2 (fun c x => py_float float_of_string c = Ok x)
       (recorded t2) values ->
     format_bcis float_of_string (front ++ first :: t1 ++ bad :: t2)
     = Raises (front ++ first :: t1 ++ [bad]) (Builtin e))
  /\ (forall record,
        (length record <= Z.to_nat BCIS_INDEX)%nat ->
        format_bcis float_of_string record
        = Raises record (Builtin IndexError)).
Proof.
  intros H. split.
  - intros front first t1 bad t2 e values. now apply format_bcis_raises.
  - intros record Hlen. apply format_bcis_short; [exact H|].
    now apply nth_error_None.
Qed.

Lemma X19_witness :
  @format_bcis reference_layout decimal_of_string
    (firstn 12 (hd [] THREE_BRIDGES_UNCLEANED)
     ++ [PStr "72.3"; PStr "72.3"; PStr "n/a"; PStr "69.5"; PStr EmptyString])
  = Raises
      (firstn 12 (hd [] THREE_BRIDGES_UNCLEANED)
       ++ [PStr "72.3"; PStr "72.3"; PStr "n/a"])
      (Builtin ValueError).
Proof.
  refine (proj1
    (X19_bcis_failure_leaves_truncated_record reference_layout
       decimal_of_string _)
    (firstn 12 (hd [] THREE_BRIDGES_UNCLEANED)) (PStr "72.3")
    [PStr "72.3"] (PStr "n/a") [PStr "69.5"; PStr EmptyString] ValueError
    [69 + 5 / 10 ^ 1] _ _ _ _).
  - simpl. lia.
  - reflexivity.
  - reflexivity.
  - reflexivity.
  - repeat constructor.
Defined.

(** X20: on a span summary of two tokens without a space, each followed by
    a space, and then pieces [key=value] each closed by a semicolon,
    [format_spans] stores the integer of the span count and the floats of
    the values in the order of the summary.  The spaces of the pieces are
    dropped before they are read, what follows the last semicolon is not
    read, and the count is not compared with the number of values. *)
Theorem X20_spans_reads_values_of_summary (L : Layout)
    (float_of_string : string -> option R)
    (int_of_string : string -> option Z) (record : list pyval) (n : pyval)
    (k : Z) (t1 t2 body tail : string) (kvs : list (string * string))
    (values : list R) :
  (0 <= NUM_SPANS_INDEX)%Z -> (0 <= SPAN_DETAILS_INDEX)%Z ->
  NUM_SPANS_INDEX <> SPAN_DETAILS_INDEX ->
  cell_at record NUM_SPANS_INDEX = Some n ->
  py_int int_of_string n = Ok k ->
  cell_at record SPAN_DETAILS_INDEX
  = Some (PStr (t1 ++ String " " (t2 ++ String " " body))) ->
  has_char " " t1 = false -> has_char " " t2 = false ->
  remove_char " " body = closed_by ";" (map span_piece kvs) tail ->
  Forall (fun kv => has_char ";" (span_piece kv) = false) kvs ->
  has_char ";" tail = false ->
  Forall2
    (fun kv x =>
       has_char "=" (fst kv) = false /\ float_of_string (snd kv) = Some x)
    kvs values ->
  format_spans float_of_string int_of_string record
  = Returns
      (with_cell (with_cell record NUM_SPANS_INDEX (PInt k))
         SPAN_DETAILS_INDEX (PList (map PFloat values)))
      tt.
Proof.
  intros H1 H2 N C1 F1 C2 S1 S2 Hbody Hk Ht Hv.
  apply (format_spans_run float_of_string int_of_string H1 H2 record n k
           (t1 ++ String " " (t2 ++ String " " body)) t1 t2 tail
           (split_char " " body) (map span_piece kvs) values).
  - exact C1.
  - exact F1.
  - now rewrite (cell_at_with_cell_other _ _ _ _ n H1 H2 N C1).
  - now rewrite (split_char_app _ _ _ S1), (split_char_app _ _ _ S2).
  - rewrite concat_split_char, Hbody.
    apply split_char_closed_by; [|exact Ht].
    apply Forall_map. exact Hk.
  - now apply spans_of_pieces.
Qed.

Lemma X20_witness :
  @format_spans reference_layout decimal_of_string whole_of_string
    (hd [] THREE_BRIDGES_UNCLEANED)
  = Returns
      (with_cell
         (with_cell (hd [] THREE_BRIDGES_UNCLEANED) 8 (PInt 4)) 9
         (PList (map PFloat [12; 19; 21; 12])))
      tt.
Proof.
  refine (X20_spans_reads_values_of_summary reference_layout
            decimal_of_string whole_of_string
            (hd [] THREE_BRIDGES_UNCLEANED) (PStr "4") 4
            "Total=64" EmptyString "(1)=12;(2)=19;(3)=21;(4)=12;"
            EmptyString
            [("(1)", "12"); ("(2)", "19"); ("(3)", "21"); ("(4)", "12")]%string
            [12; 19; 21; 12] _ _ _ _ _ _ _ _ _ _ _ _).
  - simpl. lia.
  - simpl. lia.
  - discriminate.
  - reflexivity.
  - reflexivity.
  - reflexivity.
  - reflexivity.
  - reflexivity.
  - reflexivity.
  - repeat constructor.
  - reflexivity.
  - repeat constructor.
Defined.

(** X21: [format_spans] converts the span count first.  On a summary with
    no space it then raises [IndexError], on a cell that is no string
    [AttributeError], both with the count converted already; on a summary
    with one space only it returns and stores no span at all. *)
Theorem X21_spans_needs_two_spaces (L : Layout)
    (float_of_string : string -> option R)
    (int_of_string : string -> option Z) (record : list pyval) (n : pyval)
    (k : Z) :
  (0 <= NUM_SPANS_INDEX)%Z -> (0 <= SPAN_DETAILS_INDEX)%Z ->
  NUM_SPANS_INDEX <> SPAN_DETAILS_INDEX ->
  cell_at record NUM_SPANS_INDEX = Some n ->
  py_int int_of_string n = Ok k ->
  (forall details,
     cell_at record SPAN_DETAILS_INDEX = Some (PStr details) ->
     has_char " " details = false ->
     format_spans float_of_string int_of_string record
     = Raises (with_cell record NUM_SPANS_INDEX (PInt k))
         (Builtin IndexError))
  /\ (forall v,
        cell_at record SPAN_DETAILS_INDEX = Some v ->
        is_str v = false ->
        format_spans float_of_string int_of_string record
        = Raises (with_cell record NUM_SPANS_INDEX (PInt k)) AttributeError)
  /\ (forall t1 t2,
        cell_at record SPAN_DETAILS_INDEX = Some (PStr (t1 ++ String " " t2)) ->
        has_char " " t1 = false -> has_char " " t2 = false ->
        format_spans float_of_string int_of_string record
        = Returns
            (with_cell (with_cell record NUM_SPANS_INDEX (PInt k))
               SPAN_DETAILS_INDEX (PList []))
            tt).
Proof.
  intros H1 H2 N C1 F1.
  assert (Hc : cell_at (with_cell record NUM_SPANS_INDEX (PInt k))
                 SPAN_DETAILS_INDEX
               = cell_at record SPAN_DETAILS_INDEX)
    by apply (cell_at_with_cell_other _ _ _ _ n H1 H2 N C1).
  split; [|split].
  - intros details C2 S. rewrite <- Hc in C2.
    apply (format_spans_unspaced float_of_string int_of_string H1 H2 record
             n k details details C1 F1 C2).
    now apply split_char_whole.
  - intros v C2 Hv. rewrite <- Hc in C2.
    unfold format_spans, and_then.
    rewrite (getitem_cell _ _ _ H1 C1). unfold eval at 1. rewrite F1.
    rewrite (setitem_cell _ _ _ _ H1 C1).
    rewrite (getitem_cell _ _ _ H2 C2).
    destruct v; try discriminate Hv; reflexivity.
  - intros t1 t2 C2 S1 S2. rewrite <- Hc in C2.
    apply (format_spans_run float_of_string int_of_string H1 H2 record n k
             (t1 ++ String " " t2) t1 t2 EmptyString [] [] [] C1 F1 C2).
    + now rewrite (split_char_app _ _ _ S1), (split_char_whole _ _ S2).
    + reflexivity.
    + reflexivity.
Qed.

Lemma X21_witness :
  @format_spans reference_layout decimal_of_string whole_of_string
    (with_cell (hd [] THREE_BRIDGES_UNCLEANED) 9
       (PStr "Total=64 (1)=12;(2)=19;(3)=21;(4)=12;"))
  = Returns
      (with_cell
         (with_cell
            (with_cell (hd [] THREE_BRIDGES_UNCLEANED) 9
               (PStr "Total=64 (1)=12;(2)=19;(3)=21;(4)=12;"))
            8 (PInt 4))
         9 (PList []))
      tt.
Proof.
  refine (proj2 (proj2
    (X21_spans_needs_two_spaces reference_layout decimal_of_string
       whole_of_string
       (with_cell (hd [] THREE_BRIDGES_UNCLEANED) 9
          (PStr "Total=64 (1)=12;(2)=19;(3)=21;(4)=12;"))
       (PStr "4") 4 _ _ _ _ _))
    "Total=64"%string "(1)=12;(2)=19;(3)=21;(4)=12;"%string _ _ _).
  - simpl. lia.
  - simpl. lia.
  - discriminate.
  - reflexivity.
  - reflexivity.
  - reflexivity.
  - reflexivity.
  - reflexivity.
Defined.




Lemma rows_formatted_typed (float_of_string : string -> option R)
    (int_of_string : string -> option Z) (i : Z)
    (rows rows' : list (list pyval)) :
  @rows_formatted reference_layout float_of_string int_of_string i rows
    rows' ->
  Forall (Forall (fun c => is_str c = true)) rows ->
  exists bridges : list bridge,
    rows' = map cells bridges
    /\ map (@ID (list R)) bridges
       = map (fun k => (i + Z.of_nat k + 1)%Z) (seq 0 (length rows)).
Proof.
  induction 1 as [i|i r r' rows rows' Hr _ IH]; intros Hs.
  - exists []. split; reflexivity.
  - inversion Hs as [|? ? Hs1 Hs2]; subst.
    destruct (format_row_typed _ _ _ _ _ Hs1 Hr) as (b & -> & Hb).
    destruct (IH Hs2) as (bridges & -> & Hids).
    exists (b :: bridges). split; [reflexivity|].
    cbn [map length seq]. f_equal; [lia|].
    rewrite Hids, <- seq_shift, map_map. apply map_ext. intros k. lia.
Qed.

Lemma NoDup_map_injective {A B : Type} (f : A -> B) (l : list A) :
  (forall a b, f a = f b -> a = b) -> NoDup l -> NoDup (map f l).
Proof.
  intros Hf. induction 1 as [|x l Hx _ IH]; simpl; constructor; [|exact IH].
  intros Hin. apply in_map_iff in Hin. destruct Hin as (y & E & Hy).
  apply Hf in E. now subst.
Qed.

(** X24: when [format_data] returns on rows of strings laid out as the
    docstrings show, every row has become the record list of a bridge, with
    the cells the queries read, and the ids are 1, 2, ... in the order of
    the rows, so no two records share an id. *)
Theorem X24_formatted_rows_are_bridge_records
    (float_of_string : string -> option R)
    (int_of_string : string -> option Z) (raw data' : list (list pyval)) :
  Forall (Forall (fun c => is_str c = true)) raw ->
  @format_data reference_layout float_of_string int_of_string raw
  = Returns data' tt ->
  exists bridges : list bridge,
    data' = map cells bridges
    /\ map (@ID (list R)) bridges
       = map (fun k => (Z.of_nat k + 1)%Z) (seq 0 (length raw))
    /\ NoDup (map (@ID (list R)) bridges).
Proof.
  intros Hs H. rewrite format_data_loop in H. apply data_loop_inv in H.
  destruct H as (rows' & -> & H).
  destruct (rows_formatted_typed _ _ _ _ _ H Hs) as (bridges & -> & Hids).
  exists bridges. split; [reflexivity|]. split; [exact Hids|].
  rewrite Hids. apply NoDup_map_injective; [|apply seq_NoDup].
  intros a b E. lia.
Qed.

Lemma X24_witness :
  exists bridges : list bridge,
    map cells THREE_BRIDGES = map cells bridges
    /\ map (@ID (list R)) bridges
       = map (fun k => (Z.of_nat k + 1)%Z)
           (seq 0 (length THREE_BRIDGES_UNCLEANED))
    /\ NoDup (map (@ID (list R)) bridges).
Proof.
  refine (X24_formatted_rows_are_bridge_records decimal_of_string
            whole_of_string THREE_BRIDGES_UNCLEANED (map cells THREE_BRIDGES)
            _ _).
  - repeat constructor.
  - run_formatter.
Defined.

Lemma rows_formatted_In (L : Layout) (float_of_string : string -> option R)
    (int_of_string : string -> option Z) (i : Z)
    (rows rows' : list (list pyval)) (r : list pyval) :
  rows_formatted float_of_string int_of_string i rows rows' ->
  In r rows ->
  exists j r', format_row float_of_string int_of_string j r = Returns r' tt.
Proof.
  induction 1 as [i|i r0 r' rows rows' Hr _ IH]; intros Hin.
  - contradiction.
  - destruct Hin as [->|Hin]; [eauto | now apply IH].
Qed.

Lemma format_row_reads_length (L : Layout)
    (float_of_string : string -> option R)
    (int_of_string : string -> option Z) (i : Z) (r r' : list pyval) :
  (0 <= ID_INDEX)%Z -> (0 <= LAT_INDEX)%Z -> (0 <= LON_INDEX)%Z ->
  (0 <= NUM_SPANS_INDEX)%Z -> (0 <= SPAN_DETAILS_INDEX)%Z ->
  (0 <= LENGTH_INDEX)%Z ->
  ~ In LENGTH_INDEX
      [ID_INDEX; LAT_INDEX; LON_INDEX; NUM_SPANS_INDEX; SPAN_DETAILS_INDEX] ->
  format_row float_of_string int_of_string i r = Returns r' tt ->
  exists c len,
    cell_at r LENGTH_INDEX = Some c
    /\ py_float float_of_string c = Ok len.
Proof.
  intros H0 H1 H2 H3 H4 H5 N. unfold format_row, and_then.
  destruct (setitem ID_INDEX _ r) as [r1 u|] eqn:E1; [|discriminate].
  destruct (setitem_inv _ _ _ _ _ H0 E1) as (w0 & C0 & ->).
  destruct (format_location _ _) as [r2 u2|] eqn:E2; [|discriminate].
  destruct (format_location_inv _ H1 H2 _ _ _ E2)
    as (lat & lon & x & y & C1 & _ & C2 & _ & ->).
  destruct (format_spans _ _ _) as [r3 u3|] eqn:E3; [|discriminate].
  destruct (format_spans_inv _ _ H3 H4 _ _ _ E3)
    as (n & k & details & spans & C3 & _ & C4 & ->).
  destruct (format_length _ _ _) as [r4|] eqn:E4; [|discriminate].
  destruct (format_length_inv _ _ _ _ H5 E4) as (c & len & C5 & F5 & ->).
  intros _. exists c, len. split; [|exact F5].
  simpl in N.
  rewrite (cell_at_with_cell_other _ _ _ _ _ H4 H5 ltac:(tauto) C4) in C5.
  rewrite (cell_at_with_cell_other _ _ _ _ _ H3 H5 ltac:(tauto) C3) in C5.
  rewrite (cell_at_with_cell_other _ _ _ _ _ H2 H5 ltac:(tauto) C2) in C5.
  rewrite (cell_at_with_cell_other _ _ _ _ _ H1 H5 ltac:(tauto) C1) in C5.
  rewrite (cell_at_with_cell_other _ _ _ _ _ H0 H5 ltac:(tauto) C0) in C5.
  exact C5.
Qed.

(** X25: when the empty string is no number, [format_data] raises on every
    collection that has a row whose length cell is the empty string: no
    such row gets the length 0.0. *)
Theorem X25_format_data_needs_every_length (L : Layout)
    (float_of_string : string -> option R)
    (int_of_string : string -> option Z) (data : list (list pyval))
    (r : list pyval) :
  (0 <= ID_INDEX)%Z -> (0 <= LAT_INDEX)%Z -> (0 <= LON_INDEX)%Z ->
  (0 <= NUM_SPANS_INDEX)%Z -> (0 <= SPAN_DETAILS_INDEX)%Z ->
  (0 <= LENGTH_INDEX)%Z ->
  ~ In LENGTH_INDEX
      [ID_INDEX; LAT_INDEX; LON_INDEX; NUM_SPANS_INDEX; SPAN_DETAILS_INDEX] ->
  float_of_string EmptyString = None ->
  In r data ->
  cell_at r LENGTH_INDEX = Some (PStr EmptyString) ->
  exists data' e,
    format_data float_of_string int_of_string data = Raises data' e.
Proof.
  intros H0 H1 H2 H3 H4 H5 N Hf Hin Hc.
  destruct (format_data float_of_string int_of_string data)
    as [data' []|data' e] eqn:E; [|eauto].
  exfalso. rewrite format_data_loop in E. apply data_loop_inv in E.
  destruct E as (rows' & _ & Hrows).
  destruct (rows_formatted_In _ _ _ _ _ _ _ Hrows Hin) as (j & r' & Hr).
  destruct (format_row_reads_length _ _ _ _ _ _ H0 H1 H2 H3 H4 H5 N Hr)
    as (c & len & Hc' & Hlen).
  rewrite Hc in Hc'. injection Hc' as <-. simpl in Hlen.
  rewrite Hf in Hlen. discriminate.
Qed.

Lemma X25_witness :
  exists data' e,
    @format_data reference_layout decimal_of_string whole_of_string
      (firstn 2 THREE_BRIDGES_UNCLEANED ++ [raw_row_empty_length])
    = Raises data' e.
Proof.
  refine (X25_format_data_needs_every_length reference_layout
            decimal_of_string whole_of_string _ raw_row_empty_length
            _ _ _ _ _ _ _ _ _ _).
  - simpl. lia.
  - simpl. lia.
  - simpl. lia.
  - simpl. lia.
  - simpl. lia.
  - simpl. lia.
  - simpl. intuition discriminate.
  - reflexivity.
  - simpl. auto.
  - reflexivity.
Defined.
